(** * bullhorn-bridge: a shallow embedding of [BullhornBridge] (src/index.ts)

    The class is modelled field by field.  JavaScript strings are taken as
    Rocq strings (code units restricted to one byte), [string | null |
    undefined] as [option string], and every [await] of the source is a
    suspension point of an explicit coroutine, driven by the events of a
    single-threaded loop.

    What lies outside of the class is a parameter or a record of the model:
    the window, the dynamic import of post-robot, the replies of the parent
    frame (an oracle), [new URL], [JSON.stringify], and the functions of the
    application, which are called and either return or throw but do not call
    back into the session while they run.  [console.log] is left out. *)

From Stdlib Require Import Ascii String List Bool Arith ZArith Lia.
From stdpp Require Import base option list strings gmap pretty.
Import ListNotations.
Local Open Scope string_scope.
Local Open Scope list_scope.
#[local] Set Warnings "-register-all".

(** ** JavaScript string primitives used by the class *)

Module JsString.

(** [s.startsWith(p)] *)
Definition startsWith (s p : string) : bool := String.prefix p s.

(** [s.includes(sub)]: [sub] occurs at some offset of [s]. *)
Fixpoint includes (s sub : string) : bool :=
  String.prefix sub s ||
  match s with
  | EmptyString => false
  | String _ rest => includes rest sub
  end.

(** [s.replace(/[...]/g, '')] for a character class given as a predicate:
    every code unit of the class is dropped. *)
Fixpoint remove_chars (cls : ascii -> bool) (s : string) : string :=
  match s with
  | EmptyString => EmptyString
  | String c rest =>
      if cls c then remove_chars cls rest else String c (remove_chars cls rest)
  end.

(** [/^[...]+$/.test(s)] for a character class: [s] is not empty and all
    of its code units are in the class. *)
Fixpoint all_chars (cls : ascii -> bool) (s : string) : bool :=
  match s with
  | EmptyString => true
  | String c rest => cls c && all_chars cls rest
  end.

Definition test_class_plus (cls : ascii -> bool) (s : string) : bool :=
  match s with
  | EmptyString => false
  | String _ _ => all_chars cls s
  end.

Definition in_range (lo hi c : ascii) : bool :=
  (nat_of_ascii lo <=? nat_of_ascii c)%nat && (nat_of_ascii c <=? nat_of_ascii hi)%nat.

(** [s.toLowerCase()] on the ASCII letters. *)
Definition lower_char (c : ascii) : ascii :=
  if in_range "A" "Z" c then ascii_of_nat (nat_of_ascii c + 32) else c.

Fixpoint toLowerCase (s : string) : string :=
  match s with
  | EmptyString => EmptyString
  | String c rest => String (lower_char c) (toLowerCase rest)
  end.

(** [unit.repeat(n)] *)
Fixpoint repeat (unit : string) (n : nat) : string :=
  match n with
  | O => EmptyString
  | S n' => String.append unit (repeat unit n')
  end.

(** A string is falsy exactly when it is empty; [null] and [undefined]
    are [None]. *)
Definition truthy (v : option string) : bool :=
  match v with
  | Some (String _ _) => true
  | _ => false
  end.

(** [a || b] on [string | null]. *)
Definition or_else (a b : option string) : option string :=
  if truthy a then a else b.

(** [a || d] where [d] is a string literal. *)
Definition or_default (a : option string) (d : string) : string :=
  match a with
  | Some (String c rest) => String c rest
  | _ => d
  end.

End JsString.

(** ** Origin validation: [isAllowedOrigin] *)

Module Origin.
Import JsString.

(** [allowed.replace(/\*/g, '.*')] *)
Fixpoint replace_star (s : string) : string :=
  match s with
  | EmptyString => EmptyString
  | String c rest =>
      if Ascii.eqb c "*" then String "." (String "*" (replace_star rest))
      else String c (replace_star rest)
  end.

(** The fragment of the RegExp pattern language that [new RegExp] is
    given here: a sequence of atoms, each possibly followed by [*].  An
    atom is [.] or a character that is not a syntax character. *)
Inductive atom : Type :=
| ALit (c : ascii)
| ADot.

Inductive item : Type :=
| IOne (a : atom)
| IStar (a : atom).

(** The syntax characters of a RegExp pattern: [^ $ \ . * + ? ( ) [ ] { } |]. *)
Definition syntax_char (c : ascii) : bool :=
  existsb (Ascii.eqb c)
    ["^"; "$"; "\"; "."; "*"; "+"; "?"; "("; ")"; "["; "]"; "{"; "}"; "|"]%char.

Definition parse_atom (c : ascii) : option atom :=
  if Ascii.eqb c "." then Some ADot
  else if syntax_char c then None
  else Some (ALit c).

(** [None]: the pattern uses RegExp syntax outside of the fragment. *)
Fixpoint parse (s : string) : option (list item) :=
  match s with
  | EmptyString => Some []
  | String c rest =>
      match parse_atom c with
      | None => None
      | Some a =>
          match rest with
          | String "*" rest' =>
              match parse rest' with
              | Some r => Some (IStar a :: r)
              | None => None
              end
          | _ =>
              match parse rest with
              | Some r => Some (IOne a :: r)
              | None => None
              end
          end
      end
  end.

(** [.] matches every code unit but the line terminators. *)
Definition line_terminator (c : ascii) : bool :=
  Ascii.eqb c "010" || Ascii.eqb c "013".

Definition atom_matches (a : atom) (c : ascii) : bool :=
  match a with
  | ALit d => Ascii.eqb d c
  | ADot => negb (line_terminator c)
  end.

(** Anchored match [^items$] of the whole string. *)
Fixpoint matches (r : list item) (s : string) : bool :=
  match r with
  | [] => match s with EmptyString => true | _ => false end
  | IOne a :: r' =>
      match s with
      | String c rest => atom_matches a c && matches r' rest
      | EmptyString => false
      end
  | IStar a :: r' =>
      (fix star (t : string) : bool :=
         matches r' t ||
         match t with
         | String c rest => atom_matches a c && star rest
         | EmptyString => false
         end) s
  end.

(** [new RegExp(`^${pattern}$`).test(origin)] *)
Definition regexp_test (pattern origin : string) : option bool :=
  match parse pattern with
  | Some r => Some (matches r origin)
  | None => None
  end.

(** The callback of [allowedOrigins.some]. *)
Definition allowed_by (origin allowed : string) : option bool :=
  if includes allowed "*" then regexp_test (replace_star allowed) origin
  else Some (String.eqb origin allowed).

(** [Array.prototype.some], left to right, stopping at the first hit. *)
Fixpoint some (f : string -> option bool) (l : list string) : option bool :=
  match l with
  | [] => Some false
  | x :: rest =>
      match f x with
      | Some true => Some true
      | Some false => some f rest
      | None => None
      end
  end.

Definition isAllowedOrigin (allowedOrigins : list string) (origin : string) : option bool :=
  some (allowed_by origin) allowedOrigins.

(** The constructor's default for [allowedOrigins]. *)
Definition default_allowedOrigins : list string :=
  ["https://*.bullhornstaffing.com"; "https://*.bullhorn.com"].

(** The matching relation as the specification words it: [*] stands for
    any substring, every other pattern character for itself. *)
Fixpoint spec_wildcard (p s : string) : bool :=
  match p with
  | EmptyString => match s with EmptyString => true | _ => false end
  | String c p' =>
      if Ascii.eqb c "*" then
        (fix any (t : string) : bool :=
           spec_wildcard p' t ||
           match t with
           | String _ rest => any rest
           | EmptyString => false
           end) s
      else
        match s with
        | String d rest => Ascii.eqb c d && spec_wildcard p' rest
        | EmptyString => false
        end
  end.

Definition spec_isAllowedOrigin (allowedOrigins : list string) (origin : string) : bool :=
  existsb (fun allowed =>
             String.eqb origin allowed ||
             (includes allowed "*" && spec_wildcard allowed origin))
          allowedOrigins.

End Origin.

(** ** Message payloads *)

Module Js.

(** The values that cross the frame boundary.  Numbers are never
    inspected by the class, an integer stands for them.  The fields of an
    object are listed in property enumeration order. *)
Inductive value : Type :=
| VUndefined
| VNull
| VBool (b : bool)
| VNum (n : Z)
| VStr (s : string)
| VArr (elems : list value)
| VObj (fields : list (string * value)).

(** [obj[key]] on a plain object. *)
Fixpoint get_field (fields : list (string * value)) (key : string) : value :=
  match fields with
  | [] => VUndefined
  | (k, v) :: rest => if String.eqb k key then v else get_field rest key
  end.

End Js.

(** ** Event payload sanitisation: [sanitizeEventData] *)

Module Sanitize.
Import JsString Js.

(** The class of [<], [>], the double quote (code 034) and the single
    quote. *)
Definition xss_char (c : ascii) : bool :=
  existsb (Ascii.eqb c) ["<"; ">"; "034"; "'"]%char.

(** The own enumerable keys of an array are its indices: [for (key in
    data)] visits ["0"], ["1"], ... in ascending order. *)
Fixpoint index_fields (i : nat) (elems : list value) : list (string * value) :=
  match elems with
  | [] => []
  | v :: rest => (pretty i, v) :: index_fields (S i) rest
  end.

(** [sanitized] starts as [{}] in the object branch, also when [data] is
    an array. *)
Fixpoint sanitizeEventData (data : value) : value :=
  match data with
  | VStr s => VStr (remove_chars xss_char s)
  | VArr elems => VObj (index_fields 0 (map sanitizeEventData elems))
  | VObj fields =>
      VObj (map (fun kv => match kv with (k, v) => (k, sanitizeEventData v) end) fields)
  | _ => data
  end.

End Sanitize.

(** ** Credentials from the page URL *)

Module Credentials.
Import JsString.

Record BullhornCredentials : Type := mkCredentials {
  corporationId : option string;
  privateLabelId : option string;
  userId : option string;
  restUrl : option string;
  restToken : option string
}.

Definition no_credentials : BullhornCredentials :=
  mkCredentials None None None None None.

Definition MAX_PARAM_LENGTH : nat := 500.

(** The class of [<], [>], the double quote (code 034), the single quote
    and the ampersand. *)
Definition dangerous_char (c : ascii) : bool :=
  existsb (Ascii.eqb c) ["<"; ">"; "034"; "'"; "&"]%char.

Definition validateParam (value : option string) : option string :=
  match value with
  | None => None
  | Some EmptyString => None
  | Some v =>
      if (MAX_PARAM_LENGTH <? String.length v)%nat then None
      else Some (remove_chars dangerous_char v)
  end.

(** The class [[A-Za-z0-9\-_.~]]. *)
Definition token_char (c : ascii) : bool :=
  in_range "A" "Z" c || in_range "a" "z" c || in_range "0" "9" c ||
  existsb (Ascii.eqb c) ["-"; "_"; "."; "~"]%char.

Definition validateToken (token : option string) : option string :=
  match token with
  | None => None
  | Some EmptyString => None
  | Some t =>
      if negb (test_class_plus token_char t) || (MAX_PARAM_LENGTH <? String.length t)%nat
      then None
      else Some t
  end.

(** A [URLSearchParams] object: the decoded name and value pairs in the
    order of the string; [get] returns the first value of a name. *)
Definition URLSearchParams : Type := list (string * string).

Fixpoint get (params : URLSearchParams) (name : string) : option string :=
  match params with
  | [] => None
  | (k, v) :: rest => if String.eqb k name then Some v else get rest name
  end.

(** The keys of [this.credentials], in the order of the object literal. *)
Inductive key : Type :=
| KcorporationId | KprivateLabelId | KuserId | KrestUrl | KrestToken.

Definition keys : list key :=
  [KcorporationId; KprivateLabelId; KuserId; KrestUrl; KrestToken].

Definition key_name (k : key) : string :=
  match k with
  | KcorporationId => "corporationId"
  | KprivateLabelId => "privateLabelId"
  | KuserId => "userId"
  | KrestUrl => "restUrl"
  | KrestToken => "restToken"
  end.

Definition field (k : key) (c : BullhornCredentials) : option string :=
  match k with
  | KcorporationId => corporationId c
  | KprivateLabelId => privateLabelId c
  | KuserId => userId c
  | KrestUrl => restUrl c
  | KrestToken => restToken c
  end.

Definition set_field (k : key) (v : option string) (c : BullhornCredentials)
  : BullhornCredentials :=
  match k with
  | KcorporationId =>
      mkCredentials v (privateLabelId c) (userId c) (restUrl c) (restToken c)
  | KprivateLabelId =>
      mkCredentials (corporationId c) v (userId c) (restUrl c) (restToken c)
  | KuserId =>
      mkCredentials (corporationId c) (privateLabelId c) v (restUrl c) (restToken c)
  | KrestUrl =>
      mkCredentials (corporationId c) (privateLabelId c) (userId c) v (restToken c)
  | KrestToken =>
      mkCredentials (corporationId c) (privateLabelId c) (userId c) (restUrl c) v
  end.

Section WithURL.

(** [new URL(url).protocol] of the platform; [None] when the
    constructor throws. *)
Variable url_protocol : string -> option string.

Definition validateUrl (url : option string) : option string :=
  match url with
  | None => None
  | Some EmptyString => None
  | Some u =>
      match url_protocol u with
      | Some p => if String.eqb p "https:" then Some u else None
      | None => None
      end
  end.

(** The object literal built from [window.location.search]. *)
Definition from_query (urlParams : URLSearchParams) : BullhornCredentials :=
  {| corporationId :=
       validateParam (or_else (get urlParams "corporationId") (get urlParams "corp"));
     privateLabelId :=
       validateParam (or_else (get urlParams "privateLabelId") (get urlParams "plid"));
     userId := validateParam (or_else (get urlParams "userId") (get urlParams "uid"));
     restUrl := validateUrl (get urlParams "restUrl");
     restToken :=
       validateToken (or_else (get urlParams "BhRestToken") (get urlParams "restToken")) |}.

(** The body of the [forEach] over [Object.keys(this.credentials)]. *)
Definition from_hash (hashParams : URLSearchParams)
  (c : BullhornCredentials) (k : key) : BullhornCredentials :=
  if truthy (field k c) then c
  else
    let value :=
      or_else (get hashParams (key_name k)) (get hashParams (toLowerCase (key_name k))) in
    match k with
    | KrestUrl => set_field k (validateUrl value) c
    | KrestToken => set_field k (validateToken value) c
    | _ => set_field k (validateParam value) c
    end.

(** [urlParams] and [hashParams] are the parsed [window.location.search]
    and [window.location.hash.substring(1)]. *)
Definition extractCredentialsFromUrl (urlParams hashParams : URLSearchParams)
  : BullhornCredentials :=
  fold_left (from_hash hashParams) keys (from_query urlParams).

End WithURL.

End Credentials.

(** ** The relative URL whitelist: [validateRelativeUrl] *)

Module RelativeUrl.
Import JsString.

Definition MAX_URL_LENGTH : nat := 2000.

Definition allowedPrefixes : list string :=
  ["/entity/"; "/query/"; "/search/"; "/meta/"; "/services/"; "/find/"].

Definition validateRelativeUrl (url : string) : bool :=
  if includes url ".." || includes url "//" then false
  else if negb (startsWith url "/") then false
  else if (MAX_URL_LENGTH <? String.length url)%nat then false
  else existsb (startsWith url) allowedPrefixes.

End RelativeUrl.

(** ** The session object *)

Module Bridge.
Import JsString Js.

(** [new Error(message)] *)
Record Error : Type := mkError { message : string }.

(** How an asynchronous call stands: resolved with a value, rejected with
    an error, or not settled. *)
Inductive Completion (A : Type) : Type :=
| Resolved (a : A)
| Rejected (e : Error)
| Pending.
Arguments Resolved {A} a.
Arguments Rejected {A} e.
Arguments Pending {A}.

Record BullhornConfig : Type := mkConfig {
  title : option string;
  color : option string;
  url : option string
}.

(** A function of the application.  The class never looks inside one: a
    call either returns or throws, and functions are compared by
    identity. *)
Record Callback : Type := mkCallback {
  cb_id : nat;
  cb_throws : option Error
}.

Record BullhornBridgeConfig : Type := mkBridgeConfig {
  cfg_debug : option bool;
  cfg_onReady : option Callback;
  cfg_onError : option Callback;
  cfg_allowedOrigins : option (list string)
}.

Inductive EventType : Type := EvReady | EvError | EvCustomEvent | EvUpdate.

Definition event_name (ev : EventType) : string :=
  match ev with
  | EvReady => "ready"
  | EvError => "error"
  | EvCustomEvent => "customEvent"
  | EvUpdate => "update"
  end.

(** The argument a listener or callback is called with. *)
Inductive Arg : Type :=
| ArgNone
| ArgError (e : Error)
| ArgData (v : value).

(** *** The transport (post-robot) *)

Record SendOptions : Type := mkOptions {
  timeout : Z;
  domain : option (list string)
}.

Record Message : Type := mkMessage {
  name : string;
  data : value;
  options : SendOptions
}.

(** [ResponseData<T>] *)
Record ResponseData : Type := mkResponse { response_data : value }.

(** How one [sendToParent] settles: a reply, or a rejection (an error of
    the peer, or the timeout of the call). *)
Definition Outcome : Type := Error + ResponseData.

(** *** The registration promise

    [performRegistration] is an async function: it runs up to an [await],
    and is resumed when the awaited promise settles.  The frames of the
    recursion that are suspended at [await this.performRegistration(config)]
    pass the outcome of the inner call on unchanged (the [await] stands in
    the [catch] block), so the promise held in [registrationPromise] is
    represented by the innermost frame. *)
Inductive Task : Type :=
| AwaitInit (config : option BullhornConfig)
| AwaitReply (config : option BullhornConfig)
| AwaitTimer (config : option BullhornConfig)
| Done (r : Error + unit).

Record BullhornBridge : Type := mkBridge {
  postRobot : bool;
  isRegistered : bool;
  registrationPromise : option Task;
  registrationAttempts : nat;
  credentials : Credentials.BullhornCredentials;
  debug : bool;
  onReadyCallback : option Callback;
  onErrorCallback : option Callback;
  eventListeners : gmap string (list Callback);
  allowedOrigins : list string
}.

Definition maxRegistrationAttempts : nat := 4.
Definition waitTime : nat := 500.

(** [window.parent], whose access can throw. *)
Inductive Parent : Type := SameWindow | OtherWindow | AccessDenied.

Record Window : Type := mkWindow {
  parent : Parent;
  location_href : string;
  location_search : Credentials.URLSearchParams;
  location_hash : Credentials.URLSearchParams;
  import_succeeds : bool
}.

(** The object, the window it lives in, and what it has done so far, oldest
    first: the [sendToParent] calls, the [postRobot.on] subscriptions, the
    [setTimeout] delays, the calls of application functions and the [emit]
    calls. *)
Record World : Type := mkWorld {
  this : BullhornBridge;
  window : Window;
  sent : list Message;
  listening : list (string * list string);
  timers : list nat;
  calls : list (nat * Arg);
  emitted : list (EventType * Arg)
}.

Definition set_this (b : BullhornBridge) (w : World) : World :=
  mkWorld b (window w) (sent w) (listening w) (timers w) (calls w) (emitted w).
Definition add_sent (m : Message) (w : World) : World :=
  mkWorld (this w) (window w) (sent w ++ [m]) (listening w) (timers w) (calls w) (emitted w).
Definition add_listening (n : string) (d : list string) (w : World) : World :=
  mkWorld (this w) (window w) (sent w) (listening w ++ [(n, d)]) (timers w) (calls w)
    (emitted w).
Definition add_timer (ms : nat) (w : World) : World :=
  mkWorld (this w) (window w) (sent w) (listening w) (timers w ++ [ms]) (calls w) (emitted w).
Definition add_call (f : Callback) (a : Arg) (w : World) : World :=
  mkWorld (this w) (window w) (sent w) (listening w) (timers w) (calls w ++ [(cb_id f, a)])
    (emitted w).
Definition add_emitted (ev : EventType) (a : Arg) (w : World) : World :=
  mkWorld (this w) (window w) (sent w) (listening w) (timers w) (calls w)
    (emitted w ++ [(ev, a)]).

Definition set_postRobot (v : bool) (b : BullhornBridge) : BullhornBridge :=
  mkBridge v (isRegistered b) (registrationPromise b) (registrationAttempts b)
    (credentials b) (debug b) (onReadyCallback b) (onErrorCallback b) (eventListeners b)
    (allowedOrigins b).
Definition set_isRegistered (v : bool) (b : BullhornBridge) : BullhornBridge :=
  mkBridge (postRobot b) v (registrationPromise b) (registrationAttempts b)
    (credentials b) (debug b) (onReadyCallback b) (onErrorCallback b) (eventListeners b)
    (allowedOrigins b).
Definition set_registrationPromise (v : option Task) (b : BullhornBridge) : BullhornBridge :=
  mkBridge (postRobot b) (isRegistered b) v (registrationAttempts b)
    (credentials b) (debug b) (onReadyCallback b) (onErrorCallback b) (eventListeners b)
    (allowedOrigins b).
Definition set_registrationAttempts (v : nat) (b : BullhornBridge) : BullhornBridge :=
  mkBridge (postRobot b) (isRegistered b) (registrationPromise b) v
    (credentials b) (debug b) (onReadyCallback b) (onErrorCallback b) (eventListeners b)
    (allowedOrigins b).
Definition set_eventListeners (v : gmap string (list Callback)) (b : BullhornBridge)
  : BullhornBridge :=
  mkBridge (postRobot b) (isRegistered b) (registrationPromise b) (registrationAttempts b)
    (credentials b) (debug b) (onReadyCallback b) (onErrorCallback b) v
    (allowedOrigins b).

(** *** Construction *)

Definition isInIframe (w : Window) : bool :=
  match parent w with
  | OtherWindow => true
  | SameWindow => false
  | AccessDenied => false
  end.

(** The constructor.  [initializePostRobot()] is started and not awaited:
    [postRobot] is still [null] when the constructor returns. *)
Definition constructor (url_protocol : string -> option string)
  (config : option BullhornBridgeConfig) (win : Window) : BullhornBridge :=
  {| postRobot := false;
     isRegistered := false;
     registrationPromise := None;
     registrationAttempts := 0;
     credentials :=
       if isInIframe win
       then Credentials.extractCredentialsFromUrl url_protocol
              (location_search win) (location_hash win)
       else Credentials.no_credentials;
     debug := default false (config ≫= cfg_debug);
     onReadyCallback := config ≫= cfg_onReady;
     onErrorCallback := config ≫= cfg_onError;
     eventListeners := ∅;
     allowedOrigins :=
       match config ≫= cfg_allowedOrigins with
       | Some l => l
       | None => Origin.default_allowedOrigins
       end |}.

Definition new_world (b : BullhornBridge) (win : Window) : World :=
  mkWorld b win [] [] [] [] [].

Definition getCredentials (w : World) : Credentials.BullhornCredentials :=
  credentials (this w).

Definition isReady (w : World) : bool := isRegistered (this w).

(** *** Local listeners: [on], [off], [emit] *)

Definition on (ev : EventType) (callback : Callback) (w : World) : World :=
  let listeners := default [] (eventListeners (this w) !! event_name ev) in
  set_this
    (set_eventListeners (<[event_name ev := listeners ++ [callback]]> (eventListeners (this w)))
       (this w)) w.

(** [listeners.indexOf(callback)] followed by [splice(index, 1)]. *)
Fixpoint remove_first (callback : Callback) (listeners : list Callback) : list Callback :=
  match listeners with
  | [] => []
  | f :: rest =>
      if Nat.eqb (cb_id f) (cb_id callback) then rest
      else f :: remove_first callback rest
  end.

Definition off (ev : EventType) (callback : Callback) (w : World) : World :=
  match eventListeners (this w) !! event_name ev with
  | Some listeners =>
      set_this
        (set_eventListeners
           (<[event_name ev := remove_first callback listeners]> (eventListeners (this w)))
           (this w)) w
  | None => w
  end.

(** Calling an application function: the call is recorded, and its throw,
    if any, is returned. *)
Definition call (f : Callback) (a : Arg) (w : World) : option Error * World :=
  (cb_throws f, add_call f a w).

(** [listeners.forEach(callback => callback(data))]: the first throw ends
    the loop. *)
Fixpoint forEach_call (listeners : list Callback) (a : Arg) (w : World)
  : option Error * World :=
  match listeners with
  | [] => (None, w)
  | f :: rest =>
      match call f a w with
      | (Some e, w') => (Some e, w')
      | (None, w') => forEach_call rest a w'
      end
  end.

Definition emit (ev : EventType) (a : Arg) (w : World) : option Error * World :=
  let w' := add_emitted ev a w in
  match eventListeners (this w') !! event_name ev with
  | Some listeners => forEach_call listeners a w'
  | None => (None, w')
  end.

(** *** Inbound events: [setupEventListeners] *)

Definition setupEventListeners (w : World) : World :=
  if postRobot (this w) then
    add_listening "update" (allowedOrigins (this w))
      (add_listening "customEvent" (allowedOrigins (this w)) w)
  else w.

(** What a handler hands back to post-robot. *)
Inductive Handled : Type :=
| Acknowledged               (* [Promise.resolve({ received: true })] *)
| Refused (e : Error)        (* [Promise.reject(new Error(...))] *)
| Threw (e : Error).         (* a listener threw inside [emit] *)

(** The handler given to [postRobot.on] for [customEvent] and [update];
    [None] when an origin pattern is outside of the RegExp fragment. *)
Definition handle_inbound (ev : EventType) (origin : string) (payload : value) (w : World)
  : option (Handled * World) :=
  match Origin.isAllowedOrigin (allowedOrigins (this w)) origin with
  | None => None
  | Some false => Some (Refused (mkError "Unauthorized origin"), w)
  | Some true =>
      let sanitizedData := Sanitize.sanitizeEventData payload in
      match emit ev (ArgData sanitizedData) w with
      | (Some e, w') => Some (Threw e, w')
      | (None, w') => Some (Acknowledged, w')
      end
  end.

(** *** Registration: [performRegistration] *)

Definition registrationConfig (config : option BullhornConfig) (w : World) : value :=
  VObj [("title", VStr (or_default (config ≫= title) "Custom Integration"));
        ("url", VStr (or_default (config ≫= url) (location_href (window w))));
        ("color", VStr (or_default (config ≫= color) "#0070c0"))].

Definition register_message (config : option BullhornConfig) (w : World) : Message :=
  {| name := "register";
     data := registrationConfig config w;
     options := {| timeout := 5000; domain := None |} |}.

(** From the entry of the [try] block to its [await]. *)
Definition performRegistration_send (config : option BullhornConfig) (w : World)
  : Task * World :=
  (AwaitReply config, add_sent (register_message config w) w).

(** A call of [performRegistration], up to its first [await]. *)
Definition performRegistration (config : option BullhornConfig) (w : World)
  : Task * World :=
  if postRobot (this w) then performRegistration_send config w
  else (AwaitInit config, w).

(** [initializePostRobot] resumed from [await import('post-robot')]: the
    module is stored, or the call fails. *)
Definition initializePostRobot_done (w : World) : World :=
  if import_succeeds (window w) then set_this (set_postRobot true (this w)) w else w.

(** Resumed from [await this.initializePostRobot()]: the dynamic import
    has settled. *)
Definition performRegistration_init (config : option BullhornConfig) (w : World)
  : Task * World :=
  if import_succeeds (window w)
  then performRegistration_send config (initializePostRobot_done w)
  else (Done (inl (mkError "Failed to initialize communication library")), w).

(** The [catch] block. *)
Definition registration_failed (config : option BullhornConfig) (w : World)
  : Task * World :=
  if (registrationAttempts (this w) <? maxRegistrationAttempts)%nat then
    (AwaitTimer config,
     add_timer waitTime
       (set_this (set_registrationAttempts (S (registrationAttempts (this w))) (this w)) w))
  else
    let err := mkError "Failed to register with Bullhorn after maximum attempts" in
    let thrown :=
      match onErrorCallback (this w) with
      | Some f => call f (ArgError err) w
      | None => (None, w)
      end in
    match thrown with
    | (Some e, w1) => (Done (inl e), w1)
    | (None, w1) =>
        match emit EvError (ArgError err) w1 with
        | (Some e, w2) => (Done (inl e), w2)
        | (None, w2) => (Done (inl err), w2)
        end
    end.

(** The [try] block after its [await]. *)
Definition registration_succeeded (config : option BullhornConfig) (w : World)
  : Task * World :=
  let w1 := setupEventListeners (set_this (set_isRegistered true (this w)) w) in
  let thrown :=
    match onReadyCallback (this w1) with
    | Some f => call f ArgNone w1
    | None => (None, w1)
    end in
  match thrown with
  | (Some _, w2) => registration_failed config w2
  | (None, w2) =>
      match emit EvReady ArgNone w2 with
      | (Some _, w3) => registration_failed config w3
      | (None, w3) => (Done (inr tt), w3)
      end
  end.

(** Resumed from [await this.postRobot.sendToParent('register', ...)]. *)
Definition performRegistration_reply (config : option BullhornConfig) (o : Outcome)
  (w : World) : Task * World :=
  match o with
  | inr _ => registration_succeeded config w
  | inl _ => registration_failed config w
  end.

(** *** The event loop

    Callers of [register] are numbered.  A caller suspended at [await
    this.registrationPromise] is in [waiters]; what a caller got back is
    in [observed]. *)
Record Loop : Type := mkLoop {
  world : World;
  waiters : list nat;
  observed : list (nat * Completion bool)
}.

Inductive Event : Type :=
| Call (caller : nat) (config : option BullhornConfig)   (* [register(config)] is called *)
| ModuleLoaded                      (* the import started by the constructor settles *)
| ImportDone                        (* the import awaited by [performRegistration] settles *)
| Reply (o : Outcome)               (* the pending [sendToParent] settles *)
| TimerFired.                       (* the [setTimeout] callback runs *)

(** [await this.registrationPromise; return this.isRegistered;] once the
    promise has settled with [r]. *)
Definition resume (r : Error + unit) (w : World) : Completion bool :=
  match r with
  | inr _ => Resolved (isRegistered (this w))
  | inl e => Rejected e
  end.

Definition observe (caller : nat) (c : Completion bool) (l : Loop) : Loop :=
  mkLoop (world l) (waiters l) (observed l ++ [(caller, c)]).

Definition wait (caller : nat) (l : Loop) : Loop :=
  mkLoop (world l) (waiters l ++ [caller]) (observed l).

(** The registration promise moves to [t]; when it settles, the waiting
    callers are resumed in the order in which they started to wait. *)
Definition advance (tw : Task * World) (l : Loop) : Loop :=
  let w' := set_this (set_registrationPromise (Some tw.1) (this tw.2)) tw.2 in
  match tw.1 with
  | Done r =>
      mkLoop w' [] (observed l ++ map (fun c => (c, resume r w')) (waiters l))
  | _ => mkLoop w' (waiters l) (observed l)
  end.

(** One turn of the loop; [None] when the event cannot happen in [l]. *)
Definition step (e : Event) (l : Loop) : option Loop :=
  let w := world l in
  match e with
  | Call c config =>
      if negb (isInIframe (window w)) then Some (observe c (Resolved false) l)
      else if isRegistered (this w) then Some (observe c (Resolved true) l)
      else
        match registrationPromise (this w) with
        | Some (Done r) => Some (observe c (resume r w) l)
        | Some _ => Some (wait c l)
        | None => Some (advance (performRegistration config w) (wait c l))
        end
  | ModuleLoaded =>
      Some (mkLoop (initializePostRobot_done w) (waiters l) (observed l))
  | ImportDone =>
      match registrationPromise (this w) with
      | Some (AwaitInit config) => Some (advance (performRegistration_init config w) l)
      | _ => None
      end
  | Reply o =>
      match registrationPromise (this w) with
      | Some (AwaitReply config) => Some (advance (performRegistration_reply config o w) l)
      | _ => None
      end
  | TimerFired =>
      match registrationPromise (this w) with
      | Some (AwaitTimer config) => Some (advance (performRegistration config w) l)
      | _ => None
      end
  end.

Fixpoint exec (evs : list Event) (l : Loop) : option Loop :=
  match evs with
  | [] => Some l
  | e :: rest =>
      match step e l with
      | Some l' => exec rest l'
      | None => None
      end
  end.

Definition is_call (e : Event) : bool :=
  match e with
  | Call _ _ => true
  | _ => false
  end.

(** *** One call at a time

    The transport is an oracle: [transport k] is how the [k]-th
    [sendToParent] of the session settles.  While a call is awaited
    nothing else is started. *)
Definition Transport : Type := nat -> Outcome.

(** The event the registration promise is waiting for. *)
Definition next_event (transport : Transport) (w : World) : option Event :=
  match registrationPromise (this w) with
  | Some (AwaitInit _) => Some ImportDone
  | Some (AwaitReply _) => Some (Reply (transport (length (sent w) - 1)%nat))
  | Some (AwaitTimer _) => Some TimerFired
  | _ => None
  end.

Fixpoint run (fuel : nat) (transport : Transport) (l : Loop) : Loop :=
  match fuel with
  | O => l
  | S fuel' =>
      match next_event transport (world l) with
      | Some e =>
          match step e l with
          | Some l' => run fuel' transport l'
          | None => l
          end
      | None => l
      end
  end.

(** Enough turns for any registration to settle: each attempt takes a
    reply and a timer, after at most one import. *)
Definition registration_fuel : nat := 2 * maxRegistrationAttempts + 3.

Fixpoint outcome_of (caller : nat) (obs : list (nat * Completion bool)) : Completion bool :=
  match obs with
  | [] => Pending
  | (c, r) :: rest => if Nat.eqb c caller then r else outcome_of caller rest
  end.

(** [await bridge.register(config)] *)
Definition register (transport : Transport) (config : option BullhornConfig) (w : World)
  : Completion bool * World :=
  match step (Call 0 config) (mkLoop w [] []) with
  | Some l =>
      match outcome_of 0 (observed l) with
      | Pending =>
          let l' := run registration_fuel transport l in
          (outcome_of 0 (observed l'), world l')
      | settled => (settled, world l)
      end
  | None => (Pending, w)
  end.

(** [await this.ensureRegistered()] *)
Definition ensureRegistered (transport : Transport) (w : World) : Completion unit * World :=
  if negb (isInIframe (window w)) then (Rejected (mkError "Not running in an iframe"), w)
  else
    let registered :=
      if negb (isRegistered (this w)) then register transport None w
      else (Resolved true, w) in
    match registered with
    | (Resolved _, w') =>
        if negb (isRegistered (this w'))
        then (Rejected (mkError "Failed to register with Bullhorn"), w')
        else (Resolved tt, w')
    | (Rejected e, w') => (Rejected e, w')
    | (Pending, w') => (Pending, w')
    end.

(** *** The request gateway *)

(** [await this.postRobot.sendToParent(name, payload, opts)] inside a
    [try]: the message goes out, and the oracle settles it. *)
Definition sendToParent (transport : Transport) (m : Message) (w : World)
  : Outcome * World :=
  (transport (length (sent w)), add_sent m w).

Definition http_options (w : World) : SendOptions :=
  {| timeout := 10000; domain := Some (allowedOrigins (this w)) |}.

Definition MAX_PAYLOAD : nat := 1024 * 1024.

Definition httpGET (transport : Transport) (relativeURL : string) (w : World)
  : Completion value * World :=
  match ensureRegistered transport w with
  | (Resolved _, w1) =>
      if negb (RelativeUrl.validateRelativeUrl relativeURL)
      then (Rejected (mkError "Invalid or unauthorized URL"), w1)
      else if negb (postRobot (this w1))
      then (Rejected (mkError "Communication library not initialized"), w1)
      else
        match sendToParent transport
                (mkMessage "httpGET" (VObj [("relativeURL", VStr relativeURL)])
                   (http_options w1)) w1 with
        | (inr response, w2) => (Resolved (response_data response), w2)
        | (inl _, w2) => (Rejected (mkError "Failed to complete GET request"), w2)
        end
  | (Rejected e, w1) => (Rejected e, w1)
  | (Pending, w1) => (Pending, w1)
  end.

(** [JSON_stringify] is the platform's [JSON.stringify]; it gives
    [undefined] ([None]) for some values, and [dataStr.length] then throws
    a [TypeError]. *)
Definition payload_check (JSON_stringify : value -> option string) (body : value)
  : option Error :=
  match JSON_stringify body with
  | None => Some (mkError "Cannot read properties of undefined")
  | Some dataStr =>
      if (MAX_PAYLOAD <? String.length dataStr)%nat
      then Some (mkError "Payload too large")
      else None
  end.

Definition httpPOST (transport : Transport) (JSON_stringify : value -> option string)
  (relativeURL : string) (body : value) (w : World) : Completion value * World :=
  match ensureRegistered transport w with
  | (Resolved _, w1) =>
      if negb (RelativeUrl.validateRelativeUrl relativeURL)
      then (Rejected (mkError "Invalid or unauthorized URL"), w1)
      else
        match payload_check JSON_stringify body with
        | Some e => (Rejected e, w1)
        | None =>
            if negb (postRobot (this w1))
            then (Rejected (mkError "Communication library not initialized"), w1)
            else
              match sendToParent transport
                      (mkMessage "httpPOST"
                         (VObj [("relativeURL", VStr relativeURL); ("data", body)])
                         (http_options w1)) w1 with
              | (inr response, w2) => (Resolved (response_data response), w2)
              | (inl _, w2) => (Rejected (mkError "Failed to complete POST request"), w2)
              end
        end
  | (Rejected e, w1) => (Rejected e, w1)
  | (Pending, w1) => (Pending, w1)
  end.

Definition httpPUT (transport : Transport) (JSON_stringify : value -> option string)
  (relativeURL : string) (body : value) (w : World) : Completion value * World :=
  match ensureRegistered transport w with
  | (Resolved _, w1) =>
      if negb (RelativeUrl.validateRelativeUrl relativeURL)
      then (Rejected (mkError "Invalid or unauthorized URL"), w1)
      else
        match payload_check JSON_stringify body with
        | Some e => (Rejected e, w1)
        | None =>
            if negb (postRobot (this w1))
            then (Rejected (mkError "Communication library not initialized"), w1)
            else
              match sendToParent transport
                      (mkMessage "httpPUT"
                         (VObj [("relativeURL", VStr relativeURL); ("data", body)])
                         (http_options w1)) w1 with
              | (inr response, w2) => (Resolved (response_data response), w2)
              | (inl _, w2) => (Rejected (mkError "Failed to complete PUT request"), w2)
              end
        end
  | (Rejected e, w1) => (Rejected e, w1)
  | (Pending, w1) => (Pending, w1)
  end.

Definition httpDELETE (transport : Transport) (relativeURL : string) (w : World)
  : Completion value * World :=
  match ensureRegistered transport w with
  | (Resolved _, w1) =>
      if negb (RelativeUrl.validateRelativeUrl relativeURL)
      then (Rejected (mkError "Invalid or unauthorized URL"), w1)
      else if negb (postRobot (this w1))
      then (Rejected (mkError "Communication library not initialized"), w1)
      else
        match sendToParent transport
                (mkMessage "httpDELETE" (VObj [("relativeURL", VStr relativeURL)])
                   (http_options w1)) w1 with
        | (inr response, w2) => (Resolved (response_data response), w2)
        | (inl _, w2) => (Rejected (mkError "Failed to complete DELETE request"), w2)
        end
  | (Rejected e, w1) => (Rejected e, w1)
  | (Pending, w1) => (Pending, w1)
  end.

(** The UI commands hand the transport error on as it is. *)
Definition ui_command (transport : Transport) (command : string) (params : value)
  (ms : Z) (w : World) : Completion value * World :=
  match ensureRegistered transport w with
  | (Resolved _, w1) =>
      if negb (postRobot (this w1))
      then (Rejected (mkError "Communication library not initialized"), w1)
      else
        match sendToParent transport
                (mkMessage command params {| timeout := ms; domain := None |}) w1 with
        | (inr response, w2) => (Resolved (response_data response), w2)
        | (inl e, w2) => (Rejected e, w2)
        end
  | (Rejected e, w1) => (Rejected e, w1)
  | (Pending, w1) => (Pending, w1)
  end.

Definition open (transport : Transport) (params : value) : World -> Completion value * World :=
  ui_command transport "open" params 10000.

Definition openList (transport : Transport) (params : value)
  : World -> Completion value * World :=
  ui_command transport "openList" params 10000.

Definition refresh (transport : Transport) : World -> Completion value * World :=
  ui_command transport "refresh" (VObj []) 5000.

(** The four calls that carry a relative URL. *)
Inductive Verb : Type := GET | POST | PUT | DELETE.

Definition verb_name (v : Verb) : string :=
  match v with
  | GET => "httpGET"
  | POST => "httpPOST"
  | PUT => "httpPUT"
  | DELETE => "httpDELETE"
  end.

Definition http (transport : Transport) (JSON_stringify : value -> option string)
  (v : Verb) (relativeURL : string) (body : value) (w : World)
  : Completion value * World :=
  match v with
  | GET => httpGET transport relativeURL w
  | POST => httpPOST transport JSON_stringify relativeURL body w
  | PUT => httpPUT transport JSON_stringify relativeURL body w
  | DELETE => httpDELETE transport relativeURL w
  end.


End Bridge.

(** ** The default instance: [getBullhornBridge] *)

Module Singleton.
Import Bridge.

(** The module state of index.ts: the objects created so far, an object
    reference being its position in [objects], and [defaultInstance]. *)
Record Store : Type := mkStore {
  objects : list BullhornBridge;
  defaultInstance : option nat
}.

(** The state of a freshly loaded module. *)
Definition loaded : Store := mkStore [] None.

(** [new BullhornBridge(config)] *)
Definition new_BullhornBridge (url_protocol : string -> option string) (win : Window)
  (config : option BullhornBridgeConfig) (st : Store) : nat * Store :=
  (length (objects st),
   mkStore (objects st ++ [constructor url_protocol config win]) (defaultInstance st)).

Definition getBullhornBridge (url_protocol : string -> option string) (win : Window)
  (config : option BullhornBridgeConfig) (st : Store) : nat * Store :=
  match defaultInstance st with
  | Some ref => (ref, st)
  | None =>
      let created := new_BullhornBridge url_protocol win config st in
      (created.1, mkStore (objects created.2) (Some created.1))
  end.

(** A series of calls, one per configuration; the references they return
    and the store they leave. *)
Fixpoint getBullhornBridge_each (url_protocol : string -> option string) (win : Window)
  (configs : list (option BullhornBridgeConfig)) (st : Store) : list nat * Store :=
  match configs with
  | [] => ([], st)
  | config :: rest =>
      let got := getBullhornBridge url_protocol win config st in
      let others := getBullhornBridge_each url_protocol win rest got.2 in
      (got.1 :: others.1, others.2)
  end.

End Singleton.

(** ** The helper methods *)

Module Helpers.
Import JsString Js Bridge.

(** [fields.join(',')] *)
Fixpoint join (sep : string) (xs : list string) : string :=
  match xs with
  | [] => EmptyString
  | [x] => x
  | x :: rest => String.append x (String.append sep (join sep rest))
  end.

(** [response.data] on the value that a verb resolved to: the property
    read throws a TypeError on [undefined] and on [null], and gives
    [undefined] on a value that has no such property. *)
Definition data_of (response : value) : Error + value :=
  match response with
  | VUndefined => inl (mkError "Cannot read properties of undefined")
  | VNull => inl (mkError "Cannot read properties of null")
  | VObj fields => inr (get_field fields "data")
  | _ => inr VUndefined
  end.

(** [const response = await this.httpX(...); return response.data;] *)
Definition return_data (r : Completion value * World) : Completion value * World :=
  match r with
  | (Resolved response, w) =>
      match data_of response with
      | inr v => (Resolved v, w)
      | inl e => (Rejected e, w)
      end
  | other => other
  end.

Section WithPlatform.
(** The text of a number in a template literal, and the platform's
    [encodeURIComponent] and [JSON.stringify]. *)
Variable number_text : Z -> string.
Variable encodeURIComponent : string -> string.
Variable JSON_stringify : value -> option string.
Variable transport : Transport.

Definition getCandidate (id : Z) (fields : option (list string)) (w : World)
  : Completion value * World :=
  let fields := default ["id"; "firstName"; "lastName"; "email"] fields in
  let fieldsParam := join "," fields in
  return_data
    (httpGET transport
       (String.append "/entity/Candidate/"
          (String.append (number_text id) (String.append "?fields=" fieldsParam))) w).

Definition searchCandidates (query : string) (fields : option (list string)) (w : World)
  : Completion value * World :=
  let fields := default ["id"; "firstName"; "lastName"] fields in
  let fieldsParam := join "," fields in
  return_data
    (httpGET transport
       (String.append "/search/Candidate?query="
          (String.append (encodeURIComponent query) (String.append "&fields=" fieldsParam)))
       w).

Definition getJobOrders (fields : option (list string)) (w : World)
  : Completion value * World :=
  let fields := default ["id"; "title"; "status"] fields in
  let fieldsParam := join "," fields in
  return_data (httpGET transport (String.append "/query/JobOrder?fields=" fieldsParam) w).

Definition updateCandidate (id : Z) (data : value) (w : World)
  : Completion value * World :=
  return_data
    (httpPOST transport JSON_stringify
       (String.append "/entity/Candidate/" (number_text id)) data w).

Definition createNote (entityType : string) (entityId : Z) (comments : string)
  (action : option string) (w : World) : Completion value * World :=
  return_data
    (httpPUT transport JSON_stringify "/entity/Note"
       (VObj [("personReference", VObj [("id", VNum entityId)]);
              ("comments", VStr comments);
              ("action", VStr (or_default action "General"))]) w).

End WithPlatform.

End Helpers.

(** ** Vocabulary of the statements *)

Module Facts.
Import JsString Bridge.

(** [w'] differs from [w] in the recorded calls of application functions
    and [emit] calls at most. *)
Definition quiet (w w' : World) : Prop :=
  this w' = this w /\ window w' = window w /\ sent w' = sent w /\
  listening w' = listening w /\ timers w' = timers w.

(** The messages of [w'] are those of [w] followed by [register] messages
    only. *)
Definition only_registers (w w' : World) : Prop :=
  exists extra, sent w' = sent w ++ extra /\ Forall (fun m => name m = "register") extra.

(** What every turn of registration keeps. *)
Record evolves (w w' : World) : Prop := mkEvolves {
  ev_window : window w' = window w;
  ev_sent : only_registers w w';
  ev_postRobot : postRobot (this w) = true -> postRobot (this w') = true;
  ev_isRegistered : isRegistered (this w) = true -> isRegistered (this w') = true;
  ev_attempts : (registrationAttempts (this w) <= registrationAttempts (this w'))%nat;
  ev_onReady : onReadyCallback (this w') = onReadyCallback (this w);
  ev_onError : onErrorCallback (this w') = onErrorCallback (this w);
  ev_listeners : eventListeners (this w') = eventListeners (this w);
  ev_origins : allowedOrigins (this w') = allowedOrigins (this w)
}.

(** The registration promise is neither absent nor settled. *)
Definition pending (w : World) : bool :=
  match registrationPromise (this w) with
  | Some (Done _) => false
  | Some _ => true
  | None => false
  end.

(** The world once the registration promise has moved to [tw.1]. *)
Definition settle (tw : Task * World) : World :=
  set_this (set_registrationPromise (Some tw.1) (this tw.2)) tw.2.

(** A bound on the turns the registration promise still needs: two for
    each attempt that is left, and one more while the library is not
    loaded. *)
Definition budget (w : World) : nat :=
  (2 * (maxRegistrationAttempts - registrationAttempts (this w)))%nat.

Definition load (w : World) : nat := if postRobot (this w) then 0%nat else 1%nat.

Definition turns_left (w : World) : nat :=
  match registrationPromise (this w) with
  | Some (AwaitReply _) => (1 + budget w + load w)%nat
  | Some (AwaitTimer _) => (2 + budget w + load w)%nat
  | Some (AwaitInit _) => (2 + budget w)%nat
  | _ => 0%nat
  end.

(** What a turn other than a call does to the callers: nothing while the
    promise is pending, and all of them get the one outcome when it
    settles. *)
Definition delivered (l l' : Loop) : Prop :=
  (pending (world l') = true /\ waiters l' = waiters l /\ observed l' = observed l) \/
  (exists r, registrationPromise (this (world l')) = Some (Done r) /\
             waiters l' = [] /\
             observed l' =
             observed l ++ map (fun c => (c, resume r (world l'))) (waiters l)).



(** The callers of the [register] calls among [evs], in order. *)
Fixpoint callers_of (evs : list Event) : list nat :=
  match evs with
  | [] => []
  | Call c _ :: rest => c :: callers_of rest
  | _ :: rest => callers_of rest
  end.

(** The application functions that a registration can call return. *)
Definition returns (f : Callback) : Prop := cb_throws f = None.

Definition listeners_of (ev : EventType) (w : World) : list Callback :=
  default [] (eventListeners (this w) !! event_name ev).

(** The ready callback and the [ready] listeners return. *)
Definition ready_returns (w : World) : Prop :=
  (forall f, onReadyCallback (this w) = Some f -> returns f) /\
  Forall returns (listeners_of EvReady w).


(** The calls made when [a] is handed to [fs] in turn. *)
Definition calls_of (fs : list Callback) (a : Arg) : list (nat * Arg) :=
  map (fun f => (cb_id f, a)) fs.

Definition option_list {A : Type} (o : option A) : list A :=
  match o with
  | Some a => [a]
  | None => []
  end.

Definition max_attempts_error : Error :=
  mkError "Failed to register with Bullhorn after maximum attempts".



(** What holds of every session that was built by the constructor: a
    registered session, and one whose handshake is under way, is in a frame
    and has the library loaded. *)
Definition sound (w : World) : Prop :=
  (isRegistered (this w) = true ->
   postRobot (this w) = true /\ isInIframe (window w) = true) /\
  (forall t, registrationPromise (this w) = Some t -> isInIframe (window w) = true) /\
  (forall config,
      registrationPromise (this w) = Some (AwaitReply config) \/
      registrationPromise (this w) = Some (AwaitTimer config) ->
      postRobot (this w) = true).

(** Sample worlds: a page with the library loaded, inside a frame of the
    host or on its own. *)
Definition sample_window (p : Parent) : Window :=
  mkWindow p "https://apps.example.com/tab" [] [] true.

Definition sample_world (p : Parent) : World :=
  initializePostRobot_done
    (new_world (constructor (fun _ => None) None (sample_window p)) (sample_window p)).

(** A page in a frame of the host, configured with a ready callback (1)
    and an error callback (2), freshly constructed and with the library
    loaded. *)
Definition sample_config : BullhornBridgeConfig :=
  mkBridgeConfig None (Some (mkCallback 1 None)) (Some (mkCallback 2 None)) None.

Definition sample_constructed : World :=
  new_world (constructor (fun _ => None) (Some sample_config) (sample_window OtherWindow))
    (sample_window OtherWindow).

Definition sample_session : World := initializePostRobot_done sample_constructed.

(** The sample session after a registration that the host accepted. *)
Definition sample_ready : World :=
  (register (fun _ => inr (mkResponse Js.VNull)) None sample_session).2.

(** Transports: one that lets every message time out, one that rejects the
    first three messages, one that accepts every message. *)
Definition always_timeout : Transport := fun _ => inl (mkError "timeout").


Definition always_reply : Transport := fun _ => inr (mkResponse (Js.VStr "ok")).

(** The loop reached by [evs] from [l], or [l] when [evs] cannot happen. *)
Definition after (evs : list Event) (l : Loop) : Loop := default l (exec evs l).

(** The origin has no line terminator, and every pattern with a [*] stays
    inside the RegExp fragment once its stars are replaced. *)
Definition plain_origin (origin : string) : Prop :=
  all_chars (fun c => negb (Origin.line_terminator c)) origin = true.

Definition plain_patterns (allowedOrigins : list string) : Prop :=
  Forall (fun allowed =>
            includes allowed "*" = true ->
            exists r, Origin.parse (Origin.replace_star allowed) = Some r)
         allowedOrigins.

Definition http_message (command relativeURL : string) (w : World) : Message :=
  mkMessage command (Js.VObj [("relativeURL", Js.VStr relativeURL)])
    {| timeout := 10000; domain := Some (allowedOrigins (this w)) |}.

End Facts.

(** ** Vocabulary of the further statements *)

Module Notions.
Import JsString Js.


(** What [validateParam] lets through. *)
Definition param_ok (s : string) : Prop :=
  (String.length s <= Credentials.MAX_PARAM_LENGTH)%nat /\
  all_chars (fun c => negb (Credentials.dangerous_char c)) s = true.

(** What [validateToken] lets through. *)
Definition token_ok (s : string) : Prop :=
  (0 < String.length s <= Credentials.MAX_PARAM_LENGTH)%nat /\
  all_chars Credentials.token_char s = true.

(** What [validateUrl] lets through. *)
Definition url_ok (url_protocol : string -> option string) (s : string) : Prop :=
  s <> EmptyString /\ url_protocol s = Some "https:".

Definition field_ok (url_protocol : string -> option string) (k : Credentials.key)
  (s : string) : Prop :=
  match k with
  | Credentials.KrestUrl => url_ok url_protocol s
  | Credentials.KrestToken => token_ok s
  | _ => param_ok s
  end.

(** Every field of [c] that is set has passed the validator of its kind. *)
Definition validated (url_protocol : string -> option string)
  (c : Credentials.BullhornCredentials) : Prop :=
  forall k s, Credentials.field k c = Some s -> field_ok url_protocol k s.


(** The handshakes that a session can still send: one for each attempt
    that is left, and one more when the next one has not gone out yet. *)
Definition sends_left (w : Bridge.World) : nat :=
  let left := (Bridge.maxRegistrationAttempts -
               Bridge.registrationAttempts (Bridge.this w))%nat in
  match Bridge.registrationPromise (Bridge.this w) with
  | Some (Bridge.AwaitReply _) => left
  | Some (Bridge.Done _) => 0%nat
  | _ => S left
  end.

(** What a verb puts into its message, and the error it throws when the
    transport fails. *)
Definition verb_payload (v : Bridge.Verb) (relativeURL : string) (body : value) : value :=
  match v with
  | Bridge.GET | Bridge.DELETE => VObj [("relativeURL", VStr relativeURL)]
  | Bridge.POST | Bridge.PUT => VObj [("relativeURL", VStr relativeURL); ("data", body)]
  end.

Definition verb_message (v : Bridge.Verb) (relativeURL : string) (body : value)
  (w : Bridge.World) : Bridge.Message :=
  Bridge.mkMessage (Bridge.verb_name v) (verb_payload v relativeURL body)
    (Bridge.http_options w).

Definition verb_failure (v : Bridge.Verb) : Bridge.Error :=
  Bridge.mkError
    match v with
    | Bridge.GET => "Failed to complete GET request"
    | Bridge.POST => "Failed to complete POST request"
    | Bridge.PUT => "Failed to complete PUT request"
    | Bridge.DELETE => "Failed to complete DELETE request"
    end.

(** What holds of every loop that starts from a new session: a
    registration promise that has resolved has left the session registered,
    and a caller in a frame for whom [register] resolved was told true, of a
    session that is registered. *)
Definition consistent (l : Bridge.Loop) : Prop :=
  (forall u, Bridge.registrationPromise (Bridge.this (Bridge.world l)) =
               Some (Bridge.Done (inr u)) ->
             Bridge.isRegistered (Bridge.this (Bridge.world l)) = true) /\
  (Bridge.isInIframe (Bridge.window (Bridge.world l)) = true ->
   Forall (fun cr => forall b, cr.2 = Bridge.Resolved b ->
                     b = true /\ Bridge.isRegistered (Bridge.this (Bridge.world l)) = true)
          (Bridge.observed l)).

(** The calls of the helper methods, and the request that each of them
    makes: its verb, its relative URL and its body. *)
Inductive HelperCall : Type :=
| GetCandidate (id : Z) (fields : option (list string))
| SearchCandidates (query : string) (fields : option (list string))
| GetJobOrders (fields : option (list string))
| UpdateCandidate (id : Z) (data : value)
| CreateNote (entityType : string) (entityId : Z) (comments : string)
    (action : option string).

Section WithPlatform.
Variable number_text : Z -> string.
Variable encodeURIComponent : string -> string.
Variable JSON_stringify : value -> option string.
Variable transport : Bridge.Transport.

Definition helper (c : HelperCall) : Bridge.World -> Bridge.Completion value * Bridge.World :=
  match c with
  | GetCandidate id fields => Helpers.getCandidate number_text transport id fields
  | SearchCandidates query fields =>
      Helpers.searchCandidates encodeURIComponent transport query fields
  | GetJobOrders fields => Helpers.getJobOrders transport fields
  | UpdateCandidate id data =>
      Helpers.updateCandidate number_text JSON_stringify transport id data
  | CreateNote entityType entityId comments action =>
      Helpers.createNote JSON_stringify transport entityType entityId comments action
  end.

Definition helper_verb (c : HelperCall) : Bridge.Verb :=
  match c with
  | UpdateCandidate _ _ => Bridge.POST
  | CreateNote _ _ _ _ => Bridge.PUT
  | _ => Bridge.GET
  end.

Definition fields_or (fields : option (list string)) (d : list string) : string :=
  Helpers.join "," (default d fields).

Definition helper_url (c : HelperCall) : string :=
  match c with
  | GetCandidate id fields =>
      String.append "/entity/Candidate/"
        (String.append (number_text id)
           (String.append "?fields="
              (fields_or fields ["id"; "firstName"; "lastName"; "email"])))
  | SearchCandidates query fields =>
      String.append "/search/Candidate?query="
        (String.append (encodeURIComponent query)
           (String.append "&fields=" (fields_or fields ["id"; "firstName"; "lastName"])))
  | GetJobOrders fields =>
      String.append "/query/JobOrder?fields=" (fields_or fields ["id"; "title"; "status"])
  | UpdateCandidate id _ => String.append "/entity/Candidate/" (number_text id)
  | CreateNote _ _ _ _ => "/entity/Note"
  end.

Definition helper_body (c : HelperCall) : value :=
  match c with
  | UpdateCandidate _ data => data
  | CreateNote _ entityId comments action =>
      VObj [("personReference", VObj [("id", VNum entityId)]);
            ("comments", VStr comments);
            ("action", VStr (or_default action "General"))]
  | _ => VUndefined
  end.

End WithPlatform.

(** Sample data: a page whose address carries credentials, a page whose
    import of the library fails, a session whose ready callback throws, a
    session with two listeners for [customEvent], the second of which
    throws, and a long body. *)
Definition sample_page : Bridge.Window :=
  Bridge.mkWindow Bridge.OtherWindow "https://apps.example.com/tab"
    [("corporationId", "123"); ("restUrl", "https://rest.example.com/")]
    [("userid", "7")] true.

Definition sample_offline : Bridge.World :=
  let win :=
    Bridge.mkWindow Bridge.OtherWindow "https://apps.example.com/tab" [] [] false in
  Bridge.new_world (Bridge.constructor (fun _ => None) None win) win.


Definition sample_listening : Bridge.World :=
  Bridge.on Bridge.EvCustomEvent (Bridge.mkCallback 5 None) Facts.sample_session.

Definition sample_listening_thrower : Bridge.World :=
  Bridge.on Bridge.EvCustomEvent (Bridge.mkCallback 9 (Some (Bridge.mkError "boom")))
    sample_listening.

Definition sample_long_body : value -> option string :=
  fun _ => Some (JsString.repeat "x" (1024 * 1024 + 1)).

Definition sample_events : list Bridge.Event :=
  [Bridge.ModuleLoaded; Bridge.Call 0 None;
   Bridge.Reply (inl (Bridge.mkError "timeout")); Bridge.TimerFired;
   Bridge.Reply (inr (Bridge.mkResponse VNull)); Bridge.Call 1 None].

(** The verbs that carry a body. *)
Definition has_body (v : Bridge.Verb) : bool :=
  match v with
  | Bridge.POST | Bridge.PUT => true
  | _ => false
  end.

End Notions.

(** * Properties *)

Example origin_test_wildcard :
Origin.isAllowedOrigin ["https://*.bullhorn.com"; "https://test.example.com"]
  "https://app.bullhorn.com" = Some true.
Proof. reflexivity. Qed.

Example origin_test_exact :
Origin.isAllowedOrigin ["https://*.bullhorn.com"; "https://test.example.com"]
  "https://test.example.com" = Some true.
Proof. reflexivity. Qed.

Example origin_test_reject :
Origin.isAllowedOrigin ["https://*.bullhorn.com"; "https://test.example.com"]
  "https://evil.com" = Some false.
Proof. reflexivity. Qed.

Example sanitize_test_nested :
Sanitize.sanitizeEventData
  (Js.VObj [("a", Js.VStr "<b>x</b>"); ("n", Js.VNum 3); ("l", Js.VArr [Js.VStr "'q'"; Js.VNull])])
= Js.VObj [("a", Js.VStr "bx/b"); ("n", Js.VNum 3);
           ("l", Js.VObj [("0", Js.VStr "q"); ("1", Js.VNull)])].
Proof. reflexivity. Qed.

Example relurl_tests :
RelativeUrl.validateRelativeUrl "/entity/Candidate/123" = true /\
RelativeUrl.validateRelativeUrl "../../../etc/passwd" = false /\
RelativeUrl.validateRelativeUrl "http://evil.com/api" = false /\
RelativeUrl.validateRelativeUrl "/unauthorized/endpoint" = false.
Proof. repeat split; reflexivity. Qed.

(** ** Origin validation *)

Section OriginProperties.
Import Origin.

Example replace_star_default :
  map replace_star default_allowedOrigins =
  ["https://.*.bullhornstaffing.com"; "https://.*.bullhorn.com"].
Proof. reflexivity. Qed.

(** C2.  With the default patterns [isAllowedOrigin] accepts the origin
    [https://evilbullhorn.com]: the [.] of the pattern [https://*.bullhorn.com]
    reaches the RegExp unescaped and matches the letter [l].  Read with [*]
    for any substring and every other character for itself, no pattern
    matches this origin. *)
Theorem isAllowedOrigin_dot_not_literal :
  isAllowedOrigin default_allowedOrigins "https://evilbullhorn.com" = Some true /\
  spec_isAllowedOrigin default_allowedOrigins "https://evilbullhorn.com" = false.
Proof. split; vm_compute; reflexivity. Qed.

Lemma matches_star (a : atom) (r : list item) (s : string) :
  matches (IStar a :: r) s =
  matches r s ||
  match s with
  | String c rest => atom_matches a c && matches (IStar a :: r) rest
  | EmptyString => false
  end.
Proof. destruct s; reflexivity. Qed.

Lemma spec_wildcard_star (p s : string) :
  spec_wildcard (String "*" p) s =
  spec_wildcard p s ||
  match s with
  | String _ rest => spec_wildcard (String "*" p) rest
  | EmptyString => false
  end.
Proof. destruct s; reflexivity. Qed.

Lemma replace_star_head (p rest : string) : replace_star p <> String "*" rest.
Proof.
  destruct p as [|c p]; simpl; [discriminate|].
  destruct (Ascii.eqb c "*") eqn:E; [discriminate|].
  intros [= -> _]. discriminate E.
Qed.

Lemma parse_one (c : ascii) (rest : string) (r : list item) :
  (forall rest', rest <> String "*" rest') ->
  parse (String c rest) = Some r ->
  exists a r', parse_atom c = Some a /\ parse rest = Some r' /\ r = IOne a :: r'.
Proof.
  intros Hrest. simpl. destruct (parse_atom c) as [a|]; [|discriminate].
  destruct rest as [|d rest'].
  - simpl. intros [= <-]. eauto.
  - destruct (Ascii.eqb d "*") eqn:E.
    + apply Ascii.eqb_eq in E. subst d. now destruct (Hrest rest').
    + assert (Hd : match d with
                   | "*"%char => false
                   | _ => true
                   end = true).
      { destruct d as [[] [] [] [] [] [] [] []]; try reflexivity. discriminate E. }
      destruct d as [[] [] [] [] [] [] [] []]; try discriminate Hd;
        (destruct (parse (String _ rest')) as [r'|]; [|discriminate]);
        intros [= <-]; eauto.
Qed.

Lemma spec_wildcard_refl (p : string) : spec_wildcard p p = true.
Proof.
  induction p as [|c p IH]; [reflexivity|].
  destruct (Ascii.eqb c "*") eqn:E.
  - apply Ascii.eqb_eq in E. subst c. rewrite spec_wildcard_star.
    apply orb_true_iff. right. rewrite spec_wildcard_star, IH. reflexivity.
  - simpl. rewrite E, Ascii.eqb_refl. exact IH.
Qed.

(** On plain origins the RegExp accepts whatever the wildcard reading of the
    pattern accepts. *)
Lemma spec_wildcard_matches (p : string) :
  forall (s : string) (r : list item),
    parse (replace_star p) = Some r ->
    Facts.plain_origin s ->
    spec_wildcard p s = true ->
    matches r s = true.
Proof.
  unfold Facts.plain_origin.
  induction p as [|c p IH]; intros s r Hp Hs Hm.
  - simpl in Hp. injection Hp as <-. exact Hm.
  - simpl in Hp. destruct (Ascii.eqb c "*") eqn:Ec.
    + apply Ascii.eqb_eq in Ec. subst c.
      change (parse (String "." (String "*" (replace_star p))))
        with (match parse (replace_star p) with
              | Some r0 => Some (IStar ADot :: r0)
              | None => None
              end) in Hp.
      destruct (parse (replace_star p)) as [r'|] eqn:Er; [|discriminate].
      injection Hp as <-.
      induction s as [|d s IHs].
      * rewrite spec_wildcard_star in Hm. rewrite matches_star.
        rewrite orb_false_r in *. now apply IH.
      * rewrite spec_wildcard_star in Hm. rewrite matches_star.
        simpl in Hs. apply andb_true_iff in Hs as [Hd Hs].
        apply orb_true_iff in Hm as [Hm|Hm].
        -- rewrite (IH (String d s) r' eq_refl); [reflexivity| |exact Hm].
           simpl. now rewrite Hd, Hs.
        -- simpl atom_matches. rewrite Hd, (IHs Hs Hm). apply orb_true_r.
    + destruct (parse_one c (replace_star p) r (replace_star_head p) Hp)
        as (a & r' & Ha & Er & ->).
      assert (Hc : spec_wildcard (String c p) s =
                   match s with
                   | String d rest => Ascii.eqb c d && spec_wildcard p rest
                   | EmptyString => false
                   end).
      { simpl. now rewrite Ec. }
      rewrite Hc in Hm. destruct s as [|d s]; [discriminate|].
      apply andb_true_iff in Hm as [Hd Hm].
      simpl in Hs. apply andb_true_iff in Hs as [Hl Hs].
      simpl. rewrite (IH s r' Er Hs Hm), andb_true_r.
      unfold parse_atom in Ha. destruct (Ascii.eqb c ".").
      * injection Ha as <-. exact Hl.
      * destruct (syntax_char c); [discriminate|]. injection Ha as <-. exact Hd.
Qed.

(** The origins that the wildcard reading allows are allowed by the code. *)
Lemma spec_allowed_is_allowed (allowedOrigins : list string) (origin : string) :
  Facts.plain_patterns allowedOrigins ->
  Facts.plain_origin origin ->
  spec_isAllowedOrigin allowedOrigins origin = true ->
  isAllowedOrigin allowedOrigins origin = Some true.
Proof.
  unfold Facts.plain_patterns, isAllowedOrigin, spec_isAllowedOrigin.
  intros Hp Ho. induction Hp as [|allowed rest Ha _ IH]; simpl; [discriminate|].
  unfold allowed_by at 1. destruct (JsString.includes allowed "*") eqn:Ei.
  - destruct (Ha eq_refl) as [r Hr]. unfold regexp_test. rewrite Hr.
    destruct (matches r origin) eqn:Em; [reflexivity|].
    intros H. apply IH. apply orb_true_iff in H as [H|H]; [|exact H].
    apply orb_true_iff in H as [H|H].
    + apply String.eqb_eq in H. subst allowed.
      rewrite (spec_wildcard_matches origin origin r Hr Ho (spec_wildcard_refl origin)) in Em.
      discriminate.
    + simpl in H. rewrite (spec_wildcard_matches allowed origin r Hr Ho H) in Em.
      discriminate.
  - rewrite orb_false_r.
    destruct (String.eqb origin allowed); [reflexivity|]. simpl. exact IH.
Qed.

End OriginProperties.

(** ** Credentials *)

Section CredentialProperties.
Import Credentials.

Variable url_protocol : string -> option string.

Lemma from_hash_set (hashParams : URLSearchParams) (c : BullhornCredentials) (k : key) :
  JsString.truthy (field k c) = true -> from_hash url_protocol hashParams c k = c.
Proof. intros H. unfold from_hash. now rewrite H. Qed.

Lemma field_set_other (k k' : key) (v : option string) (c : BullhornCredentials) :
  k <> k' -> field k' (set_field k v c) = field k' c.
Proof. destruct k, k'; intros H; try reflexivity; congruence. Qed.

Lemma from_hash_other (hashParams : URLSearchParams) (c : BullhornCredentials) (k k' : key) :
  k <> k' -> field k' (from_hash url_protocol hashParams c k) = field k' c.
Proof.
  intros H. unfold from_hash.
  destruct (JsString.truthy (field k c)); [reflexivity|].
  destruct k; apply field_set_other; assumption.
Qed.

Lemma key_eq_dec (k k' : key) : {k = k'} + {k <> k'}.
Proof. decide equality. Defined.

Lemma from_hash_keeps (hashParams : URLSearchParams) (c : BullhornCredentials) (k k' : key) :
  JsString.truthy (field k c) = true ->
  field k (from_hash url_protocol hashParams c k') = field k c.
Proof.
  intros H. destruct (key_eq_dec k' k) as [->|Hne].
  - now rewrite from_hash_set.
  - now apply from_hash_other.
Qed.

Lemma fold_from_hash_keeps (hashParams : URLSearchParams) (ks : list key)
  (c : BullhornCredentials) (k : key) :
  JsString.truthy (field k c) = true ->
  field k (fold_left (from_hash url_protocol hashParams) ks c) = field k c.
Proof.
  revert c. induction ks as [|k' ks IH]; intros c H; simpl; [reflexivity|].
  rewrite IH; rewrite from_hash_keeps; auto.
Qed.

(** A field that the query string has set is not taken from the fragment. *)
Lemma query_takes_precedence (urlParams hashParams : URLSearchParams) (k : key) :
  JsString.truthy (field k (from_query url_protocol urlParams)) = true ->
  field k (extractCredentialsFromUrl url_protocol urlParams hashParams) =
  field k (from_query url_protocol urlParams).
Proof. intros H. unfold extractCredentialsFromUrl. now apply fold_from_hash_keeps. Qed.

Lemma field_set_same (k : key) (v : option string) (c : BullhornCredentials) :
  field k (set_field k v c) = v.
Proof. destruct k; reflexivity. Qed.

(** A field that the query string has left unset is looked up in the
    fragment, under its own name and under that name in lower case. *)
Lemma fragment_fills_unset (urlParams hashParams : URLSearchParams) (k : key) :
  JsString.truthy (field k (from_query url_protocol urlParams)) = false ->
  field k (extractCredentialsFromUrl url_protocol urlParams hashParams) =
  let value :=
    JsString.or_else (get hashParams (key_name k))
      (get hashParams (JsString.toLowerCase (key_name k))) in
  match k with
  | KrestUrl => validateUrl url_protocol value
  | KrestToken => validateToken value
  | _ => validateParam value
  end.
Proof.
  intros H. unfold extractCredentialsFromUrl, keys. cbn [fold_left].
  assert (Hk : forall c, JsString.truthy (field k c) = false ->
            field k (from_hash url_protocol hashParams c k) =
            match k with
            | KrestUrl =>
                validateUrl url_protocol
                  (JsString.or_else (get hashParams (key_name k))
                     (get hashParams (JsString.toLowerCase (key_name k))))
            | KrestToken =>
                validateToken
                  (JsString.or_else (get hashParams (key_name k))
                     (get hashParams (JsString.toLowerCase (key_name k))))
            | _ =>
                validateParam
                  (JsString.or_else (get hashParams (key_name k))
                     (get hashParams (JsString.toLowerCase (key_name k))))
            end).
  { intros c Hc. unfold from_hash. rewrite Hc. destruct k; apply field_set_same. }
  cbn zeta.
  destruct k;
    repeat (first [ rewrite from_hash_other by discriminate
                  | rewrite Hk by (repeat (rewrite from_hash_other by discriminate); exact H) ]);
    reflexivity.
Qed.

End CredentialProperties.

(** C8.  The query string resolves [corp] and [BhRestToken]; the fragment
    does not: there a field is looked up under its own name and under that
    name in lower case only, so [#corp=123] and [#BhRestToken=abc] leave
    [corporationId] and [restToken] unset, while [#corporationid=123] sets
    the former. *)
Theorem extractCredentials_fragment_aliases :
  let proto := fun _ : string => Some "https:" in
  Credentials.corporationId
    (Credentials.extractCredentialsFromUrl proto [("corp", "123")] []) = Some "123" /\
  Credentials.corporationId
    (Credentials.extractCredentialsFromUrl proto [] [("corp", "123")]) = None /\
  Credentials.restToken
    (Credentials.extractCredentialsFromUrl proto [("BhRestToken", "abc")] []) = Some "abc" /\
  Credentials.restToken
    (Credentials.extractCredentialsFromUrl proto [] [("BhRestToken", "abc")]) = None /\
  Credentials.corporationId
    (Credentials.extractCredentialsFromUrl proto [] [("corporationid", "123")]) = Some "123".
Proof. repeat split; vm_compute; reflexivity. Qed.

(** ** Sanitisation *)

Section SanitizeProperties.
Import Js Sanitize.

Lemma sanitize_string (s : string) :
  sanitizeEventData (VStr s) = VStr (JsString.remove_chars xss_char s).
Proof. reflexivity. Qed.

Lemma remove_chars_clean (cls : ascii -> bool) (s : string) :
  JsString.all_chars (fun c => negb (cls c)) (JsString.remove_chars cls s) = true.
Proof.
  induction s as [|c s IH]; simpl; [reflexivity|].
  destruct (cls c) eqn:E; simpl; [exact IH|]. now rewrite E, IH.
Qed.

Lemma sanitize_object_keys (fields : list (string * value)) :
  exists fields', sanitizeEventData (VObj fields) = VObj fields' /\
                  map fst fields' = map fst fields.
Proof.
  eexists; split; [reflexivity|].
  induction fields as [|[k v] rest IH]; simpl; [reflexivity|]. now rewrite IH.
Qed.

Lemma sanitize_other (v : value) :
  match v with VStr _ | VArr _ | VObj _ => False | _ => True end ->
  sanitizeEventData v = v.
Proof. destruct v; simpl; intros H; try reflexivity; contradiction. Qed.


Lemma index_fields_values (i : nat) (elems : list value) :
  map snd (index_fields i elems) = elems.
Proof.
  revert i. induction elems as [|v rest IH]; intros i; simpl; [reflexivity|].
  now rewrite IH.
Qed.

(** No array comes out of [sanitizeEventData]. *)
Lemma sanitize_never_array (v : value) (elems : list value) :
  sanitizeEventData v <> VArr elems.
Proof. destruct v; simpl; discriminate. Qed.

End SanitizeProperties.

(** ** The default instance *)

Section SingletonProperties.
Import Bridge Singleton.

Variable url_protocol : string -> option string.
Variable win : Window.

Lemma getBullhornBridge_again (ref : nat) (st : Store)
  (configs : list (option BullhornBridgeConfig)) :
  defaultInstance st = Some ref ->
  getBullhornBridge_each url_protocol win configs st = (repeat ref (length configs), st).
Proof.
  intros H. induction configs as [|c rest IH]; simpl; [reflexivity|].
  assert (Hc : getBullhornBridge url_protocol win c st = (ref, st))
    by (unfold getBullhornBridge; now rewrite H).
  rewrite Hc. simpl. now rewrite IH.
Qed.

End SingletonProperties.

(** C10.  Whatever configurations a series of [getBullhornBridge] calls is
    given, every call returns one and the same reference, the store holds
    one object, and that object is the one constructed from the
    configuration of the first call. *)
Theorem getBullhornBridge_singleton
  (url_protocol : string -> option string) (win : Bridge.Window)
  (first : option Bridge.BullhornBridgeConfig)
  (later : list (option Bridge.BullhornBridgeConfig)) :
  let result :=
    Singleton.getBullhornBridge_each url_protocol win (first :: later) Singleton.loaded in
  result.1 = repeat 0%nat (S (length later)) /\
  Singleton.objects result.2 = [Bridge.constructor url_protocol first win] /\
  Singleton.defaultInstance result.2 = Some 0%nat.
Proof.
  cbn zeta. simpl.
  rewrite (getBullhornBridge_again url_protocol win 0%nat) by reflexivity.
  simpl. auto.
Qed.

(** ** Registration *)

Section RegistrationProperties.
Import Bridge Facts.

Lemma quiet_refl (w : World) : quiet w w.
Proof. repeat split. Qed.

Lemma quiet_trans (w1 w2 w3 : World) : quiet w1 w2 -> quiet w2 w3 -> quiet w1 w3.
Proof.
  intros (A1 & A2 & A3 & A4 & A5) (B1 & B2 & B3 & B4 & B5).
  repeat split; congruence.
Qed.

Lemma call_quiet (f : Callback) (a : Arg) (w : World) : quiet w (call f a w).2.
Proof. repeat split. Qed.

Lemma forEach_call_quiet (fs : list Callback) (a : Arg) (w : World) :
  quiet w (forEach_call fs a w).2.
Proof.
  revert w. induction fs as [|f fs IH]; intros w; simpl; [apply quiet_refl|].
  destruct (cb_throws f); simpl.
  - apply (call_quiet f a w).
  - eapply quiet_trans; [apply (call_quiet f a w)|apply IH].
Qed.

Lemma emit_quiet (ev : EventType) (a : Arg) (w : World) : quiet w (emit ev a w).2.
Proof.
  unfold emit. simpl.
  destruct (eventListeners (this w) !! event_name ev).
  - eapply quiet_trans; [|apply forEach_call_quiet]. repeat split.
  - repeat split.
Qed.

Lemma forEach_call_returns (fs : list Callback) (a : Arg) (w : World) :
  Forall returns fs ->
  (forEach_call fs a w).1 = None /\
  calls (forEach_call fs a w).2 = calls w ++ calls_of fs a /\
  emitted (forEach_call fs a w).2 = emitted w.
Proof.
  intros H. revert w. induction H as [|f fs Hf _ IH]; intros w; simpl.
  - now rewrite app_nil_r.
  - unfold returns in Hf. rewrite Hf.
    destruct (IH (add_call f a w)) as (E1 & E2 & E3).
    rewrite E1, E2, E3. simpl. now rewrite <- app_assoc.
Qed.

Lemma emit_returns (ev : EventType) (a : Arg) (w : World) :
  Forall returns (listeners_of ev w) ->
  (emit ev a w).1 = None /\
  calls (emit ev a w).2 = calls w ++ calls_of (listeners_of ev w) a /\
  emitted (emit ev a w).2 = emitted w ++ [(ev, a)].
Proof.
  unfold emit, listeners_of. simpl.
  destruct (eventListeners (this w) !! event_name ev) as [fs|]; simpl; intros H.
  - destruct (forEach_call_returns fs a (add_emitted ev a w) H) as (E1 & E2 & E3).
    now rewrite E1, E2, E3.
  - now rewrite app_nil_r.
Qed.

Lemma only_registers_refl (w : World) : only_registers w w.
Proof. exists []. now rewrite app_nil_r. Qed.

Lemma only_registers_eq (w w' : World) : sent w' = sent w -> only_registers w w'.
Proof. intros H. exists []. now rewrite app_nil_r. Qed.

Lemma only_registers_trans (w1 w2 w3 : World) :
  only_registers w1 w2 -> only_registers w2 w3 -> only_registers w1 w3.
Proof.
  intros (x & Hx & Fx) (y & Hy & Fy). exists (x ++ y). split.
  - now rewrite Hy, Hx, <- app_assoc.
  - apply Forall_app; auto.
Qed.

Lemma evolves_refl (w : World) : evolves w w.
Proof. constructor; auto using only_registers_refl. Qed.

Lemma evolves_trans (w1 w2 w3 : World) : evolves w1 w2 -> evolves w2 w3 -> evolves w1 w3.
Proof.
  intros [] []. constructor; try congruence; auto.
  - eapply only_registers_trans; eassumption.
  - etransitivity; eassumption.
Qed.

Lemma quiet_evolves (w w' : World) : quiet w w' -> evolves w w'.
Proof.
  intros (E1 & E2 & E3 & _). constructor; rewrite ?E1; auto.
  now apply only_registers_eq.
Qed.

(** Reduces the projections of a world built by the setters of [w]. *)
Ltac unfold_setters :=
  unfold set_this, add_sent, add_listening, add_timer, add_call, add_emitted,
    set_postRobot, set_isRegistered, set_registrationPromise,
    set_registrationAttempts, set_eventListeners in *.

Ltac open_world w :=
  let b := fresh "b" in
  destruct w as [b ? ? ? ? ? ?]; destruct b; unfold_setters; simpl in *.

(** Splits the conjunctions of the goal and nothing else. *)
Ltac conjs := repeat match goal with |- _ /\ _ => split end.

(** Closes [evolves] between a world and an update of it that sends
    nothing. *)
Ltac frame w :=
  open_world w; constructor; simpl; auto; try lia;
  try (apply only_registers_eq; reflexivity).

Lemma registration_failed_retry (config : option BullhornConfig) (w : World) :
  (registrationAttempts (this w) < maxRegistrationAttempts)%nat ->
  registration_failed config w =
  (AwaitTimer config,
   add_timer waitTime
     (set_this (set_registrationAttempts (S (registrationAttempts (this w))) (this w)) w)).
Proof.
  intros H. unfold registration_failed.
  destruct (Nat.ltb_spec (registrationAttempts (this w)) maxRegistrationAttempts);
    [reflexivity|lia].
Qed.

Lemma registration_failed_last (config : option BullhornConfig) (w : World) :
  (maxRegistrationAttempts <= registrationAttempts (this w))%nat ->
  (exists e, (registration_failed config w).1 = Done (inl e)) /\
  quiet w (registration_failed config w).2.
Proof.
  intros H. unfold registration_failed.
  destruct (Nat.ltb_spec (registrationAttempts (this w)) maxRegistrationAttempts); [lia|].
  destruct (onErrorCallback (this w)) as [f|].
  - unfold call. destruct (cb_throws f) as [e|]; simpl.
    + split; [eauto|repeat split].
    + pose proof (emit_quiet EvError (ArgError (mkError
        "Failed to register with Bullhorn after maximum attempts")) (add_call f
        (ArgError (mkError "Failed to register with Bullhorn after maximum attempts")) w))
        as Q.
      destruct (emit _ _ _) as [[e|] w2]; simpl in *;
        (split; [eauto|eapply quiet_trans; [|exact Q]; repeat split]).
  - pose proof (emit_quiet EvError (ArgError (mkError
      "Failed to register with Bullhorn after maximum attempts")) w) as Q.
    destruct (emit _ _ _) as [[e|] w2]; simpl in *; (split; [eauto|exact Q]).
Qed.


Lemma registration_failed_evolves (config : option BullhornConfig) (w : World) :
  evolves w (registration_failed config w).2.
Proof.
  destruct (Nat.lt_ge_cases (registrationAttempts (this w)) maxRegistrationAttempts) as [H|H].
  - rewrite registration_failed_retry by exact H.
    frame w.
  - apply quiet_evolves, registration_failed_last, H.
Qed.

Lemma setup_evolves (w : World) :
  evolves w (setupEventListeners (set_this (set_isRegistered true (this w)) w)).
Proof.
  unfold setupEventListeners. destruct w as [[[] ? ? ? ? ? ? ? ? ?] ? ? ? ? ? ?];
    unfold_setters; simpl; constructor; simpl; auto; apply only_registers_eq; reflexivity.
Qed.

Lemma registration_succeeded_evolves (config : option BullhornConfig) (w : World) :
  evolves w (registration_succeeded config w).2.
Proof.
  unfold registration_succeeded.
  set (w1 := setupEventListeners _).
  assert (E1 : evolves w w1) by apply setup_evolves.
  assert (E2 : evolves w1 (match onReadyCallback (this w1) with
                           | Some f => call f ArgNone w1
                           | None => (None, w1)
                           end).2).
  { destruct (onReadyCallback (this w1)); [apply quiet_evolves, call_quiet|apply evolves_refl]. }
  destruct (match onReadyCallback (this w1) with
            | Some f => call f ArgNone w1
            | None => (None, w1)
            end) as [[e|] w2]; simpl in E2.
  - eapply evolves_trans; [exact E1|]. eapply evolves_trans; [exact E2|].
    apply registration_failed_evolves.
  - pose proof (emit_quiet EvReady ArgNone w2) as Q.
    destruct (emit EvReady ArgNone w2) as [[e|] w3]; simpl in *.
    + eapply evolves_trans; [exact E1|]. eapply evolves_trans; [exact E2|].
      eapply evolves_trans; [apply quiet_evolves, Q|]. apply registration_failed_evolves.
    + eapply evolves_trans; [exact E1|]. eapply evolves_trans; [exact E2|].
      apply quiet_evolves, Q.
Qed.

Lemma performRegistration_send_evolves (config : option BullhornConfig) (w : World) :
  evolves w (performRegistration_send config w).2.
Proof.
  open_world w. constructor; simpl; auto.
  eexists [_]. simpl. split; [reflexivity|]. repeat constructor.
Qed.

Lemma performRegistration_evolves (config : option BullhornConfig) (w : World) :
  evolves w (performRegistration config w).2.
Proof.
  unfold performRegistration. destruct (postRobot (this w)).
  - apply performRegistration_send_evolves.
  - apply evolves_refl.
Qed.

Lemma initializePostRobot_done_evolves (w : World) : evolves w (initializePostRobot_done w).
Proof.
  unfold initializePostRobot_done. destruct (import_succeeds (window w)).
  - frame w.
  - apply evolves_refl.
Qed.

Lemma performRegistration_init_evolves (config : option BullhornConfig) (w : World) :
  evolves w (performRegistration_init config w).2.
Proof.
  unfold performRegistration_init. destruct (import_succeeds (window w)).
  - eapply evolves_trans; [|apply performRegistration_send_evolves].
    apply initializePostRobot_done_evolves.
  - apply evolves_refl.
Qed.

Lemma performRegistration_reply_evolves (config : option BullhornConfig) (o : Outcome)
  (w : World) : evolves w (performRegistration_reply config o w).2.
Proof.
  destruct o; [apply registration_failed_evolves|apply registration_succeeded_evolves].
Qed.

Lemma settle_evolves (tw : Task * World) : evolves tw.2 (settle tw).
Proof. destruct tw as [t w]. unfold settle. simpl. frame w. Qed.

Lemma advance_evolves (tw : Task * World) (l : Loop) : evolves tw.2 (world (advance tw l)).
Proof.
  destruct tw as [t w]. unfold advance. simpl.
  assert (E : evolves w (set_this (set_registrationPromise (Some t) (this w)) w)).
  { frame w. }
  destruct t; exact E.
Qed.

Lemma step_evolves (e : Event) (l l' : Loop) :
  step e l = Some l' -> evolves (world l) (world l').
Proof.
  unfold step. destruct e as [c config| | |o|].
  - destruct (negb (isInIframe (window (world l)))); [intros [= <-]; apply evolves_refl|].
    destruct (isRegistered (this (world l))); [intros [= <-]; apply evolves_refl|].
    destruct (registrationPromise (this (world l))) as [[]|]; intros [= <-];
      try apply evolves_refl.
    eapply evolves_trans; [|apply advance_evolves].
    apply performRegistration_evolves.
  - intros [= <-]. apply initializePostRobot_done_evolves.
  - destruct (registrationPromise (this (world l))) as [[]|]; intros [= <-].
    eapply evolves_trans; [|apply advance_evolves]. apply performRegistration_init_evolves.
  - destruct (registrationPromise (this (world l))) as [[]|]; intros [= <-].
    eapply evolves_trans; [|apply advance_evolves]. apply performRegistration_reply_evolves.
  - destruct (registrationPromise (this (world l))) as [[]|]; intros [= <-].
    eapply evolves_trans; [|apply advance_evolves]. apply performRegistration_evolves.
Qed.

Lemma exec_evolves (evs : list Event) (l l' : Loop) :
  exec evs l = Some l' -> evolves (world l) (world l').
Proof.
  revert l. induction evs as [|e evs IH]; intros l; simpl.
  - intros [= <-]. apply evolves_refl.
  - destruct (step e l) as [l1|] eqn:E; [|discriminate].
    intros H. eapply evolves_trans; [eapply step_evolves, E|apply IH, H].
Qed.

Lemma run_evolves (fuel : nat) (transport : Transport) (l : Loop) :
  evolves (world l) (world (run fuel transport l)).
Proof.
  revert l. induction fuel as [|fuel IH]; intros l; simpl; [apply evolves_refl|].
  destruct (next_event transport (world l)) as [e|]; [|apply evolves_refl].
  destruct (step e l) as [l1|] eqn:E; [|apply evolves_refl].
  eapply evolves_trans; [eapply step_evolves, E|apply IH].
Qed.

(** *** Every registration settles *)

Lemma world_advance (tw : Task * World) (l : Loop) : world (advance tw l) = settle tw.
Proof. unfold advance, settle. destruct tw.1; reflexivity. Qed.

Lemma advance_cases (tw : Task * World) (l : Loop) :
  (exists r, tw.1 = Done r /\
             advance tw l =
             mkLoop (settle tw) []
               (observed l ++ map (fun c => (c, resume r (settle tw))) (waiters l))) \/
  (pending (settle tw) = true /\ advance tw l = mkLoop (settle tw) (waiters l) (observed l)).
Proof.
  unfold advance, settle, pending. destruct tw as [t w]. simpl.
  destruct t; [right|right|right|left; eauto]; (split; [|reflexivity]);
    open_world w; reflexivity.
Qed.

Lemma turns_left_settle_done (r : Error + unit) (w : World) :
  turns_left (settle (Done r, w)) = 0%nat.
Proof. open_world w. reflexivity. Qed.

Lemma turns_failed (config : option BullhornConfig) (w : World) :
  (turns_left (settle (registration_failed config w)) <= budget w + load w)%nat.
Proof.
  destruct (Nat.lt_ge_cases (registrationAttempts (this w)) maxRegistrationAttempts) as [H|H].
  - rewrite registration_failed_retry by exact H.
    unfold turns_left, settle, budget, load, maxRegistrationAttempts in *.
    open_world w. lia.
  - destruct (registration_failed_last config w H) as [[e He] _].
    destruct (registration_failed config w) as [t w']. simpl in He. subst t.
    rewrite turns_left_settle_done. lia.
Qed.

Lemma registration_succeeded_cases (config : option BullhornConfig) (w : World) :
  (exists w', registration_succeeded config w = (Done (inr tt), w') /\
              isRegistered (this w') = true) \/
  (exists w3, registration_succeeded config w = registration_failed config w3 /\
              registrationAttempts (this w3) = registrationAttempts (this w) /\
              postRobot (this w3) = postRobot (this w) /\
              isRegistered (this w3) = true).
Proof.
  unfold registration_succeeded.
  set (w1 := setupEventListeners _).
  assert (E1 : this w1 = set_isRegistered true (this w)).
  { unfold w1, setupEventListeners. open_world w. destruct postRobot0; reflexivity. }
  assert (E2 : quiet w1 (match onReadyCallback (this w1) with
                         | Some f => call f ArgNone w1
                         | None => (None, w1)
                         end).2).
  { destruct (onReadyCallback (this w1)); [apply call_quiet|apply quiet_refl]. }
  destruct (match onReadyCallback (this w1) with
            | Some f => call f ArgNone w1
            | None => (None, w1)
            end) as [[e|] w2]; simpl in E2.
  - right. exists w2. destruct E2 as [-> _]. rewrite E1.
    split; [reflexivity|]. open_world w. auto.
  - pose proof (emit_quiet EvReady ArgNone w2) as Q.
    destruct (emit EvReady ArgNone w2) as [[e|] w3]; simpl in Q.
    + right. exists w3. destruct Q as [-> _], E2 as [-> _]. rewrite E1.
      split; [reflexivity|]. open_world w. auto.
    + left. exists w3. destruct Q as [-> _], E2 as [-> _]. rewrite E1.
      split; [reflexivity|]. open_world w. auto.
Qed.

Lemma turns_reply (config : option BullhornConfig) (o : Outcome) (w : World) :
  (turns_left (settle (performRegistration_reply config o w)) <= budget w + load w)%nat.
Proof.
  destruct o as [e|resp]; simpl; [apply turns_failed|].
  destruct (registration_succeeded_cases config w) as [(w' & -> & _)|(w3 & -> & Ea & Ep & _)].
  - rewrite turns_left_settle_done. lia.
  - etransitivity; [apply turns_failed|]. unfold budget, load. rewrite Ea, Ep. lia.
Qed.

Lemma turns_send (config : option BullhornConfig) (w : World) :
  turns_left (settle (performRegistration_send config w)) = (1 + budget w + load w)%nat.
Proof. unfold turns_left, settle, budget, load. open_world w. reflexivity. Qed.

Lemma turns_perform (config : option BullhornConfig) (w : World) :
  (turns_left (settle (performRegistration config w)) <= 1 + budget w + load w)%nat.
Proof.
  unfold performRegistration. destruct (postRobot (this w)) eqn:E.
  - rewrite turns_send. lia.
  - unfold turns_left, settle, budget, load. open_world w. subst. lia.
Qed.

Lemma turns_init (config : option BullhornConfig) (w : World) :
  (turns_left (settle (performRegistration_init config w)) <= 1 + budget w)%nat.
Proof.
  unfold performRegistration_init, initializePostRobot_done.
  destruct (import_succeeds (window w)).
  - rewrite turns_send. unfold budget, load. open_world w. lia.
  - rewrite turns_left_settle_done. lia.
Qed.

Lemma next_event_pending (transport : Transport) (w : World) :
  pending w = true <-> exists e, next_event transport w = Some e.
Proof.
  unfold pending, next_event.
  destruct (registrationPromise (this w)) as [[]|]; split;
    try discriminate; eauto; intros [e H]; discriminate.
Qed.

Lemma step_turns (transport : Transport) (l : Loop) (e : Event) :
  next_event transport (world l) = Some e ->
  exists l', step e l = Some l' /\ is_call e = false /\
             (turns_left (world l') < turns_left (world l))%nat.
Proof.
  unfold next_event, step.
  destruct (registrationPromise (this (world l))) as [[config|config|config|r]|] eqn:E;
    intros [= <-]; eexists; (split; [reflexivity|]); (split; [reflexivity|]);
    rewrite world_advance; unfold turns_left at 2; rewrite E.
  - pose proof (turns_init config (world l)). lia.
  - pose proof (turns_reply config (transport (length (sent (world l)) - 1)%nat) (world l)).
    lia.
  - pose proof (turns_perform config (world l)). lia.
Qed.

Lemma turns_left_bound (w : World) : (turns_left w <= registration_fuel)%nat.
Proof.
  unfold turns_left, budget, load, registration_fuel, maxRegistrationAttempts.
  destruct (registrationPromise (this w)) as [[]|]; destruct (postRobot (this w)); lia.
Qed.

Lemma pending_turns (w : World) : pending w = true -> (0 < turns_left w)%nat.
Proof.
  unfold pending, turns_left.
  destruct (registrationPromise (this w)) as [[]|]; try discriminate; lia.
Qed.

(** *** Callers of one registration *)

Lemma pending_loaded (w : World) : pending (initializePostRobot_done w) = pending w.
Proof.
  unfold initializePostRobot_done, pending.
  destruct (import_succeeds (window w)); [|reflexivity]. open_world w. reflexivity.
Qed.

Lemma advance_delivered (tw : Task * World) (l : Loop) : delivered l (advance tw l).
Proof.
  destruct (advance_cases tw l) as [(r & Hr & ->)|[Hp ->]]; [right|left]; simpl; auto.
  exists r. unfold settle. rewrite Hr. repeat split.
Qed.

Lemma step_delivered (e : Event) (l l' : Loop) :
  is_call e = false -> step e l = Some l' -> pending (world l) = true -> delivered l l'.
Proof.
  unfold step. destruct e as [c config| | |o|]; intros Hc; try discriminate Hc.
  - intros [= <-] Hp. left. simpl. now rewrite pending_loaded.
  - destruct (registrationPromise (this (world l))) as [[]|]; intros [= <-] _.
    apply advance_delivered.
  - destruct (registrationPromise (this (world l))) as [[]|]; intros [= <-] _.
    apply advance_delivered.
  - destruct (registrationPromise (this (world l))) as [[]|]; intros [= <-] _.
    apply advance_delivered.
Qed.









(** The first call of an unregistered session with the library loaded
    sends the handshake and waits. *)
Lemma step_first_call (c : nat) (config : option BullhornConfig) (w : World) :
  isInIframe (window w) = true ->
  isRegistered (this w) = false ->
  registrationPromise (this w) = None ->
  postRobot (this w) = true ->
  step (Call c config) (mkLoop w [] []) =
  Some (mkLoop (settle (performRegistration_send config w)) [c] []).
Proof.
  intros H1 H2 H3 H4. unfold step, performRegistration. simpl.
  rewrite H1, H2, H3, H4. reflexivity.
Qed.


(** *** Driving a registration to its end *)

Lemma run_step_eq (fuel : nat) (transport : Transport) (l l' : Loop) (e : Event) :
  next_event transport (world l) = Some e -> step e l = Some l' ->
  run (S fuel) transport l = run fuel transport l'.
Proof. intros H1 H2. simpl. now rewrite H1, H2. Qed.

Lemma run_stop (fuel : nat) (transport : Transport) (l : Loop) :
  pending (world l) = false -> run fuel transport l = l.
Proof.
  intros H. destruct fuel; [reflexivity|]. simpl.
  destruct (next_event transport (world l)) as [e|] eqn:E; [|reflexivity].
  assert (pending (world l) = true) by (apply (next_event_pending transport); eauto).
  congruence.
Qed.

Lemma done_not_pending (w : World) (r : Error + unit) :
  registrationPromise (this w) = Some (Done r) -> pending w = false.
Proof. unfold pending. now intros ->. Qed.

(** With enough turns the promise settles, and the callers that wait for
    it all get its outcome. *)
Lemma run_delivered (fuel : nat) (transport : Transport) (l : Loop) :
  pending (world l) = true ->
  (turns_left (world l) <= fuel)%nat ->
  exists r,
    registrationPromise (this (world (run fuel transport l))) = Some (Done r) /\
    waiters (run fuel transport l) = [] /\
    observed (run fuel transport l) =
    observed l ++ map (fun c => (c, resume r (world (run fuel transport l)))) (waiters l).
Proof.
  revert l. induction fuel as [|fuel IH]; intros l Hp Hf.
  - pose proof (pending_turns _ Hp). lia.
  - destruct (proj1 (next_event_pending transport (world l)) Hp) as [e He].
    destruct (step_turns transport l e He) as (l1 & Hs & Hc & Ht).
    rewrite (run_step_eq fuel transport l l1 e He Hs).
    destruct (step_delivered e l l1 Hc Hs Hp) as [(P1 & W1 & O1)|(r & R1 & W1 & O1)].
    + destruct (IH l1 P1) as (r & R2 & W2 & O2); [lia|].
      exists r. repeat split; congruence.
    + rewrite (run_stop fuel transport l1) by (eapply done_not_pending; exact R1).
      exists r. auto.
Qed.

Lemma listeners_of_evolves (ev : EventType) (w w' : World) :
  evolves w w' -> listeners_of ev w' = listeners_of ev w.
Proof. intros []. unfold listeners_of. congruence. Qed.

Lemma ready_returns_evolves (w w' : World) : evolves w w' -> ready_returns w -> ready_returns w'.
Proof.
  intros E (B1 & B2). pose proof E as [].
  unfold ready_returns. rewrite (listeners_of_evolves _ w w') by exact E.
  split; [|assumption]. intros f Hf. apply B1. congruence.
Qed.






(** The accepted attempt when the application functions return: the
    session is registered, the two inbound channels are subscribed, the ready
    callback is called and [ready] is emitted. *)
Lemma registration_succeeded_returns (config : option BullhornConfig) (w : World) :
  (forall f, onReadyCallback (this w) = Some f -> returns f) ->
  Forall returns (listeners_of EvReady w) ->
  let r := registration_succeeded config w in
  r.1 = Done (inr tt) /\
  isRegistered (this r.2) = true /\
  registrationAttempts (this r.2) = registrationAttempts (this w) /\
  sent r.2 = sent w /\
  calls r.2 =
    calls w ++ calls_of (option_list (onReadyCallback (this w))) ArgNone
            ++ calls_of (listeners_of EvReady w) ArgNone /\
  emitted r.2 = emitted w ++ [(EvReady, ArgNone)] /\
  listening r.2 =
    listening w ++
    (if postRobot (this w)
     then [("customEvent", allowedOrigins (this w)); ("update", allowedOrigins (this w))]
     else []).
Proof.
  intros Hcb Hls r. subst r. unfold registration_succeeded.
  set (w1 := setupEventListeners _).
  assert (E1 : this w1 = set_isRegistered true (this w) /\ sent w1 = sent w /\
               calls w1 = calls w /\ emitted w1 = emitted w /\
               listening w1 =
                 listening w ++
                 (if postRobot (this w)
                  then [("customEvent", allowedOrigins (this w));
                        ("update", allowedOrigins (this w))]
                  else [])).
  { unfold w1, setupEventListeners. open_world w.
    destruct postRobot0; simpl; conjs; try reflexivity.
    - now rewrite <- app_assoc.
    - now rewrite app_nil_r. }
  destruct E1 as (T1 & S1 & C1 & M1 & L1).
  assert (Hr : onReadyCallback (this w1) = onReadyCallback (this w))
    by (rewrite T1; open_world w; reflexivity).
  assert (Hl : listeners_of EvReady w1 = listeners_of EvReady w)
    by (unfold listeners_of; rewrite T1; open_world w; reflexivity).
  rewrite Hr.
  destruct (onReadyCallback (this w)) as [f|] eqn:Ef.
  - unfold call. rewrite (Hcb f eq_refl).
    destruct (emit_returns EvReady ArgNone (add_call f ArgNone w1)) as (X1 & X2 & X3).
    { change (listeners_of EvReady (add_call f ArgNone w1)) with (listeners_of EvReady w1).
      now rewrite Hl. }
    change (listeners_of EvReady (add_call f ArgNone w1)) with (listeners_of EvReady w1) in X2.
    pose proof (emit_quiet EvReady ArgNone (add_call f ArgNone w1)) as (Q1 & Q2 & Q3 & Q4 & Q5).
    destruct (emit EvReady ArgNone (add_call f ArgNone w1)) as [o w3]; simpl in *. subst o.
    cbn [fst snd]. conjs; try reflexivity.
    + rewrite Q1, T1. reflexivity.
    + rewrite Q1, T1. reflexivity.
    + congruence.
    + rewrite X2, Hl. simpl. rewrite C1, <- app_assoc. reflexivity.
    + congruence.
    + congruence.
  - destruct (emit_returns EvReady ArgNone w1) as (X1 & X2 & X3); [now rewrite Hl|].
    pose proof (emit_quiet EvReady ArgNone w1) as (Q1 & Q2 & Q3 & Q4 & Q5).
    destruct (emit EvReady ArgNone w1) as [o w3]; simpl in *. subst o.
    cbn [fst snd]. conjs; try reflexivity.
    + rewrite Q1, T1. reflexivity.
    + rewrite Q1, T1. reflexivity.
    + congruence.
    + rewrite X2, Hl, C1. reflexivity.
    + congruence.
    + congruence.
Qed.

(** The reply that settles the promise. *)
Lemma run_reply_done (fuel : nat) (transport : Transport) (l : Loop)
  (config : option BullhornConfig) (r : Error + unit) (w' : World) :
  registrationPromise (this (world l)) = Some (AwaitReply config) ->
  performRegistration_reply config (transport (length (sent (world l)) - 1)%nat) (world l) =
    (Done r, w') ->
  run (S fuel) transport l =
  mkLoop (settle (Done r, w')) []
    (observed l ++ map (fun c => (c, resume r (settle (Done r, w')))) (waiters l)).
Proof.
  intros Hp Hr.
  rewrite (run_step_eq fuel transport l
             (mkLoop (settle (Done r, w')) []
                (observed l ++ map (fun c => (c, resume r (settle (Done r, w')))) (waiters l)))
             (Reply (transport (length (sent (world l)) - 1)%nat))).
  - apply run_stop. unfold pending, settle. open_world w'. reflexivity.
  - unfold next_event. now rewrite Hp.
  - unfold step. rewrite Hp, Hr. reflexivity.
Qed.

Lemma settle_done (r : Error + unit) (w : World) :
  let w' := settle (Done r, w) in
  registrationPromise (this w') = Some (Done r) /\
  isRegistered (this w') = isRegistered (this w) /\
  registrationAttempts (this w') = registrationAttempts (this w) /\
  sent w' = sent w /\ calls w' = calls w /\ emitted w' = emitted w /\
  listening w' = listening w.
Proof. unfold settle. open_world w. conjs; reflexivity. Qed.

(** The first call of [register] on an unregistered session, as one call. *)
Lemma register_first (transport : Transport) (config : option BullhornConfig) (w : World) :
  isInIframe (window w) = true ->
  isRegistered (this w) = false ->
  registrationPromise (this w) = None ->
  postRobot (this w) = true ->
  register transport config w =
  (outcome_of 0
     (observed (run registration_fuel transport
                  (mkLoop (settle (performRegistration_send config w)) [0%nat] []))),
   world (run registration_fuel transport
            (mkLoop (settle (performRegistration_send config w)) [0%nat] []))).
Proof.
  intros H1 H2 H3 H4. unfold register.
  rewrite step_first_call by assumption. reflexivity.
Qed.










(** *** One awaited call *)

Lemma resume_settled (r : Error + unit) (w : World) :
  (exists b, resume r w = Resolved b) \/ (exists e, resume r w = Rejected e).
Proof. destruct r; simpl; eauto. Qed.

(** A caller that waits alone gets the outcome of the promise. *)
Lemma run_alone (transport : Transport) (w : World) :
  pending w = true ->
  exists r,
    outcome_of 0 (observed (run registration_fuel transport (mkLoop w [0%nat] []))) =
    resume r (world (run registration_fuel transport (mkLoop w [0%nat] []))).
Proof.
  intros Hp.
  destruct (run_delivered registration_fuel transport (mkLoop w [0%nat] []) Hp
              (turns_left_bound w)) as (r & _ & _ & O).
  exists r. rewrite O. simpl. reflexivity.
Qed.

(** [register] settles, and on the way only [register] messages are sent. *)
Lemma register_total (transport : Transport) (config : option BullhornConfig) (w : World) :
  (register transport config w).1 <> Pending /\ evolves w (register transport config w).2.
Proof.
  assert (Hrun : forall w1, pending w1 = true ->
            let l' := run registration_fuel transport (mkLoop w1 [0%nat] []) in
            outcome_of 0 (observed l') <> Pending /\ evolves w1 (world l')).
  { intros w1 Hp. cbn zeta. split.
    - destruct (run_alone transport w1 Hp) as [r ->].
      destruct (resume_settled r (world (run registration_fuel transport
                                           (mkLoop w1 [0%nat] []))))
        as [[b ->]|[e ->]]; discriminate.
    - apply (run_evolves registration_fuel transport (mkLoop w1 [0%nat] [])). }
  unfold register, step. cbn [world waiters observed].
  destruct (negb (isInIframe (window w))).
  { simpl. split; [discriminate|apply evolves_refl]. }
  destruct (isRegistered (this w)).
  { simpl. split; [discriminate|apply evolves_refl]. }
  destruct (registrationPromise (this w)) as [t|] eqn:Et.
  - assert (Hw : forall w0 ws obs, wait 0 (mkLoop w0 ws obs) = mkLoop w0 (ws ++ [0%nat]) obs)
      by reflexivity.
    destruct t as [c|c|c|r]; rewrite ?Hw; cbn [observed outcome_of app world];
      try (apply Hrun; unfold pending; now rewrite Et).
    unfold observe. cbn [observed outcome_of app world]. rewrite Nat.eqb_refl.
    destruct (resume_settled r w) as [[b ->]|[e ->]];
      (split; [discriminate|apply evolves_refl]).
  - set (tw := performRegistration config w).
    assert (E : evolves w (settle tw)).
    { eapply evolves_trans; [apply performRegistration_evolves|apply settle_evolves]. }
    destruct (advance_cases tw (wait 0 (mkLoop w [] []))) as [(r & Hr & ->)|[Hp ->]].
    + cbn [observed waiters wait app map outcome_of world]. rewrite Nat.eqb_refl.
      destruct (resume_settled r (settle tw)) as [[b ->]|[e ->]];
        (split; [discriminate|exact E]).
    + cbn [observed waiters wait app map outcome_of world].
      destruct (Hrun (settle tw) Hp) as [A B].
      split; [exact A|]. eapply evolves_trans; eassumption.
Qed.

Lemma ensureRegistered_registered (transport : Transport) (w : World) :
  isInIframe (window w) = true ->
  isRegistered (this w) = true ->
  ensureRegistered transport w = (Resolved tt, w).
Proof. intros H1 H2. unfold ensureRegistered. rewrite H1, H2. simpl. now rewrite H2. Qed.

(** The gate passes with the session registered, or it fails; it never
    hangs, and it sends [register] messages only. *)
Lemma ensureRegistered_cases (transport : Transport) (w : World) :
  evolves w (ensureRegistered transport w).2 /\
  (((ensureRegistered transport w).1 = Resolved tt /\
    isRegistered (this (ensureRegistered transport w).2) = true) \/
   exists e, (ensureRegistered transport w).1 = Rejected e).
Proof.
  unfold ensureRegistered.
  destruct (negb (isInIframe (window w))).
  { simpl. split; [apply evolves_refl|eauto]. }
  destruct (isRegistered (this w)) eqn:Er; simpl.
  { rewrite Er. simpl. split; [apply evolves_refl|auto]. }
  destruct (register_total transport None w) as [A B].
  destruct (register transport None w) as [[b|e|] w']; simpl in *.
  - destruct (isRegistered (this w')) eqn:Er'; simpl; split; eauto.
  - split; eauto.
  - congruence.
Qed.

(** *** The request gateway *)







(** *** Sessions built by the constructor *)

Lemma constructed_sound (url_protocol : string -> option string)
  (config : option BullhornBridgeConfig) (win : Window) :
  sound (new_world (constructor url_protocol config win) win).
Proof. unfold sound. simpl. conjs; [discriminate|discriminate|intros c [H|H]; discriminate]. Qed.

Lemma loaded_in_frame_sound (w : World) :
  postRobot (this w) = true -> isInIframe (window w) = true -> sound w.
Proof. intros H1 H2. unfold sound. auto. Qed.

Lemma evolves_loaded_sound (w w' : World) :
  evolves w w' -> postRobot (this w) = true -> isInIframe (window w) = true -> sound w'.
Proof.
  intros [] H1 H2. apply loaded_in_frame_sound; [auto|congruence].
Qed.

Lemma step_sound (e : Event) (l l' : Loop) :
  sound (world l) -> step e l = Some l' -> sound (world l').
Proof.
  intros Hsound Hs. pose proof (step_evolves e l l' Hs) as Hev.
  unfold step in Hs. destruct e as [c config| | |o|].
  - destruct (isInIframe (window (world l))) eqn:Ei; simpl in Hs;
      [|injection Hs as <-; exact Hsound].
    destruct (isRegistered (this (world l))) eqn:Er; [injection Hs as <-; exact Hsound|].
    destruct (registrationPromise (this (world l))) as [t|] eqn:Et.
    + destruct t; injection Hs as <-; exact Hsound.
    + destruct (postRobot (this (world l))) eqn:Ep.
      * eapply evolves_loaded_sound; eassumption.
      * injection Hs as <-. rewrite world_advance.
        unfold performRegistration. rewrite Ep. unfold sound, settle.
        destruct l as [w ws obs]. open_world w. subst.
        conjs; [discriminate|auto|intros c0 [H|H]; discriminate].
  - injection Hs as <-. cbn [world] in *. unfold initializePostRobot_done in *.
    destruct (import_succeeds (window (world l))); [|exact Hsound].
    unfold sound in *. destruct l as [w ws obs]. open_world w.
    destruct Hsound as (S1 & S2 & S3). conjs; auto. intros H. split; [reflexivity|].
    now apply S1.
  - destruct (registrationPromise (this (world l))) as [[config| | |]|] eqn:Et;
      try discriminate.
    injection Hs as <-. rewrite world_advance in *.
    pose proof Hsound as (S1 & S2 & S3).
    pose proof (S2 _ Et) as Hi.
    unfold performRegistration_init in *.
    destruct (import_succeeds (window (world l))) eqn:Eimp.
    + apply loaded_in_frame_sound.
      * unfold settle, performRegistration_send, initializePostRobot_done. rewrite Eimp.
        destruct l as [w ws obs]. open_world w. reflexivity.
      * destruct Hev as []. congruence.
    + unfold sound, settle. destruct l as [w ws obs]. open_world w.
      conjs; [auto|auto|intros c0 [H|H]; discriminate].
  - destruct (registrationPromise (this (world l))) as [[|config| |]|] eqn:Et;
      try discriminate.
    pose proof Hsound as (S1 & S2 & S3).
    eapply evolves_loaded_sound; [exact Hev|eapply S3; eauto|eapply S2; eauto].
  - destruct (registrationPromise (this (world l))) as [[| |config|]|] eqn:Et;
      try discriminate.
    pose proof Hsound as (S1 & S2 & S3).
    eapply evolves_loaded_sound; [exact Hev|eapply S3; eauto|eapply S2; eauto].
Qed.

Lemma exec_sound (evs : list Event) (l l' : Loop) :
  sound (world l) -> exec evs l = Some l' -> sound (world l').
Proof.
  revert l. induction evs as [|e evs IH]; intros l Hs; simpl.
  - now intros [= <-].
  - destruct (step e l) as [l1|] eqn:E; [|discriminate].
    apply IH. eapply step_sound; eassumption.
Qed.

(** A verb call on a registered session with a valid URL: one message,
    and the payload of the reply. *)
Lemma httpGET_registered (transport : Transport) (relativeURL : string) (w : World)
  (reply : ResponseData) :
  isInIframe (window w) = true ->
  isRegistered (this w) = true ->
  postRobot (this w) = true ->
  RelativeUrl.validateRelativeUrl relativeURL = true ->
  transport (length (sent w)) = inr reply ->
  httpGET transport relativeURL w =
  (Resolved (response_data reply), add_sent (http_message "httpGET" relativeURL w) w).
Proof.
  intros H1 H2 H3 H4 H5. unfold httpGET.
  rewrite ensureRegistered_registered by assumption.
  rewrite H4, H3. unfold sendToParent. rewrite H5. reflexivity.
Qed.

Lemma run_sound (fuel : nat) (transport : Transport) (l : Loop) :
  sound (world l) -> sound (world (run fuel transport l)).
Proof.
  revert l. induction fuel as [|fuel IH]; intros l Hs; simpl; [exact Hs|].
  destruct (next_event transport (world l)) as [e|]; [|exact Hs].
  destruct (step e l) as [l1|] eqn:E; [|exact Hs].
  apply IH. eapply step_sound; eassumption.
Qed.

Lemma register_sound (transport : Transport) (config : option BullhornConfig) (w : World) :
  sound w -> sound (register transport config w).2.
Proof.
  intros Hs. unfold register.
  destruct (step (Call 0 config) (mkLoop w [] [])) as [l|] eqn:E; [|exact Hs].
  assert (Hl : sound (world l)) by (eapply step_sound; [|exact E]; exact Hs).
  destruct (outcome_of 0 (observed l)); cbn [fst snd]; try exact Hl.
  now apply run_sound.
Qed.

Lemma ensureRegistered_sound (transport : Transport) (w : World) :
  sound w -> sound (ensureRegistered transport w).2.
Proof.
  intros Hs. unfold ensureRegistered.
  destruct (negb (isInIframe (window w))); [exact Hs|].
  destruct (negb (isRegistered (this w))); simpl.
  - pose proof (register_sound transport None w Hs) as Hr.
    destruct (register transport None w) as [[b|e|] w']; simpl in *; try exact Hr.
    destruct (negb (isRegistered (this w'))); exact Hr.
  - destruct (negb (isRegistered (this w))); exact Hs.
Qed.

Lemma add_sent_sound (m : Message) (w : World) : sound w -> sound (add_sent m w).
Proof. intros Hs. exact Hs. Qed.

(** The verbs keep the invariant too. *)
Lemma http_sound (transport : Transport) (JSON_stringify : Js.value -> option string)
  (v : Verb) (relativeURL : string) (body : Js.value) (w : World) :
  sound w -> sound (http transport JSON_stringify v relativeURL body w).2.
Proof.
  intros Hs. pose proof (ensureRegistered_sound transport w Hs) as H1.
  destruct v; unfold http, httpGET, httpPOST, httpPUT, httpDELETE, sendToParent;
    destruct (ensureRegistered transport w) as [[[]|e|] w1]; cbn [fst snd] in *;
    try exact H1;
    destruct (negb (RelativeUrl.validateRelativeUrl relativeURL)); try exact H1;
    try (destruct (payload_check JSON_stringify body); try exact H1);
    destruct (negb (postRobot (this w1))); try exact H1;
    match goal with
    | |- context [transport ?k] => destruct (transport k); exact H1
    end.
Qed.

(** C6.  On a ready session (one that the constructor built and that the
    loop and the calls of the class have brought to the ready state, hence a
    sound one), [httpGET('/entity/Candidate/123')] sends one message, named
    [httpGET], with the payload [{relativeURL}] and the timeout 10000, and
    when the transport replies the call resolves with the [data] of the
    reply. *)
Theorem httpGET_after_registration (w : World) (transport : Transport)
  (reply : ResponseData) :
  sound w ->
  isReady w = true ->
  transport (length (sent w)) = inr reply ->
  let r := httpGET transport "/entity/Candidate/123" w in
  r.1 = Resolved (response_data reply) /\
  sent r.2 =
    sent w ++
    [mkMessage "httpGET" (Js.VObj [("relativeURL", Js.VStr "/entity/Candidate/123")])
       {| timeout := 10000; domain := Some (allowedOrigins (this w)) |}].
Proof.
  intros (S1 & _ & _) Hready Hreply. destruct (S1 Hready) as [Hp Hi].
  cbn zeta.
  rewrite (httpGET_registered transport "/entity/Candidate/123" w reply)
    by (try assumption; reflexivity).
  split; reflexivity.
Qed.

End RegistrationProperties.


(** ** Inbound events *)

(** C9.  An inbound [customEvent] from an allowed origin whose payload is
    the array [['<b>x</b>', 1]] reaches the listener as the object
    [{'0': 'bx/b', '1': 1}]: the strings are stripped and the elements are
    kept under their indices, but what is delivered is not an array. *)
Theorem sanitize_array_becomes_object :
  let w := Bridge.on Bridge.EvCustomEvent (Bridge.mkCallback 7 None) Facts.sample_session in
  let payload := Js.VArr [Js.VStr "<b>x</b>"; Js.VNum 1] in
  let delivered := Js.VObj [("0", Js.VStr "bx/b"); ("1", Js.VNum 1)] in
  (exists w',
      Bridge.handle_inbound Bridge.EvCustomEvent "https://app.bullhorn.com" payload w =
        Some (Bridge.Acknowledged, w') /\
      Bridge.calls w' = [(7%nat, Bridge.ArgData delivered)]) /\
  Sanitize.sanitizeEventData payload = delivered /\
  delivered <> Js.VArr [Js.VStr "bx/b"; Js.VNum 1].
Proof.
  cbn zeta. split; [|split].
  - eexists. split; vm_compute; reflexivity.
  - vm_compute. reflexivity.
  - discriminate.
Qed.

(** An inbound event from another origin is refused and reaches no
    listener. *)
Example inbound_unauthorized :
  let w := Bridge.on Bridge.EvCustomEvent (Bridge.mkCallback 7 None) Facts.sample_session in
  Bridge.handle_inbound Bridge.EvCustomEvent "https://evil.com" (Js.VStr "x") w =
  Some (Bridge.Refused (Bridge.mkError "Unauthorized origin"), w).
Proof. vm_compute. reflexivity. Qed.

(** ** The cases of the test suite *)

Section TestSuite.
Import Bridge Facts.

(** should skip registration when not in iframe *)
Example test_skip_outside_frame :
  register always_reply None (sample_world SameWindow) =
  (Resolved false, sample_world SameWindow).
Proof. vm_compute. reflexivity. Qed.

(** should register successfully with parent frame *)
Example test_register :
  let config := Some (mkConfig (Some "Test App") (Some "#ff0000") (Some "https://test.com")) in
  let r := register always_reply config sample_session in
  r.1 = Resolved true /\ isReady r.2 = true /\
  sent r.2 =
    [mkMessage "register"
       (Js.VObj [("title", Js.VStr "Test App"); ("url", Js.VStr "https://test.com");
                 ("color", Js.VStr "#ff0000")])
       {| timeout := 5000; domain := None |}].
Proof. vm_compute. auto. Qed.

(** should handle registration with default config *)
Example test_register_defaults :
  map data (sent (register always_reply None sample_session).2) =
  [Js.VObj [("title", Js.VStr "Custom Integration");
            ("url", Js.VStr "https://apps.example.com/tab");
            ("color", Js.VStr "#0070c0")]].
Proof. vm_compute. reflexivity. Qed.

(** should retry registration on failure *)
Example test_retry :
  let transport : Transport :=
    fun k => if (k <? 2)%nat then inl (mkError "Timeout") else inr (mkResponse Js.VNull) in
  let r := register transport None sample_session in
  r.1 = Resolved true /\ length (sent r.2) = 3%nat /\ timers r.2 = [500%nat; 500%nat].
Proof. vm_compute. auto. Qed.

(** should fail after maximum retry attempts *)
Example test_maximum_attempts :
  let r := register always_timeout None sample_session in
  r.1 = Rejected max_attempts_error /\ length (sent r.2) = 5%nat /\
  registrationAttempts (this r.2) = 4%nat.
Proof. vm_compute. auto. Qed.

(** should prevent double registration *)
Example test_double_registration :
  let r := register always_reply None sample_ready in
  r.1 = Resolved true /\ length (sent r.2) = 1%nat.
Proof. vm_compute. auto. Qed.

(** should call onReady callback after successful registration *)
Example test_onReady : calls sample_ready = [(1%nat, ArgNone)].
Proof. vm_compute. reflexivity. Qed.

(** should set up post-robot event listeners after registration *)
Example test_subscriptions :
  listening sample_ready =
  [("customEvent", Origin.default_allowedOrigins); ("update", Origin.default_allowedOrigins)].
Proof. vm_compute. reflexivity. Qed.

(** should add and remove event listeners *)
Example test_on_off :
  let listener1 := mkCallback 11 None in
  let listener2 := mkCallback 12 None in
  let w1 := on EvError listener1 (on EvReady listener2 (on EvReady listener1 sample_session)) in
  let w2 := (emit EvReady (ArgData (Js.VStr "data")) w1).2 in
  let w3 := (emit EvReady (ArgData (Js.VStr "data2")) (off EvReady listener1 w2)).2 in
  calls w3 =
  [(11%nat, ArgData (Js.VStr "data")); (12%nat, ArgData (Js.VStr "data"));
   (12%nat, ArgData (Js.VStr "data2"))].
Proof. vm_compute. reflexivity. Qed.

(** should make GET request through parent frame *)
Example test_httpGET :
  let transport : Transport :=
    fun _ => inr (mkResponse (Js.VObj [("data", Js.VNum 1); ("error", Js.VNull)])) in
  let r := httpGET transport "/entity/Candidate/123" sample_ready in
  r.1 = Resolved (Js.VObj [("data", Js.VNum 1); ("error", Js.VNull)]) /\
  map name (sent r.2) = ["register"; "httpGET"].
Proof. vm_compute. auto. Qed.

(** should validate and reject invalid URLs; should enforce URL length
    limits *)
Example test_invalid_urls :
  Forall (fun relativeURL =>
            httpGET always_reply relativeURL sample_ready =
            (Rejected (mkError "Invalid or unauthorized URL"), sample_ready))
    ["../../../etc/passwd"; "http://evil.com/api"; "/unauthorized/endpoint";
     String.append "/entity/" (JsString.repeat "a" 3000)].
Proof. repeat constructor; vm_compute; reflexivity. Qed.

(** should handle request failures *)
Example test_httpGET_failure :
  (httpGET always_timeout "/entity/Candidate/123" sample_ready).1 =
  Rejected (mkError "Failed to complete GET request").
Proof. vm_compute. reflexivity. Qed.

(** should reject oversized payloads *)
Example test_oversized_payload :
  let stringify : Js.value -> option string :=
    fun _ => Some (JsString.repeat "x" (1024 * 1024 + 1)) in
  httpPOST always_reply stringify "/entity/Candidate" Js.VNull sample_ready =
  (Rejected (mkError "Payload too large"), sample_ready).
Proof. vm_compute. reflexivity. Qed.

(** should require registration before making HTTP calls *)
Example test_outside_frame :
  (httpGET always_reply "/entity/Candidate/1" (sample_world SameWindow)).1 =
  Rejected (mkError "Not running in an iframe").
Proof. vm_compute. reflexivity. Qed.

(** should refresh parent Bullhorn view *)
Example test_refresh :
  let r := refresh always_reply sample_ready in
  r.1 = Resolved (Js.VStr "ok") /\
  last (sent r.2) = Some (mkMessage "refresh" (Js.VObj []) {| timeout := 5000; domain := None |}).
Proof. vm_compute. auto. Qed.

End TestSuite.

(** ** The statements at sample sessions *)





Lemma httpGET_after_registration_witness :
  let l :=
    Facts.after [Bridge.ModuleLoaded; Bridge.Call 0 None;
                 Bridge.Reply (inr (Bridge.mkResponse Js.VNull))]
      (Bridge.mkLoop Facts.sample_constructed [] []) in
  (Bridge.httpGET Facts.always_reply "/entity/Candidate/123" (Bridge.world l)).1 =
  Bridge.Resolved (Js.VStr "ok").
Proof.
  cbn zeta.
  apply (httpGET_after_registration _ Facts.always_reply (Bridge.mkResponse (Js.VStr "ok"))).
  - apply (exec_sound [Bridge.ModuleLoaded; Bridge.Call 0 None;
                       Bridge.Reply (inr (Bridge.mkResponse Js.VNull))]
             (Bridge.mkLoop Facts.sample_constructed [] [])).
    + apply constructed_sound.
    + vm_compute. reflexivity.
  - vm_compute. reflexivity.
  - reflexivity.
Defined.


(** * Further properties *)

(** Reduces the projections of a world built by the setters of [w]. *)
Ltac open_world w :=
  let b := fresh "b" in
  destruct w as [b ? ? ? ? ? ?]; destruct b;
  unfold Bridge.set_this, Bridge.add_sent, Bridge.add_listening, Bridge.add_timer,
    Bridge.add_call, Bridge.add_emitted, Bridge.set_postRobot, Bridge.set_isRegistered,
    Bridge.set_registrationPromise, Bridge.set_registrationAttempts,
    Bridge.set_eventListeners in *;
  simpl in *.

(** Splits the conjunctions of the goal and nothing else. *)
Ltac conjs := repeat match goal with |- _ /\ _ => split end.

(** ** Sanitisation of whole payloads *)

Section SanitizeDeep.
Import Js Sanitize Notions.









End SanitizeDeep.

(** ** Credentials of a session *)

Section CredentialInvariant.
Import Credentials Notions.

Variable url_protocol : string -> option string.

Lemma remove_chars_length (cls : ascii -> bool) (s : string) :
  (String.length (JsString.remove_chars cls s) <= String.length s)%nat.
Proof.
  induction s as [|c s IH]; simpl; [lia|]. destruct (cls c); simpl; lia.
Qed.

Lemma validateParam_ok (value : option string) (s : string) :
  validateParam value = Some s -> param_ok s.
Proof.
  unfold validateParam, param_ok. destruct value as [[|c v]|]; try discriminate.
  destruct (Nat.ltb_spec MAX_PARAM_LENGTH (String.length (String c v))) as [H|H];
    [discriminate|].
  intros [= <-]. split.
  - etransitivity; [exact (remove_chars_length dangerous_char (String c v))|exact H].
  - exact (remove_chars_clean dangerous_char (String c v)).
Qed.

Lemma validateToken_ok (token : option string) (s : string) :
  validateToken token = Some s -> token_ok s.
Proof.
  unfold validateToken, token_ok. destruct token as [[|c t]|]; try discriminate.
  destruct (JsString.test_class_plus token_char (String c t)) eqn:E1; [|discriminate].
  destruct (Nat.ltb_spec MAX_PARAM_LENGTH (String.length (String c t))) as [H|H];
    [discriminate|].
  intros [= <-]. split; [simpl in *; lia|exact E1].
Qed.

Lemma validateUrl_ok (url : option string) (s : string) :
  validateUrl url_protocol url = Some s -> url_ok url_protocol s.
Proof.
  unfold validateUrl, url_ok. destruct url as [[|c u]|]; try discriminate.
  destruct (url_protocol (String c u)) as [p|] eqn:E; [|discriminate].
  destruct (String.eqb_spec p "https:") as [->|]; [|discriminate].
  intros [= <-]. split; [discriminate|exact E].
Qed.

Lemma from_query_validated (urlParams : URLSearchParams) :
  validated url_protocol (from_query url_protocol urlParams).
Proof.
  intros k s. destruct k; simpl; intros H;
    eauto using validateParam_ok, validateToken_ok, validateUrl_ok.
Qed.

Lemma from_hash_validated (hashParams : URLSearchParams) (c : BullhornCredentials) (k : key) :
  validated url_protocol c -> validated url_protocol (from_hash url_protocol hashParams c k).
Proof.
  intros Hc. unfold from_hash. destruct (JsString.truthy (field k c)); [exact Hc|].
  intros k' s. destruct (key_eq_dec k k') as [<-|Hne].
  - destruct k; rewrite field_set_same; simpl;
      eauto using validateParam_ok, validateToken_ok, validateUrl_ok.
  - destruct k; rewrite field_set_other by exact Hne; apply Hc.
Qed.

(** What [extractCredentialsFromUrl] stores has been validated. *)
Lemma extracted_validated (urlParams hashParams : URLSearchParams) :
  validated url_protocol (extractCredentialsFromUrl url_protocol urlParams hashParams).
Proof.
  unfold extractCredentialsFromUrl.
  generalize (from_query_validated urlParams).
  generalize (from_query url_protocol urlParams) as c.
  induction keys as [|k ks IH]; intros c Hc; simpl; [exact Hc|].
  apply IH. now apply from_hash_validated.
Qed.

(** X4.  Whatever the query string and the fragment hold, every credential
    that [extractCredentialsFromUrl] sets has passed its validator: an id is
    at most 500 characters long and free of [<], [>], the quotes and [&]; the
    token is not empty, at most 500 characters long and made of letters,
    digits, [-], [_], [.] and [~]; the REST URL has the protocol [https:]. *)
Theorem credentials_validated (urlParams hashParams : URLSearchParams) :
  validated url_protocol (extractCredentialsFromUrl url_protocol urlParams hashParams).
Proof. apply extracted_validated. Qed.

End CredentialInvariant.

Section CredentialsKept.
Import Bridge Facts.

Lemma quiet_credentials (w w' : World) :
  quiet w w' -> credentials (this w') = credentials (this w).
Proof. intros (E & _). now rewrite E. Qed.

Lemma registration_failed_credentials (config : option BullhornConfig) (w : World) :
  credentials (this (registration_failed config w).2) = credentials (this w).
Proof.
  destruct (Nat.lt_ge_cases (registrationAttempts (this w)) maxRegistrationAttempts) as [H|H].
  - rewrite registration_failed_retry by exact H. open_world w. reflexivity.
  - apply quiet_credentials, registration_failed_last, H.
Qed.

Lemma registration_succeeded_credentials (config : option BullhornConfig) (w : World) :
  credentials (this (registration_succeeded config w).2) = credentials (this w).
Proof.
  unfold registration_succeeded.
  set (w1 := setupEventListeners _).
  assert (E1 : credentials (this w1) = credentials (this w)).
  { unfold w1, setupEventListeners. open_world w. destruct postRobot0; reflexivity. }
  assert (E2 : quiet w1 (match onReadyCallback (this w1) with
                         | Some f => call f ArgNone w1
                         | None => (None, w1)
                         end).2).
  { destruct (onReadyCallback (this w1)); [apply call_quiet|apply quiet_refl]. }
  destruct (match onReadyCallback (this w1) with
            | Some f => call f ArgNone w1
            | None => (None, w1)
            end) as [[e|] w2]; simpl in E2.
  - rewrite registration_failed_credentials, (quiet_credentials _ _ E2). exact E1.
  - pose proof (emit_quiet EvReady ArgNone w2) as Q.
    destruct (emit EvReady ArgNone w2) as [[e|] w3]; simpl in Q.
    + rewrite registration_failed_credentials, (quiet_credentials _ _ Q),
        (quiet_credentials _ _ E2). exact E1.
    + simpl. rewrite (quiet_credentials _ _ Q), (quiet_credentials _ _ E2). exact E1.
Qed.

Lemma settle_credentials (tw : Task * World) :
  credentials (this (settle tw)) = credentials (this tw.2).
Proof. destruct tw as [t w]. unfold settle. open_world w. reflexivity. Qed.

Lemma loaded_credentials (w : World) :
  credentials (this (initializePostRobot_done w)) = credentials (this w).
Proof.
  unfold initializePostRobot_done. destruct (import_succeeds (window w)); [|reflexivity].
  open_world w. reflexivity.
Qed.

Lemma performRegistration_credentials (config : option BullhornConfig) (w : World) :
  credentials (this (performRegistration config w).2) = credentials (this w).
Proof.
  unfold performRegistration, performRegistration_send.
  destruct (postRobot (this w)); [|reflexivity]. open_world w. reflexivity.
Qed.

Lemma step_credentials (e : Event) (l l' : Loop) :
  step e l = Some l' -> credentials (this (world l')) = credentials (this (world l)).
Proof.
  unfold step. destruct e as [c config| | |o|].
  - destruct (negb (isInIframe (window (world l)))); [now intros [= <-]|].
    destruct (isRegistered (this (world l))); [now intros [= <-]|].
    destruct (registrationPromise (this (world l))) as [[]|]; intros [= <-];
      try reflexivity.
    rewrite world_advance, settle_credentials. apply performRegistration_credentials.
  - intros [= <-]. apply loaded_credentials.
  - destruct (registrationPromise (this (world l))) as [[]|]; intros [= <-].
    rewrite world_advance, settle_credentials. unfold performRegistration_init.
    destruct (import_succeeds (window (world l))); [|reflexivity].
    unfold performRegistration_send. cbn [snd].
    change (credentials (this (add_sent (register_message config
              (initializePostRobot_done (world l))) (initializePostRobot_done (world l)))))
      with (credentials (this (initializePostRobot_done (world l)))).
    apply loaded_credentials.
  - destruct (registrationPromise (this (world l))) as [[]|]; intros [= <-].
    rewrite world_advance, settle_credentials.
    destruct o; [apply registration_failed_credentials
                |apply registration_succeeded_credentials].
  - destruct (registrationPromise (this (world l))) as [[]|]; intros [= <-].
    rewrite world_advance, settle_credentials. apply performRegistration_credentials.
Qed.

Lemma exec_credentials (evs : list Event) (l l' : Loop) :
  exec evs l = Some l' -> credentials (this (world l')) = credentials (this (world l)).
Proof.
  revert l. induction evs as [|e evs IH]; intros l; simpl; [now intros [= <-]|].
  destruct (step e l) as [l1|] eqn:E; [|discriminate].
  intros H. rewrite (IH l1 H). eapply step_credentials, E.
Qed.

Lemma run_credentials (fuel : nat) (transport : Transport) (l : Loop) :
  credentials (this (world (run fuel transport l))) = credentials (this (world l)).
Proof.
  revert l. induction fuel as [|fuel IH]; intros l; simpl; [reflexivity|].
  destruct (next_event transport (world l)) as [e|]; [|reflexivity].
  destruct (step e l) as [l1|] eqn:E; [|reflexivity].
  rewrite IH. eapply step_credentials, E.
Qed.

Lemma register_credentials (transport : Transport) (config : option BullhornConfig)
  (w : World) : credentials (this (register transport config w).2) = credentials (this w).
Proof.
  unfold register.
  destruct (step (Call 0 config) (mkLoop w [] [])) as [l|] eqn:E; [|reflexivity].
  pose proof (step_credentials _ _ _ E) as H. cbn [world] in H.
  destruct (outcome_of 0 (observed l)); cbn [fst snd]; try exact H.
  now rewrite run_credentials.
Qed.

Lemma ensureRegistered_credentials (transport : Transport) (w : World) :
  credentials (this (ensureRegistered transport w).2) = credentials (this w).
Proof.
  unfold ensureRegistered.
  destruct (negb (isInIframe (window w))); [reflexivity|].
  destruct (negb (isRegistered (this w))); simpl.
  - pose proof (register_credentials transport None w) as Hr.
    destruct (register transport None w) as [[b|e|] w']; simpl in *; try exact Hr.
    destruct (negb (isRegistered (this w'))); exact Hr.
  - destruct (negb (isRegistered (this w))); reflexivity.
Qed.

Lemma http_credentials (transport : Transport) (JSON_stringify : Js.value -> option string)
  (v : Verb) (relativeURL : string) (body : Js.value) (w : World) :
  credentials (this (http transport JSON_stringify v relativeURL body w).2) =
  credentials (this w).
Proof.
  pose proof (ensureRegistered_credentials transport w) as H1.
  destruct v; unfold http, httpGET, httpPOST, httpPUT, httpDELETE, sendToParent;
    destruct (ensureRegistered transport w) as [[[]|e|] w1]; cbn [fst snd] in *;
    try exact H1;
    destruct (negb (RelativeUrl.validateRelativeUrl relativeURL)); try exact H1;
    try (destruct (payload_check JSON_stringify body); try exact H1);
    destruct (negb (postRobot (this w1))); try exact H1;
    match goal with
    | |- context [transport ?k] => destruct (transport k); exact H1
    end.
Qed.

(** X5.  The credentials of a session are those that the constructor
    extracted (none outside of a frame), they are validated, and nothing that
    happens afterwards changes them: no turn of the loop, and no call of a
    verb. *)
Theorem credentials_immutable
  (url_protocol : string -> option string) (config : option BullhornBridgeConfig)
  (win : Window) (evs : list Event) (l : Loop) (transport : Transport)
  (JSON_stringify : Js.value -> option string) (v : Verb) (relativeURL : string)
  (body : Js.value) :
  exec evs (mkLoop (new_world (constructor url_protocol config win) win) [] []) = Some l ->
  let initial :=
    if isInIframe win
    then Credentials.extractCredentialsFromUrl url_protocol
           (location_search win) (location_hash win)
    else Credentials.no_credentials in
  getCredentials (world l) = initial /\
  getCredentials (http transport JSON_stringify v relativeURL body (world l)).2 = initial /\
  Notions.validated url_protocol initial.
Proof.
  intros Hx. cbn zeta. unfold getCredentials.
  rewrite http_credentials, (exec_credentials evs _ l Hx). cbn [world this new_world].
  split; [reflexivity|]. split; [reflexivity|].
  destruct (isInIframe win).
  - apply extracted_validated.
  - intros k s. destruct k; discriminate.
Qed.

End CredentialsKept.

(** ** Allowed origins *)

Section OriginFurther.
Import Origin Notions.

Lemma allowed_by_exact (origin allowed : string) :
  JsString.includes allowed "*" = false ->
  allowed_by origin allowed = Some (String.eqb origin allowed).
Proof. unfold allowed_by. now intros ->. Qed.

(** X6.  When no configured pattern holds a [*], an origin is allowed
    exactly when it is one of the patterns, character for character; with no
    pattern at all nothing is allowed. *)
Theorem isAllowedOrigin_exact (allowedOrigins : list string) (origin : string) :
  Forall (fun allowed => JsString.includes allowed "*" = false) allowedOrigins ->
  isAllowedOrigin allowedOrigins origin = Some (existsb (String.eqb origin) allowedOrigins) /\
  (isAllowedOrigin allowedOrigins origin = Some true <-> In origin allowedOrigins).
Proof.
  intros H. assert (E : isAllowedOrigin allowedOrigins origin =
                        Some (existsb (String.eqb origin) allowedOrigins)).
  { unfold isAllowedOrigin. induction H as [|a rest Ha _ IH]; [reflexivity|].
    simpl. rewrite (allowed_by_exact origin a Ha).
    destruct (String.eqb origin a); [reflexivity|exact IH]. }
  split; [exact E|]. rewrite E. split.
  - intros [= Hx]. apply existsb_exists in Hx as (a & Hin & Heq).
    apply String.eqb_eq in Heq. now subst.
  - intros Hin. f_equal. apply existsb_exists. exists origin. split; [exact Hin|].
    apply String.eqb_refl.
Qed.

Lemma prefix_app (pre rest : string) : String.prefix pre (String.append pre rest) = true.
Proof.
  induction pre as [|c pre IH]; simpl; [now destruct rest|].
  destruct (ascii_dec c c); [exact IH|congruence].
Qed.




End OriginFurther.

(** ** Listeners *)

Section ListenerProperties.
Import Bridge Facts.

Lemma event_name_inj (ev ev' : EventType) : event_name ev = event_name ev' -> ev = ev'.
Proof. destruct ev, ev'; simpl; intros H; try reflexivity; discriminate H. Qed.


Lemma remove_first_unknown (f : Callback) (fs : list Callback) :
  Forall (fun g => cb_id g <> cb_id f) fs -> remove_first f fs = fs.
Proof.
  intros H. induction H as [|g rest Hg _ IH]; [reflexivity|]. simpl.
  destruct (Nat.eqb_spec (cb_id g) (cb_id f)); [contradiction|]. now rewrite IH.
Qed.

Lemma remove_first_split (f g : Callback) (pre post : list Callback) :
  Forall (fun h => cb_id h <> cb_id f) pre -> cb_id g = cb_id f ->
  remove_first f (pre ++ g :: post) = pre ++ post.
Proof.
  intros H Hg. induction H as [|h rest Hh _ IH]; simpl.
  - now rewrite Hg, Nat.eqb_refl.
  - destruct (Nat.eqb_spec (cb_id h) (cb_id f)); [contradiction|]. now rewrite IH.
Qed.

Lemma listeners_of_off (ev : EventType) (f : Callback) (w : World) :
  listeners_of ev (off ev f w) = remove_first f (listeners_of ev w).
Proof.
  unfold listeners_of, off.
  destruct (eventListeners (this w) !! event_name ev) as [fs|] eqn:E.
  - cbn [this set_this eventListeners set_eventListeners]. now rewrite lookup_insert_eq.
  - now rewrite E.
Qed.

Lemma listeners_of_off_other (ev ev' : EventType) (f : Callback) (w : World) :
  ev' <> ev -> listeners_of ev' (off ev f w) = listeners_of ev' w.
Proof.
  intros Hne. unfold listeners_of, off.
  destruct (eventListeners (this w) !! event_name ev) as [fs|] eqn:E; [|reflexivity].
  cbn [this set_this eventListeners set_eventListeners].
  rewrite lookup_insert_ne; [reflexivity|]. intros H. apply event_name_inj in H. congruence.
Qed.

(** X8.  [off] takes out the first registration of the callback under the
    event and nothing else: the listeners before and after it keep their
    order, a second registration of the same callback stays, and the
    listeners of the other events are not touched. *)
Theorem off_removes_first (ev : EventType) (f g : Callback) (pre post : list Callback)
  (w : World) :
  listeners_of ev w = pre ++ g :: post ->
  Forall (fun h => cb_id h <> cb_id f) pre ->
  cb_id g = cb_id f ->
  listeners_of ev (off ev f w) = pre ++ post /\
  forall ev', ev' <> ev -> listeners_of ev' (off ev f w) = listeners_of ev' w.
Proof.
  intros Hl Hpre Hg. split.
  - rewrite listeners_of_off, Hl. now apply remove_first_split.
  - intros ev' Hne. now apply listeners_of_off_other.
Qed.

(** X9.  [off] with a callback that is not registered under the event
    changes nothing at all. *)
Theorem off_unknown (ev : EventType) (f : Callback) (w : World) :
  Forall (fun h => cb_id h <> cb_id f) (listeners_of ev w) ->
  off ev f w = w.
Proof.
  unfold listeners_of, off. intros H.
  destruct (eventListeners (this w) !! event_name ev) as [fs|] eqn:E; [|reflexivity].
  simpl in H. rewrite (remove_first_unknown f fs H), (insert_id _ _ _ E).
  destruct w as [[] ? ? ? ? ? ?]. reflexivity.
Qed.


Lemma forEach_call_throws (pre post : list Callback) (f : Callback) (e : Error) (a : Arg)
  (w : World) :
  Forall returns pre -> cb_throws f = Some e ->
  (forEach_call (pre ++ f :: post) a w).1 = Some e /\
  calls (forEach_call (pre ++ f :: post) a w).2 = calls w ++ calls_of (pre ++ [f]) a.
Proof.
  intros H Hf. revert w. induction H as [|g rest Hg _ IH]; intros w; simpl.
  - rewrite Hf. simpl. auto.
  - unfold returns in Hg. rewrite Hg.
    destruct (IH (add_call g a w)) as [E1 E2]. rewrite E1, E2. simpl.
    now rewrite <- app_assoc.
Qed.

(** X11.  When a listener throws, [emit] throws its error: the listeners
    before it have been called, the listeners after it are not called. *)
Theorem emit_stops_at_throw (ev : EventType) (a : Arg) (w : World)
  (pre post : list Callback) (f : Callback) (e : Error) :
  listeners_of ev w = pre ++ f :: post ->
  Forall returns pre ->
  cb_throws f = Some e ->
  (emit ev a w).1 = Some e /\
  calls (emit ev a w).2 = calls w ++ calls_of (pre ++ [f]) a.
Proof.
  unfold listeners_of, emit. cbn [this add_emitted]. intros Hl Hpre Hf.
  destruct (eventListeners (this w) !! event_name ev) as [fs|]; simpl in Hl.
  - subst fs. exact (forEach_call_throws pre post f e a (add_emitted ev a w) Hpre Hf).
  - now destruct pre.
Qed.


End ListenerProperties.

(** ** The course of a registration *)

Section RegistrationFurther.
Import Bridge Facts Notions.

(** What a reply does: it settles the promise, or it counts the attempt
    and sets the timer; it sends nothing. *)
Lemma registration_failed_shape (config : option BullhornConfig) (w : World) :
  let r := registration_failed config w in
  sent r.2 = sent w /\
  ((exists x, r.1 = Done x) /\
   timers r.2 = timers w /\
   registrationAttempts (this r.2) = registrationAttempts (this w) \/
   r.1 = AwaitTimer config /\
   (registrationAttempts (this w) < maxRegistrationAttempts)%nat /\
   timers r.2 = timers w ++ [waitTime] /\
   registrationAttempts (this r.2) = S (registrationAttempts (this w))).
Proof.
  cbn zeta.
  destruct (Nat.lt_ge_cases (registrationAttempts (this w)) maxRegistrationAttempts) as [H|H].
  - rewrite registration_failed_retry by exact H. split; [open_world w; reflexivity|].
    right. conjs; try assumption; open_world w; reflexivity.
  - destruct (registration_failed_last config w H) as [[e He] (Q1 & Q2 & Q3 & Q4 & Q5)].
    split; [exact Q3|]. left. conjs; [eauto|exact Q5|now rewrite Q1].
Qed.

Lemma registration_succeeded_shape (config : option BullhornConfig) (w : World) :
  let r := registration_succeeded config w in
  sent r.2 = sent w /\
  isRegistered (this r.2) = true /\
  ((exists x, r.1 = Done x) /\
   timers r.2 = timers w /\
   registrationAttempts (this r.2) = registrationAttempts (this w) \/
   r.1 = AwaitTimer config /\
   (registrationAttempts (this w) < maxRegistrationAttempts)%nat /\
   timers r.2 = timers w ++ [waitTime] /\
   registrationAttempts (this r.2) = S (registrationAttempts (this w))).
Proof.
  cbn zeta. unfold registration_succeeded.
  set (w1 := setupEventListeners _).
  assert (E1 : sent w1 = sent w /\ timers w1 = timers w /\
               registrationAttempts (this w1) = registrationAttempts (this w) /\
               isRegistered (this w1) = true).
  { unfold w1, setupEventListeners. open_world w. destruct postRobot0; auto. }
  destruct E1 as (A1 & A2 & A3 & A4).
  assert (E2 : quiet w1 (match onReadyCallback (this w1) with
                         | Some f => call f ArgNone w1
                         | None => (None, w1)
                         end).2).
  { destruct (onReadyCallback (this w1)); [apply call_quiet|apply quiet_refl]. }
  assert (Hfail : forall w3, quiet w1 w3 ->
            sent (registration_failed config w3).2 = sent w /\
            isRegistered (this (registration_failed config w3).2) = true /\
            ((exists x, (registration_failed config w3).1 = Done x) /\
             timers (registration_failed config w3).2 = timers w /\
             registrationAttempts (this (registration_failed config w3).2) =
               registrationAttempts (this w) \/
             (registration_failed config w3).1 = AwaitTimer config /\
             (registrationAttempts (this w) < maxRegistrationAttempts)%nat /\
             timers (registration_failed config w3).2 = timers w ++ [waitTime] /\
             registrationAttempts (this (registration_failed config w3).2) =
               S (registrationAttempts (this w)))).
  { intros w3 (Q1 & Q2 & Q3 & Q4 & Q5).
    destruct (registration_failed_shape config w3) as [F1 F2].
    pose proof (registration_failed_evolves config w3) as Ev.
    rewrite Q1, Q3, Q5, ?A1, ?A2, ?A3 in *.
    conjs; [exact F1| |exact F2].
    apply (ev_isRegistered _ _ Ev). now rewrite Q1. }
  destruct (match onReadyCallback (this w1) with
            | Some f => call f ArgNone w1
            | None => (None, w1)
            end) as [[e|] w2]; simpl in E2.
  - now apply Hfail.
  - pose proof (emit_quiet EvReady ArgNone w2) as Q.
    destruct (emit EvReady ArgNone w2) as [[e|] w3]; simpl in Q.
    + apply Hfail. eapply quiet_trans; eassumption.
    + destruct (quiet_trans _ _ _ E2 Q) as (Q1 & Q2 & Q3 & Q4 & Q5).
      cbn [fst snd]. rewrite Q1, Q3, Q5. conjs; [exact A1|exact A4|].
      left. conjs; [eauto|exact A2|exact A3].
Qed.

Lemma reply_shape (config : option BullhornConfig) (o : Outcome) (w : World) :
  let r := performRegistration_reply config o w in
  sent r.2 = sent w /\
  ((exists x, r.1 = Done x) /\
   timers r.2 = timers w /\
   registrationAttempts (this r.2) = registrationAttempts (this w) \/
   r.1 = AwaitTimer config /\
   (registrationAttempts (this w) < maxRegistrationAttempts)%nat /\
   timers r.2 = timers w ++ [waitTime] /\
   registrationAttempts (this r.2) = S (registrationAttempts (this w))).
Proof.
  destruct o as [e|reply]; simpl.
  - apply registration_failed_shape.
  - destruct (registration_succeeded_shape config w) as (A & _ & B). auto.
Qed.

(** The facts of [settle]. *)
Lemma settle_fields (tw : Task * World) :
  registrationPromise (this (settle tw)) = Some tw.1 /\
  sent (settle tw) = sent tw.2 /\
  timers (settle tw) = timers tw.2 /\
  registrationAttempts (this (settle tw)) = registrationAttempts (this tw.2) /\
  isRegistered (this (settle tw)) = isRegistered (this tw.2) /\
  window (settle tw) = window tw.2.
Proof. destruct tw as [t w]. unfold settle. open_world w. conjs; reflexivity. Qed.

Lemma loaded_fields (w : World) :
  registrationPromise (this (initializePostRobot_done w)) = registrationPromise (this w) /\
  sent (initializePostRobot_done w) = sent w /\
  timers (initializePostRobot_done w) = timers w /\
  registrationAttempts (this (initializePostRobot_done w)) = registrationAttempts (this w) /\
  isRegistered (this (initializePostRobot_done w)) = isRegistered (this w) /\
  window (initializePostRobot_done w) = window w.
Proof.
  unfold initializePostRobot_done. destruct (import_succeeds (window w)); [|conjs; reflexivity].
  open_world w. conjs; reflexivity.
Qed.

(** The first handshake of [performRegistration]: sent, or waiting for the
    import. *)
Lemma perform_shape (config : option BullhornConfig) (w : World) :
  let r := performRegistration config w in
  timers r.2 = timers w /\
  registrationAttempts (this r.2) = registrationAttempts (this w) /\
  (r.1 = AwaitReply config /\ sent r.2 = sent w ++ [register_message config w] \/
   r.1 = AwaitInit config /\ sent r.2 = sent w).
Proof.
  cbn zeta. unfold performRegistration, performRegistration_send.
  destruct (postRobot (this w)); [|auto]. open_world w. auto.
Qed.

Lemma init_shape (config : option BullhornConfig) (w : World) :
  let r := performRegistration_init config w in
  timers r.2 = timers w /\
  registrationAttempts (this r.2) = registrationAttempts (this w) /\
  (r.1 = AwaitReply config /\ length (sent r.2) = S (length (sent w)) \/
   (exists x, r.1 = Done x) /\ sent r.2 = sent w).
Proof.
  cbn zeta. unfold performRegistration_init, performRegistration_send.
  destruct (loaded_fields w) as (L1 & L2 & L3 & L4 & L5 & L6).
  destruct (import_succeeds (window w)); [|eauto 6].
  cbn [fst snd]. conjs.
  - now rewrite <- L3.
  - now rewrite <- L4.
  - left. split; [reflexivity|].
    change (sent (add_sent ?m ?x)) with (sent x ++ [m]).
    rewrite length_app, L2. simpl. lia.
Qed.

(** One turn never raises the number of handshakes sent and still to send,
    and every timer it sets is the fixed wait, one for each attempt that it
    counts. *)
Lemma step_budget (e : Event) (l l' : Loop) :
  step e l = Some l' ->
  (length (sent (world l')) + sends_left (world l') <=
   length (sent (world l)) + sends_left (world l))%nat /\
  exists n,
    timers (world l') = timers (world l) ++ List.repeat waitTime n /\
    registrationAttempts (this (world l')) = (registrationAttempts (this (world l)) + n)%nat.
Proof.
  assert (Hsame : forall w, (length (sent w) + sends_left w <= length (sent w) + sends_left w)%nat /\
            exists n, timers w = timers w ++ List.repeat waitTime n /\
                      registrationAttempts (this w) = (registrationAttempts (this w) + n)%nat).
  { intros w. split; [lia|]. exists 0%nat. simpl. rewrite app_nil_r. split; [reflexivity|lia]. }
  unfold step. destruct e as [c config| | |o|].
  - destruct (negb (isInIframe (window (world l)))); [intros [= <-]; apply Hsame|].
    destruct (isRegistered (this (world l))); [intros [= <-]; apply Hsame|].
    destruct (registrationPromise (this (world l))) as [t|] eqn:Et.
    + destruct t; intros [= <-]; apply Hsame.
    + intros [= <-]. rewrite world_advance.
      destruct (settle_fields (performRegistration config (world l)))
        as (S1 & S2 & S3 & S4 & _).
      destruct (perform_shape config (world l)) as (P1 & P2 & P3).
      unfold sends_left. rewrite S1, S2, S3, S4, P1, P2, Et. split.
      * destruct P3 as [[-> ->]|[-> ->]]; rewrite ?length_app; simpl; lia.
      * exists 0%nat. simpl. rewrite app_nil_r. split; [reflexivity|lia].
  - intros [= <-]. cbn [world].
    destruct (loaded_fields (world l)) as (L1 & L2 & L3 & L4 & _).
    unfold sends_left. rewrite L1, L2, L3, L4. split; [lia|].
    exists 0%nat. simpl. rewrite app_nil_r. split; [reflexivity|lia].
  - destruct (registrationPromise (this (world l))) as [[config| | |]|] eqn:Et;
      try discriminate.
    intros [= <-]. rewrite world_advance.
    destruct (settle_fields (performRegistration_init config (world l)))
      as (S1 & S2 & S3 & S4 & _).
    destruct (init_shape config (world l)) as (P1 & P2 & P3).
    unfold sends_left. rewrite S1, S3, S4, P1, P2, Et. split.
    + rewrite S2. destruct P3 as [[-> ->]|[[x ->] ->]]; simpl; lia.
    + exists 0%nat. simpl. rewrite app_nil_r. split; [reflexivity|lia].
  - destruct (registrationPromise (this (world l))) as [[|config| |]|] eqn:Et;
      try discriminate.
    intros [= <-]. rewrite world_advance.
    destruct (settle_fields (performRegistration_reply config o (world l)))
      as (S1 & S2 & S3 & S4 & _).
    destruct (reply_shape config o (world l)) as (P1 & P2).
    unfold sends_left. rewrite S1, S2, S3, S4, P1, Et.
    destruct P2 as [([x ->] & T & A)|(-> & Hlt & T & A)]; rewrite T, A.
    + split; [lia|]. exists 0%nat. simpl. rewrite app_nil_r. split; [reflexivity|lia].
    + split; [lia|]. exists 1%nat. simpl. split; [reflexivity|lia].
  - destruct (registrationPromise (this (world l))) as [[| |config|]|] eqn:Et;
      try discriminate.
    intros [= <-]. rewrite world_advance.
    destruct (settle_fields (performRegistration config (world l)))
      as (S1 & S2 & S3 & S4 & _).
    destruct (perform_shape config (world l)) as (P1 & P2 & P3).
    unfold sends_left. rewrite S1, S2, S3, S4, P1, P2, Et. split.
    + destruct P3 as [[-> ->]|[-> ->]]; rewrite ?length_app; simpl; lia.
    + exists 0%nat. simpl. rewrite app_nil_r. split; [reflexivity|lia].
Qed.

Lemma exec_budget (evs : list Event) (l l' : Loop) :
  exec evs l = Some l' ->
  (length (sent (world l')) + sends_left (world l') <=
   length (sent (world l)) + sends_left (world l))%nat /\
  exists n,
    timers (world l') = timers (world l) ++ List.repeat waitTime n /\
    registrationAttempts (this (world l')) = (registrationAttempts (this (world l)) + n)%nat.
Proof.
  revert l. induction evs as [|e evs IH]; intros l; simpl.
  - intros [= <-]. split; [lia|]. exists 0%nat. simpl. rewrite app_nil_r.
    split; [reflexivity|lia].
  - destruct (step e l) as [l1|] eqn:E; [|discriminate]. intros Hx.
    destruct (step_budget e l l1 E) as (A1 & n1 & A2 & A3).
    destruct (IH l1 Hx) as (B1 & n2 & B2 & B3).
    split; [lia|]. exists (n1 + n2)%nat.
    rewrite B2, A2, B3, A3, <- app_assoc, repeat_app. split; [reflexivity|lia].
Qed.

(** X13.  Whatever happens to a session after its construction (any
    number of [register] calls, any replies), it sends at most five [register]
    messages, and it never counts more than four attempts. *)
Theorem handshakes_bounded
  (url_protocol : string -> option string) (config : option BullhornBridgeConfig)
  (win : Window) (evs : list Event) (l : Loop) :
  exec evs (mkLoop (new_world (constructor url_protocol config win) win) [] []) = Some l ->
  (length (sent (world l)) <= S maxRegistrationAttempts)%nat /\
  Forall (fun m => name m = "register") (sent (world l)) /\
  (registrationAttempts (this (world l)) <= maxRegistrationAttempts)%nat.
Proof.
  intros Hx. destruct (exec_budget evs _ l Hx) as (A & n & T & N).
  pose proof (exec_evolves evs _ l Hx) as Ev.
  destruct (ev_sent _ _ Ev) as (extra & E1 & E2).
  cbn [world new_world sent this constructor registrationAttempts timers] in *.
  unfold sends_left in A at 2. cbn in A.
  conjs.
  - unfold maxRegistrationAttempts in *. lia.
  - rewrite E1. exact E2.
  - assert (Hinv : forall evs l0 l1, exec evs l0 = Some l1 ->
              (registrationAttempts (this (world l0)) <= maxRegistrationAttempts)%nat ->
              (registrationAttempts (this (world l1)) <= maxRegistrationAttempts)%nat).
    { clear. induction evs as [|e evs IH]; intros l0 l1; simpl.
      - now intros [= <-].
      - destruct (step e l0) as [l2|] eqn:E; [|discriminate]. intros Hx H0.
        apply (IH l2 l1 Hx).
        assert (Hs : registrationAttempts (this (world l2)) =
                       registrationAttempts (this (world l0)) \/
                     (registrationAttempts (this (world l0)) < maxRegistrationAttempts)%nat /\
                     registrationAttempts (this (world l2)) =
                       S (registrationAttempts (this (world l0)))).
        { unfold step in E. destruct e as [c config| | |o|].
          - destruct (negb (isInIframe (window (world l0)))); [injection E as <-; auto|].
            destruct (isRegistered (this (world l0))); [injection E as <-; auto|].
            destruct (registrationPromise (this (world l0))) as [[]|];
              injection E as <-; auto.
            rewrite world_advance.
            destruct (settle_fields (performRegistration config (world l0)))
              as (_ & _ & _ & S4 & _).
            destruct (perform_shape config (world l0)) as (_ & P2 & _).
            left. congruence.
          - injection E as <-. left. apply loaded_fields.
          - destruct (registrationPromise (this (world l0))) as [[config| | |]|];
              try discriminate.
            injection E as <-. rewrite world_advance.
            destruct (settle_fields (performRegistration_init config (world l0)))
              as (_ & _ & _ & S4 & _).
            destruct (init_shape config (world l0)) as (_ & P2 & _).
            left. congruence.
          - destruct (registrationPromise (this (world l0))) as [[|config| |]|];
              try discriminate.
            injection E as <-. rewrite world_advance.
            destruct (settle_fields (performRegistration_reply config o (world l0)))
              as (_ & _ & _ & S4 & _).
            destruct (reply_shape config o (world l0)) as (_ & [(_ & _ & A)|(_ & Hlt & _ & A)]).
            + left. congruence.
            + right. split; [exact Hlt|congruence].
          - destruct (registrationPromise (this (world l0))) as [[| |config|]|];
              try discriminate.
            injection E as <-. rewrite world_advance.
            destruct (settle_fields (performRegistration config (world l0)))
              as (_ & _ & _ & S4 & _).
            destruct (perform_shape config (world l0)) as (_ & P2 & _).
            left. congruence. }
        destruct Hs as [->|[Hlt ->]]; lia. }
    apply (Hinv evs _ l Hx). cbn. lia.
Qed.

(** X14.  The wait between two attempts is the same every time: whatever
    happens, the timers that a session sets are all of 500 ms, and there is
    one of them for every attempt that it counts. *)
Theorem backoff_fixed (evs : list Event) (l l' : Loop) :
  exec evs l = Some l' ->
  exists n,
    timers (world l') = timers (world l) ++ List.repeat 500%nat n /\
    registrationAttempts (this (world l')) = (registrationAttempts (this (world l)) + n)%nat.
Proof. intros Hx. exact (proj2 (exec_budget evs l l' Hx)). Qed.

End RegistrationFurther.

(** ** The first handshake *)

Section FirstHandshake.
Import Bridge Facts Notions.

(** The session at the moment its first handshake is under way. *)
Lemma first_handshake_wiring (w : World) (transport : Transport)
  (config : option BullhornConfig) :
  isInIframe (window w) = true ->
  isRegistered (this w) = false ->
  registrationPromise (this w) = None ->
  postRobot (this w) = true \/ import_succeeds (window w) = true ->
  exists w1 fuel,
    register transport config w =
      (outcome_of 0 (observed (run (S fuel) transport (mkLoop w1 [0%nat] []))),
       world (run (S fuel) transport (mkLoop w1 [0%nat] []))) /\
    (2 * maxRegistrationAttempts + 1 <= fuel)%nat /\
    registrationPromise (this w1) = Some (AwaitReply config) /\
    postRobot (this w1) = true /\
    registrationAttempts (this w1) = registrationAttempts (this w) /\
    sent w1 = sent w ++ [register_message config w] /\
    calls w1 = calls w /\ emitted w1 = emitted w /\
    listening w1 = listening w /\ timers w1 = timers w /\
    evolves w w1.
Proof.
  intros H1 H2 H3 H4. destruct (postRobot (this w)) eqn:Ep.
  - exists (settle (performRegistration_send config w)), (2 * maxRegistrationAttempts + 2)%nat.
    split; [apply register_first; assumption|].
    split; [lia|].
    split; [|split; [|split; [|split; [|split; [|split; [|split; [|split]]]]]]];
      try (unfold settle, performRegistration_send; clear -Ep;
           destruct w as [b ? ? ? ? ? ?]; destruct b; first [reflexivity|exact Ep]).
    eapply evolves_trans; [apply performRegistration_send_evolves|apply settle_evolves].
  - destruct H4 as [H4|H4]; [discriminate|].
    set (w0 := settle (AwaitInit config, w)).
    set (w1 := settle (performRegistration_send config (initializePostRobot_done w0))).
    assert (E0 : registrationPromise (this w0) = Some (AwaitInit config) /\
                 window w0 = window w).
    { unfold w0, settle. clear. open_world w. auto. }
    destruct E0 as (E1 & E2).
    exists w1, (2 * maxRegistrationAttempts + 1)%nat.
    split.
    { unfold register, step. cbn [world]. rewrite H1, H2, H3. simpl negb. cbv iota.
      unfold performRegistration. rewrite Ep.
      change (advance (AwaitInit config, w) (wait 0 (mkLoop w [] [])))
        with (mkLoop w0 [0%nat] []).
      cbn [observed outcome_of].
      change registration_fuel with (S (S (2 * maxRegistrationAttempts + 1))).
      rewrite (run_step_eq _ transport (mkLoop w0 [0%nat] []) (mkLoop w1 [0%nat] [])
                 ImportDone); [reflexivity| |].
      - unfold next_event. cbn [world]. now rewrite E1.
      - unfold step. cbn [world]. rewrite E1. unfold performRegistration_init.
        rewrite E2, H4. reflexivity. }
    split; [lia|].
    split; [|split; [|split; [|split; [|split; [|split; [|split; [|split]]]]]]];
      try (unfold w1, initializePostRobot_done; rewrite E2, H4;
           unfold w0, settle, performRegistration_send;
           destruct w as [b ? ? ? ? ? ?]; destruct b; reflexivity).
    unfold w1. eapply evolves_trans; [|apply settle_evolves].
    eapply evolves_trans; [|apply performRegistration_send_evolves].
    eapply evolves_trans; [|apply initializePostRobot_done_evolves].
    apply (settle_evolves (AwaitInit config, w)).
Qed.

(** X15.  A first handshake that the host accepts: [register] resolves to
    true after one message, the session is ready, it listens to
    [customEvent] and [update] from the allowed origins, the ready callback
    is called once and before the [ready] listeners, and no attempt is
    counted and no timer set. *)
Theorem register_accepted
  (transport : Transport) (config : option BullhornConfig) (w : World)
  (reply : ResponseData) :
  isInIframe (window w) = true ->
  isRegistered (this w) = false ->
  registrationPromise (this w) = None ->
  postRobot (this w) = true \/ import_succeeds (window w) = true ->
  ready_returns w ->
  transport (length (sent w)) = inr reply ->
  let r := register transport config w in
  r.1 = Resolved true /\
  isReady r.2 = true /\
  sent r.2 = sent w ++ [register_message config w] /\
  listening r.2 =
    listening w ++
    [("customEvent", allowedOrigins (this w)); ("update", allowedOrigins (this w))] /\
  calls r.2 =
    calls w ++ calls_of (option_list (onReadyCallback (this w))) ArgNone
            ++ calls_of (listeners_of EvReady w) ArgNone /\
  emitted r.2 = emitted w ++ [(EvReady, ArgNone)] /\
  timers r.2 = timers w /\
  registrationAttempts (this r.2) = registrationAttempts (this w).
Proof.
  intros H1 H2 H3 H4 Hr Ht. cbn zeta.
  destruct (first_handshake_wiring w transport config H1 H2 H3 H4)
    as (w1 & fuel & -> & _ & P & L & A & S & C & E & Li & T & Ev).
  pose proof (ready_returns_evolves _ _ Ev Hr) as [R1 R2].
  destruct (registration_succeeded_returns config w1 R1 R2)
    as (D1 & D2 & D3 & D4 & D5 & D6 & D7).
  destruct (registration_succeeded config w1) as [t w2] eqn:Es. cbn [fst snd] in *. subst t.
  rewrite (run_reply_done fuel transport (mkLoop w1 [0%nat] []) config (inr tt) w2).
  - cbn [world observed waiters fst snd map app outcome_of Nat.eqb resume].
    destruct (settle_done (inr tt) w2) as (Q1 & Q2 & Q3 & Q4 & Q5 & Q6 & Q7).
    destruct (settle_fields (Done (inr tt), w2)) as (_ & _ & Q8 & _).
    cbn [fst snd] in Q8.
    assert (Q9 : timers w2 = timers w1).
    { destruct (registration_succeeded_shape config w1) as (_ & _ & Sh).
      rewrite Es in Sh. cbn [fst snd] in Sh.
      destruct Sh as [(_ & Sh & _)|(Sh & _)]; [exact Sh|discriminate]. }
    unfold isReady. rewrite Q2, Q3, Q4, Q5, Q6, Q7, Q8, Q9, D2, D3, D4, D5, D6, D7, L.
    rewrite S, C, E, Li, T, A, (ev_onReady _ _ Ev), (ev_origins _ _ Ev),
      (listeners_of_evolves _ _ _ Ev).
    conjs; reflexivity.
  - exact P.
  - cbn [world]. rewrite S, length_app. simpl length.
    replace (length (sent w) + 1 - 1)%nat with (length (sent w)) by lia.
    rewrite Ht. exact Es.
Qed.

(** X16.  When the library is not loaded and its import fails, [register]
    rejects with the initialisation error: nothing is sent, no attempt is
    counted, no timer is set, and neither the error callback nor an [error]
    listener hears of it. *)
Theorem register_import_failure
  (transport : Transport) (config : option BullhornConfig) (w : World) :
  isInIframe (window w) = true ->
  isRegistered (this w) = false ->
  registrationPromise (this w) = None ->
  postRobot (this w) = false ->
  import_succeeds (window w) = false ->
  let r := register transport config w in
  r.1 = Rejected (mkError "Failed to initialize communication library") /\
  isReady r.2 = false /\
  sent r.2 = sent w /\ calls r.2 = calls w /\ emitted r.2 = emitted w /\
  timers r.2 = timers w /\ listening r.2 = listening w /\
  registrationAttempts (this r.2) = registrationAttempts (this w).
Proof.
  intros H1 H2 H3 H4 H5. cbn zeta.
  set (e := mkError "Failed to initialize communication library").
  set (w0 := settle (AwaitInit config, w)).
  assert (E0 : registrationPromise (this w0) = Some (AwaitInit config) /\
               window w0 = window w).
  { unfold w0, settle. clear. open_world w. auto. }
  destruct E0 as (E1 & E2).
  assert (Hr : register transport config w =
               (Rejected e, settle (Done (inl e), w0))).
  { unfold register, step. cbn [world]. rewrite H1, H2, H3. simpl negb. cbv iota.
    unfold performRegistration. rewrite H4.
    change (advance (AwaitInit config, w) (wait 0 (mkLoop w [] [])))
      with (mkLoop w0 [0%nat] []).
    cbn [observed outcome_of].
    change registration_fuel with (S (2 * maxRegistrationAttempts + 2)).
    rewrite (run_step_eq _ transport (mkLoop w0 [0%nat] [])
               (mkLoop (settle (Done (inl e), w0)) [] [(0%nat, Rejected e)]) ImportDone).
    - rewrite run_stop; [reflexivity|].
      unfold pending, settle. clear. open_world w0. reflexivity.
    - unfold next_event. cbn [world]. now rewrite E1.
    - unfold step. cbn [world]. rewrite E1. unfold performRegistration_init.
      rewrite E2, H5. reflexivity. }
  rewrite Hr. cbn [fst snd].
  unfold isReady, w0, settle. clear -H2. open_world w. subst. conjs; reflexivity.
Qed.

(** X17.  A registered session whose handshake has settled stays as it is:
    every later [register] call resolves to true at once, and nothing is
    sent, counted or subscribed any more, whatever else happens. *)
Theorem registered_is_final (evs : list Event) (l l' : Loop) :
  isInIframe (window (world l)) = true ->
  isRegistered (this (world l)) = true ->
  pending (world l) = false ->
  exec evs l = Some l' ->
  isReady (world l') = true /\
  sent (world l') = sent (world l) /\
  listening (world l') = listening (world l) /\
  timers (world l') = timers (world l) /\
  calls (world l') = calls (world l) /\
  registrationAttempts (this (world l')) = registrationAttempts (this (world l)) /\
  observed l' = observed l ++ map (fun c => (c, Resolved true)) (callers_of evs).
Proof.
  revert l. induction evs as [|ev evs IH]; intros l H1 H2 H3; simpl.
  - intros [= <-]. rewrite app_nil_r. unfold isReady. auto 10.
  - destruct (step ev l) as [l1|] eqn:E; [|discriminate]. intros Hx.
    assert (K : isInIframe (window (world l1)) = true /\
                isRegistered (this (world l1)) = true /\
                pending (world l1) = false /\
                sent (world l1) = sent (world l) /\
                listening (world l1) = listening (world l) /\
                timers (world l1) = timers (world l) /\
                calls (world l1) = calls (world l) /\
                registrationAttempts (this (world l1)) =
                  registrationAttempts (this (world l)) /\
                observed l1 =
                  observed l ++ match ev with
                                | Call c _ => [(c, Resolved true)]
                                | _ => []
                                end).
    { unfold step in E. unfold pending in H3. destruct ev as [c config| | |o|].
      - rewrite H1, H2 in E. simpl in E. injection E as <-.
        cbn [world observe observed]. auto 10.
      - injection E as <-. cbn [world observed]. rewrite app_nil_r.
        unfold pending, initializePostRobot_done.
        destruct (import_succeeds (window (world l))); [|auto 10].
        destruct l as [w ws obs]. cbn [world] in *. clear IH Hx.
        open_world w. auto 10.
      - destruct (registrationPromise (this (world l))) as [[]|]; discriminate.
      - destruct (registrationPromise (this (world l))) as [[]|]; discriminate.
      - destruct (registrationPromise (this (world l))) as [[]|]; discriminate. }
    destruct K as (K1 & K2 & K3 & K4 & K5 & K6 & K7 & K8 & K9).
    destruct (IH l1 K1 K2 K3 Hx) as (B1 & B2 & B3 & B4 & B5 & B6 & B7).
    rewrite B2, B3, B4, B5, B6, B7, K4, K5, K6, K7, K8, K9, <- app_assoc.
    conjs; try reflexivity; try assumption.
    destruct ev; reflexivity.
Qed.

End FirstHandshake.

(** ** A ready callback that throws *)

Section ThrowingCallback.
Import Bridge Facts Notions.






End ThrowingCallback.

(** ** What [register] resolves to *)

Section RegisterResolves.
Import Bridge Facts Notions.

(** The turns of [run] are turns of the loop. *)
Lemma run_as_exec (fuel : nat) (transport : Transport) (l : Loop) :
  exists evs, exec evs l = Some (run fuel transport l).
Proof.
  revert l. induction fuel as [|fuel IH]; intros l.
  - exists []. reflexivity.
  - simpl. destruct (next_event transport (world l)) as [e|]; [|exists []; reflexivity].
    destruct (step e l) as [l1|] eqn:E; [|exists []; reflexivity].
    destruct (IH l1) as [evs Hx]. exists (e :: evs). simpl. now rewrite E.
Qed.

(** One awaited call is a call followed by turns of the loop. *)
Lemma register_as_exec (transport : Transport) (config : option BullhornConfig) (w : World) :
  exists evs l',
    exec (Call 0 config :: evs) (mkLoop w [] []) = Some l' /\
    register transport config w = (outcome_of 0 (observed l'), world l').
Proof.
  unfold register.
  destruct (step (Call 0 config) (mkLoop w [] [])) as [l1|] eqn:E.
  - destruct (outcome_of 0 (observed l1)) eqn:Eo.
    + exists [], l1. cbn [exec]. rewrite E, Eo. auto.
    + exists [], l1. cbn [exec]. rewrite E, Eo. auto.
    + destruct (run_as_exec registration_fuel transport l1) as [evs Hx].
      exists evs, (run registration_fuel transport l1). cbn [exec]. rewrite E. auto.
  - unfold step in E. cbn [world] in E.
    destruct (negb (isInIframe (window w))); [discriminate|].
    destruct (isRegistered (this w)); [discriminate|].
    destruct (registrationPromise (this w)) as [[]|]; discriminate.
Qed.

(** Where the promise resolves, the session has been registered. *)
Lemma perform_right (config : option BullhornConfig) (w : World) (u : unit) :
  (performRegistration config w).1 = Done (inr u) ->
  isRegistered (this (performRegistration config w).2) = true.
Proof.
  destruct (perform_shape config w) as (_ & _ & [[-> _]|[-> _]]); discriminate.
Qed.

Lemma init_right (config : option BullhornConfig) (w : World) (u : unit) :
  (performRegistration_init config w).1 = Done (inr u) ->
  isRegistered (this (performRegistration_init config w).2) = true.
Proof.
  unfold performRegistration_init, performRegistration_send.
  destruct (import_succeeds (window w)); discriminate.
Qed.

Lemma reply_right (config : option BullhornConfig) (o : Outcome) (w : World) (u : unit) :
  (performRegistration_reply config o w).1 = Done (inr u) ->
  isRegistered (this (performRegistration_reply config o w).2) = true.
Proof.
  destruct o as [e|reply]; simpl.
  - destruct (Nat.lt_ge_cases (registrationAttempts (this w)) maxRegistrationAttempts) as [H|H].
    + rewrite registration_failed_retry by exact H. discriminate.
    + destruct (registration_failed_last config w H) as [[e' ->] _]. discriminate.
  - intros _. apply registration_succeeded_shape.
Qed.

Lemma advance_consistent (tw : Task * World) (l : Loop) :
  (forall u, tw.1 = Done (inr u) -> isRegistered (this tw.2) = true) ->
  (isRegistered (this (world l)) = true -> isRegistered (this tw.2) = true) ->
  window tw.2 = window (world l) ->
  consistent l -> consistent (advance tw l).
Proof.
  intros Hright Hmono Hwin [I1 I2].
  destruct (settle_fields tw) as (S1 & _ & _ & _ & S5 & S6).
  assert (Hobs : isInIframe (window (settle tw)) = true ->
            Forall (fun cr => forall b, cr.2 = Resolved b ->
                              b = true /\ isRegistered (this (settle tw)) = true)
                   (observed l)).
  { intros Hin. rewrite S6, Hwin in Hin. eapply Forall_impl; [exact (I2 Hin)|].
    intros cr Hcr b Hb. destruct (Hcr b Hb) as [-> Hreg]. rewrite S5. auto. }
  destruct (advance_cases tw l) as [(r & Hr & ->)|[Hp ->]]; split; cbn [world observed].
  - intros u. rewrite S1, S5. intros [= Hu]. eauto.
  - intros Hin. apply Forall_app. split; [auto|].
    induction (waiters l) as [|c ws IHws]; simpl; constructor; [|exact IHws].
    cbn [snd]. destruct r as [e|u]; simpl; [discriminate|].
    intros b [= <-]. rewrite ?S5. split; apply (Hright u Hr).
  - intros u. rewrite S1, S5. intros [= Hu]. eauto.
  - exact Hobs.
Qed.

Lemma step_consistent (e : Event) (l l' : Loop) :
  step e l = Some l' -> consistent l -> consistent l'.
Proof.
  intros Hs Hc. unfold step in Hs.
  destruct e as [c config| | |o|].
  - destruct (isInIframe (window (world l))) eqn:Hin; simpl in Hs.
    2:{ injection Hs as <-. destruct Hc as [I1 I2].
        split; [exact I1|]. cbn [world observe]. congruence. }
    destruct (isRegistered (this (world l))) eqn:Hreg.
    { injection Hs as <-. destruct Hc as [I1 I2].
      split; [exact I1|]. intros _. cbn [world observe observed].
      apply Forall_app. split; [auto|]. repeat constructor; cbn [snd] in *; congruence. }
    destruct (registrationPromise (this (world l))) as [t|] eqn:Et.
    + destruct t as [| | |r]; injection Hs as <-; try exact Hc.
      destruct Hc as [I1 I2].
      split; [exact I1|]. intros _. cbn [world observe observed].
      apply Forall_app. split; [auto|]. constructor; [|constructor].
      cbn [snd]. destruct r as [e|u]; simpl; [discriminate|].
      intros b [= <-]. rewrite (I1 u Et) in Hreg. discriminate.
    + injection Hs as <-. apply advance_consistent.
      * apply perform_right.
      * cbn [world wait]. congruence.
      * apply (ev_window _ _ (performRegistration_evolves config (world l))).
      * exact Hc.
  - injection Hs as <-. destruct Hc as [I1 I2].
    destruct (loaded_fields (world l)) as (L1 & _ & _ & _ & L5 & L6).
    split; cbn [world observed].
    + rewrite L1, L5. exact I1.
    + rewrite L5, L6. exact I2.
  - destruct (registrationPromise (this (world l))) as [[config| | |]|]; try discriminate.
    injection Hs as <-. apply advance_consistent.
    + apply init_right.
    + apply (ev_isRegistered _ _ (performRegistration_init_evolves config (world l))).
    + apply (ev_window _ _ (performRegistration_init_evolves config (world l))).
    + exact Hc.
  - destruct (registrationPromise (this (world l))) as [[|config| |]|]; try discriminate.
    injection Hs as <-. apply advance_consistent.
    + apply reply_right.
    + apply (ev_isRegistered _ _ (performRegistration_reply_evolves config o (world l))).
    + apply (ev_window _ _ (performRegistration_reply_evolves config o (world l))).
    + exact Hc.
  - destruct (registrationPromise (this (world l))) as [[| |config|]|]; try discriminate.
    injection Hs as <-. apply advance_consistent.
    + apply perform_right.
    + apply (ev_isRegistered _ _ (performRegistration_evolves config (world l))).
    + apply (ev_window _ _ (performRegistration_evolves config (world l))).
    + exact Hc.
Qed.

Lemma exec_consistent (evs : list Event) (l l' : Loop) :
  exec evs l = Some l' -> consistent l -> consistent l'.
Proof.
  revert l. induction evs as [|e evs IH]; intros l; simpl.
  - now intros [= <-].
  - destruct (step e l) as [l1|] eqn:E; [|discriminate].
    intros Hx Hc. apply (IH l1 Hx). exact (step_consistent e l l1 E Hc).
Qed.

Lemma outcome_of_Forall (c : nat) (obs : list (nat * Completion bool)) (b : bool)
  (P : bool -> Prop) :
  Forall (fun cr => forall b, cr.2 = Resolved b -> P b) obs ->
  outcome_of c obs = Resolved b -> P b.
Proof.
  induction 1 as [|[c' r] obs Hcr _ IH]; simpl; [discriminate|].
  destruct (Nat.eqb c' c); [intros ->; now apply Hcr|exact IH].
Qed.

(** X19.  In a session that was built by the constructor inside a frame,
    [register] never resolves to false: when it resolves the session is
    registered.  The check of [ensureRegistered] after its [register] call
    is therefore never the one that throws: a rejection of
    [ensureRegistered] is the rejection of [register] itself. *)
Theorem register_never_false
  (url_protocol : string -> option string) (bconfig : option BullhornBridgeConfig)
  (win : Window) (evs : list Event) (l : Loop) (transport : Transport) :
  exec evs (mkLoop (new_world (constructor url_protocol bconfig win) win) [] []) = Some l ->
  isInIframe win = true ->
  (forall config b,
      (register transport config (world l)).1 = Resolved b ->
      b = true /\ isReady (register transport config (world l)).2 = true) /\
  (forall e,
      (ensureRegistered transport (world l)).1 = Rejected e ->
      (register transport None (world l)).1 = Rejected e).
Proof.
  intros Hx Hin.
  assert (Hc : consistent l).
  { apply (exec_consistent evs _ l Hx). split; cbn; [discriminate|constructor]. }
  assert (Hw : isInIframe (window (world l)) = true).
  { rewrite (ev_window _ _ (exec_evolves evs _ l Hx)). exact Hin. }
  assert (H1 : forall config b,
             (register transport config (world l)).1 = Resolved b ->
             b = true /\ isReady (register transport config (world l)).2 = true).
  { intros config b Hb.
    destruct (register_as_exec transport config (world l)) as (evs' & l' & Hx' & Hr).
    rewrite Hr in *. cbn [fst snd] in *.
    assert (Hc' : consistent l').
    { apply (exec_consistent _ _ l' Hx'). split; cbn [world observed]; [apply Hc|constructor]. }
    destruct Hc' as [_ J2].
    assert (Hw' : isInIframe (window (world l')) = true).
    { rewrite (ev_window _ _ (exec_evolves _ _ l' Hx')). exact Hw. }
    apply (outcome_of_Forall 0%nat (observed l') b _ (J2 Hw') Hb). }
  split; [exact H1|].
  intros e. unfold ensureRegistered. rewrite Hw. simpl negb. cbv iota.
  destruct (isRegistered (this (world l))) eqn:Hreg; simpl negb; cbv iota.
  - rewrite Hreg. discriminate.
  - pose proof (H1 None) as K.
    destruct (register transport None (world l)) as [[b|e'|] w'].
    + destruct (K b eq_refl) as [_ Hready]. unfold isReady in Hready. cbn [snd] in Hready.
      rewrite Hready. discriminate.
    + simpl. congruence.
    + discriminate.
Qed.

End RegisterResolves.

(** ** The whitelist of relative URLs *)

Section Whitelist.
Import JsString RelativeUrl.

Lemma prefix_split (p s : string) :
  String.prefix p s = true -> exists rest, s = String.append p rest.
Proof.
  revert s. induction p as [|c p IH]; intros s; simpl.
  - exists s. reflexivity.
  - destruct s as [|d s]; simpl; [discriminate|].
    destruct (ascii_dec c d) as [->|]; [|discriminate].
    intros H. destruct (IH s H) as [rest ->]. exists rest. reflexivity.
Qed.

(** X20.  The accepted relative URLs are those that extend one of the six
    prefixes, have neither [..] nor [//] in them, and are at most 2000
    characters long.  The test for the leading slash never decides: every
    prefix starts with one. *)
Theorem validateRelativeUrl_accepts (url : string) :
  validateRelativeUrl url = true <->
  (exists prefix rest, In prefix allowedPrefixes /\ url = String.append prefix rest) /\
  includes url ".." = false /\
  includes url "//" = false /\
  (String.length url <= 2000)%nat.
Proof.
  unfold validateRelativeUrl, MAX_URL_LENGTH.
  assert (Hslash : forall prefix rest, In prefix allowedPrefixes ->
            startsWith (String.append prefix rest) "/" = true).
  { intros prefix rest Hin. unfold allowedPrefixes in Hin. simpl in Hin.
    repeat (destruct Hin as [<-|Hin]; [reflexivity|]). destruct Hin. }
  split.
  - remember (existsb (startsWith url) allowedPrefixes) as ex eqn:Eex.
    destruct (includes url ".."); simpl; [discriminate|].
    destruct (includes url "//"); simpl; [discriminate|].
    destruct (startsWith url "/"); simpl; [|discriminate].
    destruct (Nat.ltb_spec 2000 (String.length url)); [discriminate|].
    intros Hex. rewrite Hex in Eex. symmetry in Eex. clear Hex. rename Eex into Hex. apply List.existsb_exists in Hex. destruct Hex as (prefix & Hin & Hp).
    destruct (prefix_split prefix url Hp) as [rest ->].
    split; [exists prefix, rest; split; [exact Hin|reflexivity]|]. auto.
  - intros ((prefix & rest & Hin & ->) & -> & -> & Hlen).
    rewrite (Hslash prefix rest Hin). cbn [orb negb].
    destruct (Nat.ltb_spec 2000 (String.length (String.append prefix rest))); [lia|].
    apply List.existsb_exists. exists prefix. split; [exact Hin|].
    unfold startsWith. apply prefix_app.
Qed.

End Whitelist.

(** ** The request gateway *)

Section Gateway.
Import Bridge Facts Notions.

(** X21.  Outside of a frame the seven operations are rejected with the
    same error and leave the session as it is, while [register] resolves to
    false. *)
Theorem gateway_outside_frame
  (transport : Transport) (JSON_stringify : Js.value -> option string) (w : World) :
  isInIframe (window w) = false ->
  let refused := (Rejected (mkError "Not running in an iframe"), w) in
  (forall v relativeURL body, http transport JSON_stringify v relativeURL body w = refused) /\
  (forall params, open transport params w = refused) /\
  (forall params, openList transport params w = refused) /\
  refresh transport w = refused /\
  (forall config, register transport config w = (Resolved false, w)).
Proof.
  intros H. cbn zeta. conjs.
  - intros [] relativeURL body;
      unfold http, httpGET, httpPOST, httpPUT, httpDELETE, ensureRegistered;
      rewrite H; reflexivity.
  - intros params. unfold open, ui_command, ensureRegistered. rewrite H. reflexivity.
  - intros params. unfold openList, ui_command, ensureRegistered. rewrite H. reflexivity.
  - unfold refresh, ui_command, ensureRegistered. rewrite H. reflexivity.
  - intros config. unfold register, step. cbn [world]. rewrite H. reflexivity.
Qed.

(** A verb on a ready session. *)
Lemma http_ready
  (transport : Transport) (JSON_stringify : Js.value -> option string)
  (v : Verb) (relativeURL : string) (body : Js.value) (w : World) :
  sound w ->
  isReady w = true ->
  RelativeUrl.validateRelativeUrl relativeURL = true ->
  (has_body v = true -> payload_check JSON_stringify body = None) ->
  http transport JSON_stringify v relativeURL body w =
  (match transport (length (sent w)) with
   | inr reply => Resolved (response_data reply)
   | inl _ => Rejected (verb_failure v)
   end,
   add_sent (verb_message v relativeURL body w) w).
Proof.
  intros (S1 & _) Hready Hurl Hbody. destruct (S1 Hready) as [Hlib Hframe].
  unfold isReady in Hready.
  destruct v; unfold http, httpGET, httpPOST, httpPUT, httpDELETE;
    rewrite (ensureRegistered_registered transport w Hframe Hready), Hurl, ?Hbody, Hlib
      by reflexivity;
    simpl negb; cbv iota; unfold sendToParent, verb_message, verb_failure;
    destruct (transport (length (sent w))); reflexivity.
Qed.

(** X22.  On a ready session a verb with a whitelisted URL, and a body
    within the size limit where it has one, sends exactly one message: its
    name is the one of the verb, its payload the URL (and the body), its
    domain the allowed origins, its timeout ten seconds.  The call resolves
    to the [data] of the reply; when the transport fails, the error is
    replaced by the fixed one of the verb. *)
Theorem verb_on_ready_session
  (transport : Transport) (JSON_stringify : Js.value -> option string)
  (v : Verb) (relativeURL : string) (body : Js.value) (w : World) :
  sound w ->
  isReady w = true ->
  RelativeUrl.validateRelativeUrl relativeURL = true ->
  (has_body v = true -> payload_check JSON_stringify body = None) ->
  http transport JSON_stringify v relativeURL body w =
  (match transport (length (sent w)) with
   | inr reply => Resolved (response_data reply)
   | inl _ => Rejected (verb_failure v)
   end,
   add_sent (verb_message v relativeURL body w) w).
Proof. apply http_ready. Qed.

(** X23.  On a ready session the three UI commands send their parameters
    as they are, without a domain restriction, and hand the error of the
    transport on unchanged. *)
Theorem ui_on_ready_session (transport : Transport) (params : Js.value) (w : World) :
  sound w ->
  isReady w = true ->
  let answer :=
    match transport (length (sent w)) with
    | inr reply => Resolved (response_data reply)
    | inl e => Rejected e
    end in
  let message name data ms :=
    mkMessage name data {| timeout := ms; domain := None |} in
  open transport params w = (answer, add_sent (message "open" params 10000%Z) w) /\
  openList transport params w = (answer, add_sent (message "openList" params 10000%Z) w) /\
  refresh transport w = (answer, add_sent (message "refresh" (Js.VObj []) 5000%Z) w).
Proof.
  intros (S1 & _) Hready. destruct (S1 Hready) as [Hlib Hframe].
  unfold isReady in Hready. cbn zeta.
  unfold open, openList, refresh, ui_command.
  rewrite (ensureRegistered_registered transport w Hframe Hready), Hlib.
  simpl negb. cbv iota. unfold sendToParent.
  destruct (transport (length (sent w))); auto.
Qed.

(** X24.  A body whose JSON text is longer than 1024 * 1024 characters is
    refused by [httpPOST] and [httpPUT], in every state of the session: the
    call never resolves and no message with the body goes out; on a ready
    session with a whitelisted URL the error is the one of the size limit
    and the session is left as it is. *)
Theorem oversized_payload
  (transport : Transport) (JSON_stringify : Js.value -> option string)
  (v : Verb) (relativeURL : string) (body : Js.value) (w : World) (dataStr : string) :
  has_body v = true ->
  JSON_stringify body = Some dataStr ->
  (MAX_PAYLOAD < String.length dataStr)%nat ->
  let r := http transport JSON_stringify v relativeURL body w in
  (forall x, r.1 <> Resolved x) /\
  only_registers w r.2 /\
  (sound w -> isReady w = true -> RelativeUrl.validateRelativeUrl relativeURL = true ->
   r = (Rejected (mkError "Payload too large"), w)).
Proof.
  intros Hv Hs Hlen. cbn zeta.
  assert (Hp : payload_check JSON_stringify body = Some (mkError "Payload too large")).
  { unfold payload_check. rewrite Hs.
    destruct (Nat.ltb_spec MAX_PAYLOAD (String.length dataStr)); [reflexivity|lia]. }
  destruct (ensureRegistered_cases transport w) as [Ev _].
  destruct v; try discriminate; unfold http, httpPOST, httpPUT; rewrite Hp.
  - conjs.
    + intros x. destruct (ensureRegistered transport w) as [[u|e|] w1]; cbn [fst snd];
        [destruct (negb _)|..]; discriminate.
    + destruct (ensureRegistered transport w) as [[u|e|] w1]; cbn [fst snd] in *;
        [destruct (negb _)|..]; apply (ev_sent _ _ Ev).
    + intros (S1 & _) Hready Hurl. destruct (S1 Hready) as [Hlib Hframe].
      rewrite (ensureRegistered_registered transport w Hframe Hready), Hurl. reflexivity.
  - conjs.
    + intros x. destruct (ensureRegistered transport w) as [[u|e|] w1]; cbn [fst snd];
        [destruct (negb _)|..]; discriminate.
    + destruct (ensureRegistered transport w) as [[u|e|] w1]; cbn [fst snd] in *;
        [destruct (negb _)|..]; apply (ev_sent _ _ Ev).
    + intros (S1 & _) Hready Hurl. destruct (S1 Hready) as [Hlib Hframe].
      rewrite (ensureRegistered_registered transport w Hframe Hready), Hurl. reflexivity.
Qed.

End Gateway.

Section GatewayTraffic.
Import Bridge Facts Notions.

Lemma verb_message_evolves (v : Verb) (relativeURL : string) (body : Js.value)
  (w w1 : World) :
  evolves w w1 -> verb_message v relativeURL body w1 = verb_message v relativeURL body w.
Proof.
  intros Ev. unfold verb_message, http_options. now rewrite (ev_origins _ _ Ev).
Qed.

(** The four verbs are one procedure. *)
Lemma http_unfold
  (transport : Transport) (JSON_stringify : Js.value -> option string)
  (v : Verb) (relativeURL : string) (body : Js.value) (w : World) :
  http transport JSON_stringify v relativeURL body w =
  match ensureRegistered transport w with
  | (Resolved _, w1) =>
      if negb (RelativeUrl.validateRelativeUrl relativeURL)
      then (Rejected (mkError "Invalid or unauthorized URL"), w1)
      else
        match (if has_body v then payload_check JSON_stringify body else None) with
        | Some e => (Rejected e, w1)
        | None =>
            if negb (postRobot (this w1))
            then (Rejected (mkError "Communication library not initialized"), w1)
            else
              (match transport (length (sent w1)) with
               | inr response => Resolved (response_data response)
               | inl _ => Rejected (verb_failure v)
               end,
               add_sent (verb_message v relativeURL body w1) w1)
        end
  | (Rejected e, w1) => (Rejected e, w1)
  | (Pending, w1) => (Pending, w1)
  end.
Proof.
  destruct v; unfold http, httpGET, httpPOST, httpPUT, httpDELETE, has_body;
    (destruct (ensureRegistered transport w) as [[u|e|] w1]; [|reflexivity|reflexivity]);
    (destruct (negb (RelativeUrl.validateRelativeUrl relativeURL)); [reflexivity|]);
    try (destruct (payload_check JSON_stringify body); [reflexivity|]);
    (destruct (negb (postRobot (this w1))); [reflexivity|]);
    unfold sendToParent, verb_message, verb_failure;
    destruct (transport (length (sent w1))); reflexivity.
Qed.

(** X25.  In every state of the session a verb settles, and besides the
    handshakes of the registration that it may have to wait for it sends at
    most one message, the one of the verb.  That message goes out only when
    the session is registered, the URL is whitelisted and the body within
    the size limit; a call that resolves has sent it. *)
Theorem verb_sends_at_most_one
  (transport : Transport) (JSON_stringify : Js.value -> option string)
  (v : Verb) (relativeURL : string) (body : Js.value) (w : World) :
  let r := http transport JSON_stringify v relativeURL body w in
  r.1 <> Pending /\
  exists handshakes,
    Forall (fun m => name m = "register") handshakes /\
    (sent r.2 = sent w ++ handshakes /\ (forall x, r.1 <> Resolved x) \/
     sent r.2 = sent w ++ handshakes ++ [verb_message v relativeURL body w] /\
     isReady r.2 = true /\
     RelativeUrl.validateRelativeUrl relativeURL = true /\
     (has_body v = true -> payload_check JSON_stringify body = None)).
Proof.
  cbn zeta. rewrite http_unfold.
  destruct (ensureRegistered_cases transport w) as [Ev Hc].
  destruct (ev_sent _ _ Ev) as (handshakes & Hs & Hf).
  pose proof (verb_message_evolves v relativeURL body w _ Ev) as Hm.
  destruct (ensureRegistered transport w) as [[u|e|] w1]; cbn [fst snd] in *.
  - destruct Hc as [[_ Hreg]|[e He]]; [|discriminate].
    destruct (RelativeUrl.validateRelativeUrl relativeURL); simpl negb; cbv iota.
    2:{ split; [discriminate|]. exists handshakes. split; [exact Hf|]. left.
        split; [exact Hs|discriminate]. }
    destruct (if has_body v then payload_check JSON_stringify body else None) eqn:Hp.
    { split; [discriminate|]. exists handshakes. split; [exact Hf|]. left.
      split; [exact Hs|discriminate]. }
    destruct (postRobot (this w1)); simpl negb; cbv iota.
    2:{ split; [discriminate|]. exists handshakes. split; [exact Hf|]. left.
        split; [exact Hs|discriminate]. }
    split; [cbn [fst]; destruct (transport (length (sent w1))); discriminate|].
    exists handshakes. split; [exact Hf|]. right. cbn [fst snd]. rewrite Hm. conjs.
    + change (sent (add_sent ?m w1)) with (sent w1 ++ [m]). now rewrite Hs, app_assoc.
    + exact Hreg.
    + reflexivity.
    + intros Hv. now rewrite Hv in Hp.
  - split; [discriminate|]. exists handshakes. split; [exact Hf|]. left.
    split; [exact Hs|discriminate].
  - destruct Hc as [[Hc _]|[e Hc]]; discriminate.
Qed.

End GatewayTraffic.

(** ** Objects and the default instance *)

Section SingletonFurther.
Import Bridge Singleton.

(** X26.  An object built with [new] is not the default instance: a
    [getBullhornBridge] call that follows it, when no default instance
    exists yet, builds one more object from its own configuration, and
    both objects are kept. *)
Theorem new_is_not_default
  (url_protocol : string -> option string) (win : Window)
  (config1 config2 : option BullhornBridgeConfig) (st : Store) :
  defaultInstance st = None ->
  let made := new_BullhornBridge url_protocol win config1 st in
  let got := getBullhornBridge url_protocol win config2 made.2 in
  got.1 <> made.1 /\
  defaultInstance made.2 = None /\
  defaultInstance got.2 = Some got.1 /\
  objects got.2 !! made.1 = Some (constructor url_protocol config1 win) /\
  objects got.2 !! got.1 = Some (constructor url_protocol config2 win) /\
  (forall ref o, objects st !! ref = Some o -> objects got.2 !! ref = Some o).
Proof.
  intros Hd. cbn zeta. unfold getBullhornBridge, new_BullhornBridge. cbn [fst snd].
  cbn [defaultInstance objects]. rewrite Hd. cbn [fst snd defaultInstance objects].
  rewrite !length_app. simpl length. conjs.
  - lia.
  - reflexivity.
  - reflexivity.
  - rewrite lookup_app_l by (rewrite length_app; simpl; lia).
    rewrite lookup_app_r by lia. now rewrite Nat.sub_diag.
  - rewrite lookup_app_r by (rewrite length_app; simpl; lia).
    rewrite length_app. simpl length.
    now replace (length (objects st) + 1 - (length (objects st) + 1))%nat with 0%nat by lia.
  - intros ref o Ho. pose proof (lookup_lt_Some _ _ _ Ho).
    rewrite lookup_app_l by (rewrite length_app; simpl; lia).
    rewrite lookup_app_l by lia. exact Ho.
Qed.

End SingletonFurther.

(** ** The helper methods *)

Section HelperProperties.
Import Bridge Facts Notions.
Variable number_text : Z -> string.
Variable encodeURIComponent : string -> string.
Variable JSON_stringify : Js.value -> option string.
Variable transport : Transport.

(** Each helper is its verb, followed by the read of [data]. *)
Lemma helper_as_http (c : HelperCall) (w : World) :
  helper number_text encodeURIComponent JSON_stringify transport c w =
  Helpers.return_data
    (http transport JSON_stringify (helper_verb c)
       (helper_url number_text encodeURIComponent c) (helper_body c) w).
Proof. destruct c; reflexivity. Qed.


(** X28.  A helper sends nothing that its verb would not send: in every
    state of the session it settles, and besides handshakes at most the one
    message of its verb goes out. *)
Theorem helper_sends_at_most_one (c : HelperCall) (w : World) :
  let r := helper number_text encodeURIComponent JSON_stringify transport c w in
  r.1 <> Pending /\
  exists handshakes,
    Forall (fun m => name m = "register") handshakes /\
    (sent r.2 = sent w ++ handshakes \/
     sent r.2 =
       sent w ++ handshakes ++
       [verb_message (helper_verb c) (helper_url number_text encodeURIComponent c)
          (helper_body c) w]).
Proof.
  cbn zeta. rewrite helper_as_http, http_unfold.
  destruct (ensureRegistered_cases transport w) as [Ev Hc].
  destruct (ev_sent _ _ Ev) as (handshakes & Hs & Hf).
  pose proof (verb_message_evolves (helper_verb c)
                (helper_url number_text encodeURIComponent c) (helper_body c) w _ Ev) as Hm.
  destruct (ensureRegistered transport w) as [[u|e|] w1]; cbn [fst snd] in *.
  - destruct (negb _).
    { split; [discriminate|]. exists handshakes. auto. }
    destruct (if has_body (helper_verb c) then _ else _).
    { split; [discriminate|]. exists handshakes. auto. }
    destruct (negb _).
    { split; [discriminate|]. exists handshakes. auto. }
    unfold Helpers.return_data.
    assert (Hsent : forall x : Completion Js.value,
              sent (x, add_sent
                         (verb_message (helper_verb c)
                            (helper_url number_text encodeURIComponent c) (helper_body c) w1)
                         w1).2 =
              sent w ++ handshakes ++
              [verb_message (helper_verb c) (helper_url number_text encodeURIComponent c)
                 (helper_body c) w]).
    { intros x. cbn [snd]. rewrite Hm.
      change (sent (add_sent ?m w1)) with (sent w1 ++ [m]). now rewrite Hs, app_assoc. }
    destruct (transport (length (sent w1))) as [e|reply].
    + split; [discriminate|]. exists handshakes. split; [exact Hf|]. right. apply Hsent.
    + destruct (Helpers.data_of (response_data reply));
        (split; [discriminate|]; exists handshakes; split; [exact Hf|]; right; apply Hsent).
  - split; [discriminate|]. exists handshakes. auto.
  - destruct Hc as [[Hc _]|[e Hc]]; discriminate.
Qed.


End HelperProperties.

(** ** Where a credential comes from *)

Section CredentialSources.
Import Credentials.
Variable url_protocol : string -> option string.

(** X30.  Every credential comes from the query string when what is left
    of its value there after validation is a string that is not empty, and
    otherwise from the fragment, under the name of the field or under that
    name in lower case, validated as the field requires. *)
Theorem credential_precedence (urlParams hashParams : URLSearchParams) (k : key) :
  field k (extractCredentialsFromUrl url_protocol urlParams hashParams) =
  if JsString.truthy (field k (from_query url_protocol urlParams))
  then field k (from_query url_protocol urlParams)
  else
    let value :=
      JsString.or_else (get hashParams (key_name k))
        (get hashParams (JsString.toLowerCase (key_name k))) in
    match k with
    | KrestUrl => validateUrl url_protocol value
    | KrestToken => validateToken value
    | _ => validateParam value
    end.
Proof.
  destruct (JsString.truthy (field k (from_query url_protocol urlParams))) eqn:E.
  - now apply query_takes_precedence.
  - now apply fragment_fills_unset.
Qed.

End CredentialSources.

(** ** The further statements at sample sessions *)

Lemma sample_ready_sound : Facts.sound Facts.sample_ready.
Proof.
  apply register_sound.
  apply (exec_sound [Bridge.ModuleLoaded] (Bridge.mkLoop Facts.sample_constructed [] [])
           (Bridge.mkLoop Facts.sample_session [] [])).
  - apply constructed_sound.
  - reflexivity.
Qed.

Lemma credentials_immutable_witness :
  let l :=
    Facts.after Notions.sample_events
      (Bridge.mkLoop
         (Bridge.new_world
            (Bridge.constructor (fun _ => Some "https:") None Notions.sample_page)
            Notions.sample_page) [] []) in
  Bridge.getCredentials (Bridge.world l) =
  Credentials.mkCredentials (Some "123") None (Some "7")
    (Some "https://rest.example.com/") None.
Proof.
  cbn zeta.
  destruct (credentials_immutable (fun _ => Some "https:") None Notions.sample_page
              Notions.sample_events
              (Facts.after Notions.sample_events
                 (Bridge.mkLoop
                    (Bridge.new_world
                       (Bridge.constructor (fun _ => Some "https:") None Notions.sample_page)
                       Notions.sample_page) [] []))
              Facts.always_reply (fun _ => None) Bridge.GET "/entity/Candidate/1" Js.VNull)
    as (H & _ & _).
  - vm_compute. reflexivity.
  - rewrite H. vm_compute. reflexivity.
Defined.

Lemma isAllowedOrigin_exact_witness :
  Origin.isAllowedOrigin ["https://app.example.com"; "https://cls.example.com"]
    "https://cls.example.com" = Some true.
Proof.
  apply (isAllowedOrigin_exact ["https://app.example.com"; "https://cls.example.com"]
           "https://cls.example.com").
  - repeat constructor.
  - right. left. reflexivity.
Defined.


Lemma off_removes_first_witness :
  Facts.listeners_of Bridge.EvCustomEvent
    (Bridge.off Bridge.EvCustomEvent (Bridge.mkCallback 9 None)
       Notions.sample_listening_thrower) =
  [Bridge.mkCallback 5 None].
Proof.
  apply (off_removes_first Bridge.EvCustomEvent (Bridge.mkCallback 9 None)
           (Bridge.mkCallback 9 (Some (Bridge.mkError "boom")))
           [Bridge.mkCallback 5 None] [] Notions.sample_listening_thrower).
  - vm_compute. reflexivity.
  - repeat constructor. simpl. lia.
  - reflexivity.
Defined.

Lemma off_unknown_witness :
  Bridge.off Bridge.EvCustomEvent (Bridge.mkCallback 7 None) Notions.sample_listening =
  Notions.sample_listening.
Proof.
  apply off_unknown.
  replace (Facts.listeners_of Bridge.EvCustomEvent Notions.sample_listening)
    with [Bridge.mkCallback 5 None] by (vm_compute; reflexivity).
  repeat constructor. simpl. lia.
Defined.


Lemma emit_stops_at_throw_witness :
  (Bridge.emit Bridge.EvCustomEvent (Bridge.ArgData (Js.VStr "x"))
     Notions.sample_listening_thrower).1 = Some (Bridge.mkError "boom").
Proof.
  apply (emit_stops_at_throw Bridge.EvCustomEvent (Bridge.ArgData (Js.VStr "x"))
           Notions.sample_listening_thrower [Bridge.mkCallback 5 None] []
           (Bridge.mkCallback 9 (Some (Bridge.mkError "boom"))) (Bridge.mkError "boom")).
  - vm_compute. reflexivity.
  - repeat constructor.
  - reflexivity.
Defined.


Lemma handshakes_bounded_witness :
  let l :=
    Facts.after Notions.sample_events (Bridge.mkLoop Facts.sample_constructed [] []) in
  (length (Bridge.sent (Bridge.world l)) <= 5)%nat.
Proof.
  cbn zeta.
  apply (handshakes_bounded (fun _ => None) (Some Facts.sample_config)
           (Facts.sample_window Bridge.OtherWindow) Notions.sample_events).
  vm_compute. reflexivity.
Defined.

Lemma backoff_fixed_witness :
  let l0 := Bridge.mkLoop Facts.sample_constructed [] [] in
  exists n,
    Bridge.timers (Bridge.world (Facts.after Notions.sample_events l0)) =
      Bridge.timers (Bridge.world l0) ++ List.repeat 500%nat n /\
    Bridge.registrationAttempts (Bridge.this (Bridge.world (Facts.after Notions.sample_events l0))) =
      (Bridge.registrationAttempts (Bridge.this (Bridge.world l0)) + n)%nat.
Proof.
  cbn zeta.
  apply (backoff_fixed Notions.sample_events (Bridge.mkLoop Facts.sample_constructed [] [])).
  vm_compute. reflexivity.
Defined.

Lemma register_accepted_witness :
  (Bridge.register Facts.always_reply None Facts.sample_session).1 = Bridge.Resolved true.
Proof.
  apply (register_accepted Facts.always_reply None Facts.sample_session
           (Bridge.mkResponse (Js.VStr "ok"))).
  - reflexivity.
  - reflexivity.
  - reflexivity.
  - left. reflexivity.
  - split; [intros f [= <-]; reflexivity|vm_compute; constructor].
  - reflexivity.
Defined.

Lemma register_import_failure_witness :
  (Bridge.register Facts.always_reply None Notions.sample_offline).1 =
  Bridge.Rejected (Bridge.mkError "Failed to initialize communication library").
Proof.
  apply (register_import_failure Facts.always_reply None Notions.sample_offline);
    reflexivity.
Defined.

Lemma registered_is_final_witness :
  Bridge.observed
    (Facts.after [Bridge.Call 1 None; Bridge.ModuleLoaded; Bridge.Call 2 None]
       (Bridge.mkLoop Facts.sample_ready [] [])) =
  Bridge.observed (Bridge.mkLoop Facts.sample_ready [] []) ++
  map (fun c => (c, Bridge.Resolved true))
    (Facts.callers_of [Bridge.Call 1 None; Bridge.ModuleLoaded; Bridge.Call 2 None]).
Proof.
  apply (registered_is_final
           [Bridge.Call 1 None; Bridge.ModuleLoaded; Bridge.Call 2 None]
           (Bridge.mkLoop Facts.sample_ready [] [])
           (Facts.after [Bridge.Call 1 None; Bridge.ModuleLoaded; Bridge.Call 2 None]
              (Bridge.mkLoop Facts.sample_ready [] []))).
  - vm_compute. reflexivity.
  - vm_compute. reflexivity.
  - vm_compute. reflexivity.
  - vm_compute. reflexivity.
Defined.


Lemma register_never_false_witness :
  match (Bridge.register Facts.always_reply None Facts.sample_session).1 with
  | Bridge.Resolved b => b = true
  | _ => True
  end.
Proof.
  destruct (register_never_false (fun _ => None) (Some Facts.sample_config)
              (Facts.sample_window Bridge.OtherWindow) [Bridge.ModuleLoaded]
              (Bridge.mkLoop Facts.sample_session [] []) Facts.always_reply) as [H _].
  - reflexivity.
  - reflexivity.
  - specialize (H None). cbn [Bridge.world] in H.
    destruct ((Bridge.register Facts.always_reply None Facts.sample_session).1) as [b|e|].
    + apply (H b eq_refl).
    + exact I.
    + exact I.
Defined.

Lemma gateway_outside_frame_witness :
  Bridge.refresh Facts.always_reply (Facts.sample_world Bridge.SameWindow) =
  (Bridge.Rejected (Bridge.mkError "Not running in an iframe"),
   Facts.sample_world Bridge.SameWindow).
Proof.
  apply (gateway_outside_frame Facts.always_reply (fun _ => None)
           (Facts.sample_world Bridge.SameWindow)).
  reflexivity.
Defined.

Lemma verb_on_ready_session_witness :
  (Bridge.http Facts.always_timeout (fun _ => Some "null") Bridge.POST "/entity/Candidate/1"
     Js.VNull Facts.sample_ready).1 =
  Bridge.Rejected (Bridge.mkError "Failed to complete POST request").
Proof.
  rewrite (verb_on_ready_session Facts.always_timeout (fun _ => Some "null") Bridge.POST
             "/entity/Candidate/1" Js.VNull Facts.sample_ready).
  - reflexivity.
  - exact sample_ready_sound.
  - vm_compute. reflexivity.
  - vm_compute. reflexivity.
  - intros _. vm_compute. reflexivity.
Defined.

Lemma ui_on_ready_session_witness :
  (Bridge.open Facts.always_timeout (Js.VObj [("type", Js.VStr "Candidate")])
     Facts.sample_ready).1 =
  Bridge.Rejected (Bridge.mkError "timeout").
Proof.
  destruct (ui_on_ready_session Facts.always_timeout (Js.VObj [("type", Js.VStr "Candidate")])
              Facts.sample_ready) as (H & _ & _).
  - exact sample_ready_sound.
  - vm_compute. reflexivity.
  - rewrite H. reflexivity.
Defined.

Lemma oversized_payload_witness :
  Bridge.http Facts.always_reply Notions.sample_long_body Bridge.PUT "/entity/Note" Js.VNull
    Facts.sample_ready =
  (Bridge.Rejected (Bridge.mkError "Payload too large"), Facts.sample_ready).
Proof.
  destruct (oversized_payload Facts.always_reply Notions.sample_long_body Bridge.PUT
              "/entity/Note" Js.VNull Facts.sample_ready
              (JsString.repeat "x" (1024 * 1024 + 1))) as (_ & _ & H).
  - reflexivity.
  - reflexivity.
  - apply Nat.ltb_lt. vm_compute. reflexivity.
  - apply H.
    + exact sample_ready_sound.
    + vm_compute. reflexivity.
    + vm_compute. reflexivity.
Defined.

Lemma new_is_not_default_witness :
  let made := Singleton.new_BullhornBridge (fun _ => None)
                (Facts.sample_window Bridge.OtherWindow) None Singleton.loaded in
  let got := Singleton.getBullhornBridge (fun _ => None)
               (Facts.sample_window Bridge.OtherWindow) (Some Facts.sample_config) made.2 in
  got.1 <> made.1.
Proof.
  cbn zeta.
  apply (new_is_not_default (fun _ => None) (Facts.sample_window Bridge.OtherWindow) None
           (Some Facts.sample_config) Singleton.loaded).
  reflexivity.
Defined.

